(** * The runtime-scan orchestrator of VMClarity: scanner.go

    A shallow embedding of [runtime_scan/pkg/orchestrator/scanner] (the
    scan controller, the worker, the job pipeline, the result waiter and
    the job reaper) together with the properties of its specification.
    The translation of the scan configuration for the scanner CLI, and the
    routes and the embedded specification of the generated API server,
    are modelled beside it.

    Conventions of the embedding.
    - A Go [int] is a [Z] kept in the 64-bit two's-complement range; [+]
      and [-] wrap ([int_add], [int_sub]).
    - A Go pointer or interface value that may be [nil] is an [option];
      dereferencing [None] panics.
    - The backend store and the cloud provider are interfaces in the Go
      code.  Here they are records of operations over an arbitrary world
      [W]; every function of the scanner is a computation [M W A] that
      threads the world, appends the calls it makes to a trace, and may
      panic or stay blocked in a [select].
    - A [select] statement is driven by the list of the branches that were
      taken, one event per iteration of the enclosing loop. *)

From Stdlib Require Import ZArith List String Ascii Bool Lia.
From stdpp Require Import base option list strings pretty gmap.
Import ListNotations.

Local Open Scope Z_scope.
Local Open Scope string_scope.
Local Open Scope list_scope.

(** ** Go integers *)

Definition int_min : Z := - 2 ^ 63.
Definition int_max : Z := 2 ^ 63 - 1.

Definition wrap_int (z : Z) : Z := (z + 2 ^ 63) mod 2 ^ 64 - 2 ^ 63.

Definition int_add (a b : Z) : Z := wrap_int (a + b).
Definition int_sub (a b : Z) : Z := wrap_int (a - b).

Definition in_int_range (z : Z) : Prop := int_min <= z <= int_max.

(** [time.Time], as an instant on some clock. *)
Definition Time : Type := Z.

(** ** package models *)

Inductive TargetScanStateState : Type :=
| INIT | ATTACHED | INPROGRESS | ABORTED | DONE | NOTSCANNED
| TargetScanStateState_zero (* the zero value of the string type *).

Inductive ScanState : Type :=
| ScanStateAborted | ScanStateDone | ScanStateFailed
| ScanStateInProgress | ScanStatePending
| ScanState_zero.

Inductive ScanStateReason : Type :=
| ScanStateReasonAborted
| ScanStateReasonOneOrMoreTargetFailedToScan
| ScanStateReasonSuccess
| ScanStateReasonTimedOut
| ScanStateReasonUnexpected.

Record TargetScanState : Type := {
  TargetScanState_Errors : option (list string);
  TargetScanState_State : option TargetScanStateState
}.

Record TargetScanStatus : Type := {
  Status_Exploits : option TargetScanState;
  Status_General : option TargetScanState;
  Status_Malware : option TargetScanState;
  Status_Misconfigurations : option TargetScanState;
  Status_Rootkits : option TargetScanState;
  Status_Sbom : option TargetScanState;
  Status_Secrets : option TargetScanState;
  Status_Vulnerabilities : option TargetScanState
}.

Record VulnerabilityScanSummary : Type := {
  TotalCriticalVulnerabilities : option Z;
  TotalHighVulnerabilities : option Z;
  TotalMediumVulnerabilities : option Z;
  TotalLowVulnerabilities : option Z;
  TotalNegligibleVulnerabilities : option Z
}.

Record ScanFindingsSummary : Type := {
  Findings_TotalExploits : option Z;
  Findings_TotalMalware : option Z;
  Findings_TotalMisconfigurations : option Z;
  Findings_TotalPackages : option Z;
  Findings_TotalRootkits : option Z;
  Findings_TotalSecrets : option Z;
  Findings_TotalVulnerabilities : option VulnerabilityScanSummary
}.

Record ScanSummary : Type := {
  JobsCompleted : option Z;
  JobsLeftToRun : option Z;
  TotalExploits : option Z;
  TotalMalware : option Z;
  TotalMisconfigurations : option Z;
  TotalPackages : option Z;
  TotalRootkits : option Z;
  TotalSecrets : option Z;
  TotalVulnerabilities : option VulnerabilityScanSummary
}.

Record Scan : Type := {
  Scan_EndTime : option Time;
  Scan_State : option ScanState;
  Scan_StateMessage : option string;
  Scan_StateReason : option ScanStateReason;
  Scan_Summary : option ScanSummary
}.

(** [&models.Scan{}] *)
Definition Scan_empty : Scan :=
  {| Scan_EndTime := None; Scan_State := None; Scan_StateMessage := None;
     Scan_StateReason := None; Scan_Summary := None |}.

Record TargetScanResult : Type := {
  Result_Id : option string;
  Result_Summary : option ScanFindingsSummary;
  Result_Scan : option string;      (* ScanRelationship.Id *)
  Result_Status : option TargetScanStatus;
  Result_Target : option string     (* TargetRelationship.Id *)
}.

(** [%v] of a state. *)
Definition TargetScanStateState_String (state : TargetScanStateState) : string :=
  match state with
  | INIT => "INIT"
  | ATTACHED => "ATTACHED"
  | INPROGRESS => "INPROGRESS"
  | ABORTED => "ABORTED"
  | DONE => "DONE"
  | NOTSCANNED => "NOTSCANNED"
  | TargetScanStateState_zero => ""
  end.

(** Modelled from the spec: [models.Scan.GetState] is not among the
    sources.  The controller asks it for the scan's state and learns
    whether "the state cannot be read": it answers the state behind the
    pointer with [true], and the zero value with [false] for a nil
    pointer. *)
Definition Scan_GetState (scan : Scan) : ScanState * bool :=
  match Scan_State scan with
  | Some st => (st, true)
  | None => (ScanState_zero, false)
  end.

(** Modelled from the spec: [models.TargetScanState.GetState] and
    [models.TargetScanStatus.GetGeneralState] are not among the sources.
    They read "the target's general state": the state of the [General]
    sub-state when both pointers are set, the zero value and [false]
    otherwise. *)
Definition TargetScanState_GetState (t : TargetScanState)
  : TargetScanStateState * bool :=
  match TargetScanState_State t with
  | Some st => (st, true)
  | None => (TargetScanStateState_zero, false)
  end.

Definition GetGeneralState (t : TargetScanStatus)
  : TargetScanStateState * bool :=
  match Status_General t with
  | Some g => TargetScanState_GetState g
  | None => (TargetScanStateState_zero, false)
  end.

(** ** Errors

    [fmt.Errorf] with [%v] builds a new error out of the text of its
    arguments; with [%w] it wraps its argument, so that [errors.As] still
    finds it.  [backendclient.ScanResultConflictError] carries the scan
    result that already exists. *)

Inductive error : Type :=
| errorString (msg : string)
| ScanResultConflictError (ConflictingScanResult : option TargetScanResult)
| wrapError (msg : string) (inner : error).

Fixpoint error_Error (e : error) : string :=
  match e with
  | errorString msg => msg
  | ScanResultConflictError _ => "conflict"
  | wrapError msg inner => msg +:+ error_Error inner
  end.

(** [fmt.Sprintf(format, args...)], the arguments given as the text that
    [%v] prints for them.  Each verb ([%v], [%s], [%d], ..., with or
    without the flag [+] or [#], which changes nothing for a string)
    is replaced by the next argument, and [%%] by a percent sign.  A verb
    that finds no argument left is written as Go writes it.  No call in
    the sources passes more arguments than verbs; for such a call Go adds
    their type names, which are left out here. *)
Fixpoint Sprintf (format : string) (args : list string) : string :=
  match format with
  | EmptyString =>
      match args with
      | [] => EmptyString
      | _ => "%!(EXTRA " +:+ String.concat ", " args +:+ ")"
      end
  | String "%"%char EmptyString => "%!(NOVERB)"
  | String "%"%char (String "%"%char rest) => String "%"%char (Sprintf rest args)
  | String "%"%char (String "+"%char (String verb rest))
  | String "%"%char (String "#"%char (String verb rest))
  | String "%"%char (String verb rest) =>
      match args with
      | a :: args => a +:+ Sprintf rest args
      | [] => "%!" +:+ String verb "(MISSING)" +:+ Sprintf rest []
      end
  | String c rest => String c (Sprintf rest args)
  end.

(** [fmt.Errorf(format, args...)] without the verb [%w]. *)
Definition Errorf (format : string) (args : list string) : error :=
  errorString (Sprintf format args).

(** [errors.As(err, &conErr)] for [conErr] a [ScanResultConflictError]:
    the first error of the chain of that type. *)
Fixpoint errors_As_conflict (e : error) : option (option TargetScanResult) :=
  match e with
  | errorString _ => None
  | ScanResultConflictError c => Some c
  | wrapError _ inner => errors_As_conflict inner
  end.

(** The value of a Go call returning [(T, error)]. *)
Inductive res (A : Type) : Type :=
| OK (a : A)
| Err (e : error).
Arguments OK {A} a.
Arguments Err {A} e.

(** ** package types: cloud primitives and the Job

    [types.Instance], [types.Snapshot] and [types.Volume] are interfaces;
    a value is a handle whose getters are pure, and whose other methods
    act on the cloud (see [ProviderClient] below). *)

Record Volume : Type := { Volume_GetID : string }.

Record Snapshot : Type := {
  Snapshot_GetID : string;
  Snapshot_GetRegion : string
}.

Record Instance : Type := {
  Instance_GetID : string;
  Instance_GetAvailabilityZone : string
}.

Record Job : Type := {
  Job_Instance : option Instance;
  Job_SrcSnapshot : option Snapshot;
  Job_DstSnapshot : option Snapshot;
  Job_Volume : option Volume
}.

(** [types.Job{}] *)
Definition Job_zero : Job :=
  {| Job_Instance := None; Job_SrcSnapshot := None;
     Job_DstSnapshot := None; Job_Volume := None |}.

Definition Job_set_SrcSnapshot (job : Job) (s : Snapshot) : Job :=
  {| Job_Instance := Job_Instance job; Job_SrcSnapshot := Some s;
     Job_DstSnapshot := Job_DstSnapshot job; Job_Volume := Job_Volume job |}.

Definition Job_set_DstSnapshot (job : Job) (s : Snapshot) : Job :=
  {| Job_Instance := Job_Instance job; Job_SrcSnapshot := Job_SrcSnapshot job;
     Job_DstSnapshot := Some s; Job_Volume := Job_Volume job |}.

Definition Job_set_Instance (job : Job) (i : Instance) : Job :=
  {| Job_Instance := Some i; Job_SrcSnapshot := Job_SrcSnapshot job;
     Job_DstSnapshot := Job_DstSnapshot job; Job_Volume := Job_Volume job |}.

Definition Job_set_Volume (job : Job) (v : Volume) : Job :=
  {| Job_Instance := Job_Instance job; Job_SrcSnapshot := Job_SrcSnapshot job;
     Job_DstSnapshot := Job_DstSnapshot job; Job_Volume := Some v |}.

Inductive Resource : Type :=
| ResInstance (i : Instance)
| ResSnapshot (s : Snapshot)
| ResVolume (v : Volume).

(** ** package config and the scan configuration *)

Inductive DeleteJobPolicyType : Type :=
| DeleteJobPolicyAlways
| DeleteJobPolicyNever
| DeleteJobPolicyOnSuccess
| DeleteJobPolicy_other (s : string) (* any other value of the string type *).

Record OrchestratorConfig : Type := {
  Region : string;
  DeleteJobPolicy : DeleteJobPolicyType;
  DeviceName : string;
  ScannerImage : string;
  ScannerBackendAddress : string;
  ScannerKeyPairName : string
}.

(** The seven family configurations ([models.SBOMConfig],
    [models.VulnerabilitiesConfig], ...) are read only through their
    [Enabled *bool] field. *)
Record FamilyConfig : Type := { Enabled : option bool }.

Record ScanFamiliesConfig : Type := {
  Families_Exploits : option FamilyConfig;
  Families_Malware : option FamilyConfig;
  Families_Misconfigurations : option FamilyConfig;
  Families_Rootkits : option FamilyConfig;
  Families_Sbom : option FamilyConfig;
  Families_Secrets : option FamilyConfig;
  Families_Vulnerabilities : option FamilyConfig
}.

Record ScanningJobConfig : Type := {
  Cfg_ScannerImage : string;
  Cfg_ScannerCLIConfig : string;
  Cfg_VMClarityAddress : string;
  Cfg_ScanResultID : string;
  Cfg_KeyPairName : string;
  Cfg_ScannerInstanceCreationConfig : option string
}.

(** ** The scanner *)

Record TargetInstance : Type := {
  TargetID : string;
  Target_Instance : Instance
}.

Record scanData : Type := {
  targetInstance : TargetInstance;
  scanResultID : string;
  success : bool;
  completed : bool;
  timeout : bool
}.

Definition scanData_set (data : scanData) (s c t : bool) : scanData :=
  {| targetInstance := targetInstance data;
     scanResultID := scanResultID data;
     success := s; completed := c; timeout := t |}.

(** The fields of [Scanner] that are plain data.  [familiesYaml] stands
    for the value of [generateFamiliesConfigurationYaml], the translation
    of the scan configuration to the YAML document of the scanner CLI. *)
Record Scanner : Type := {
  scanFamiliesConfig : ScanFamiliesConfig;
  scannerInstanceCreationConfig : option string;
  config : OrchestratorConfig;
  scanID : string;
  familiesYaml : res string
}.

Definition SnapshotCreationTimeout : Z := 3 * 60.
Definition SnapshotCopyTimeout : Z := 15 * 60.

(** ** Effects: the trace, the outcome and the monad *)

Inductive LogLevel : Type := LogDebug | LogInfo | LogWarning | LogError.

(** What the scanner does to the outside world, with the answer it got. *)
Inductive Action : Type :=
| ActLog (level : LogLevel) (format : string) (args : list string)
| ActDelete (r : Resource) (result : option error)
| ActPatchScan (id : string) (scan : Scan) (result : option error)
| ActPostScanResult (sr : TargetScanResult) (result : res TargetScanResult)
| ActPatchTargetScanStatus (id : string) (status : TargetScanStatus)
    (result : option error)
| ActSendDone (targetID : string).

Inductive Outcome (A : Type) : Type :=
| Returned (a : A)
| Panicked                (* a nil dereference *)
| Blocked                 (* waiting in a select when the events ran out *).
Arguments Returned {A} a.
Arguments Panicked {A}.
Arguments Blocked {A}.

Definition M (W A : Type) : Type := W -> Outcome A * W * list Action.

Definition M_ret {W A} (a : A) : M W A := fun w => (Returned a, w, []).

Definition M_bind {W A B} (f : A -> M W B) (m : M W A) : M W B :=
  fun w =>
    match m w with
    | (Returned a, w1, t1) =>
        let '(o, w2, t2) := f a w1 in (o, w2, t1 ++ t2)
    | (Panicked, w1, t1) => (Panicked, w1, t1)
    | (Blocked, w1, t1) => (Blocked, w1, t1)
    end.

#[global] Instance M_MRet {W} : MRet (M W) := @M_ret W.
#[global] Instance M_MBind {W} : MBind (M W) := @M_bind W.

Definition panic {W A} : M W A := fun w => (Panicked, w, []).
Definition blocked {W A} : M W A := fun w => (Blocked, w, []).

(** A call to the outside world. *)
Definition call {W A} (op : W -> A * W) : M W A :=
  fun w => let '(a, w') := op w in (Returned a, w', []).

Definition emit {W} (a : Action) : M W unit := fun w => (Returned tt, w, [a]).

(** Dereferencing a pointer. *)
Definition deref {W A} (p : option A) : M W A :=
  match p with
  | Some a => mret a
  | None => panic
  end.

Definition log {W} (level : LogLevel) (format : string) (args : list string)
  : M W unit :=
  emit (ActLog level format args).

(** ** The collaborators: backend store, provider, runtime *)

Record BackendClient (W : Type) : Type := {
  GetScan : string -> W -> res Scan * W;
  GetScanResultSummary : string -> W -> res ScanFindingsSummary * W;
  GetScanResultStatus : string -> W -> res TargetScanStatus * W;
  PatchScan : string -> Scan -> W -> option error * W;
  PatchTargetScanStatus : string -> TargetScanStatus -> W -> option error * W;
  PostScanResult : TargetScanResult -> W -> res TargetScanResult * W
}.
Arguments GetScan {W} _ _ _.
Arguments GetScanResultSummary {W} _ _ _.
Arguments GetScanResultStatus {W} _ _ _.
Arguments PatchScan {W} _ _ _ _.
Arguments PatchTargetScanStatus {W} _ _ _ _.
Arguments PostScanResult {W} _ _ _.

(** [provider.Client] and the methods of the cloud primitives that reach
    the cloud.  The waits on a snapshot take the timeout laid over the
    scan context. *)
Record ProviderClient (W : Type) : Type := {
  RunScanningJob : string -> string -> ScanningJobConfig -> W -> res Instance * W;
  Instance_GetRootVolume : Instance -> W -> res Volume * W;
  Instance_WaitForReady : Instance -> W -> option error * W;
  Instance_AttachVolume : Instance -> Volume -> string -> W -> option error * W;
  Instance_Delete : Instance -> W -> option error * W;
  Volume_TakeSnapshot : Volume -> W -> res Snapshot * W;
  Volume_WaitForReady : Volume -> W -> option error * W;
  Volume_WaitForAttached : Volume -> W -> option error * W;
  Volume_Delete : Volume -> W -> option error * W;
  Snapshot_WaitForReady : Snapshot -> Z -> W -> option error * W;
  Snapshot_Copy : Snapshot -> string -> W -> res Snapshot * W;
  Snapshot_CreateVolume : Snapshot -> string -> W -> res Volume * W;
  Snapshot_Delete : Snapshot -> W -> option error * W
}.
Arguments RunScanningJob {W} _ _ _ _ _.
Arguments Instance_GetRootVolume {W} _ _ _.
Arguments Instance_WaitForReady {W} _ _ _.
Arguments Instance_AttachVolume {W} _ _ _ _ _.
Arguments Instance_Delete {W} _ _ _.
Arguments Volume_TakeSnapshot {W} _ _ _.
Arguments Volume_WaitForReady {W} _ _ _.
Arguments Volume_WaitForAttached {W} _ _ _.
Arguments Volume_Delete {W} _ _ _.
Arguments Snapshot_WaitForReady {W} _ _ _ _.
Arguments Snapshot_Copy {W} _ _ _ _.
Arguments Snapshot_CreateVolume {W} _ _ _ _.
Arguments Snapshot_Delete {W} _ _ _.

(** [time.Now], and the method [SetTargetScanStatusCompletionError] of the
    scanner, which lives in another file of the package: it records the
    error text on the status of the scan result and may itself fail. *)
Record Runtime (W : Type) : Type := {
  time_Now : W -> Time * W;
  SetTargetScanStatusCompletionError : string -> string -> W -> option error * W
}.
Arguments time_Now {W} _ _.
Arguments SetTargetScanStatusCompletionError {W} _ _ _ _.

(** ** Events of the select statements *)

(** [waitForResult]: the ticker fired, the context of the wait is done,
    or the kill signal was received. *)
Inductive WaitSelect : Type := TimerTick | CtxDone | WaitKill.

(** The inner select of [worker]: the target id was sent on [done], or the
    kill signal was received first. *)
Inductive SendSelect : Type := SentDone | SendKill.

(** The outer select of [worker]: an item arrived from the queue (with the
    events the iteration then meets), or the kill signal was received. *)
Inductive WorkerSelect : Type :=
| QueueRecv (data : scanData) (wait : list WaitSelect) (send : SendSelect)
| WorkerKill.

(** The select of [jobBatchManagement], interleaved with the writes of the
    workers to the flags of a shared [scanData]. *)
Inductive ControllerEvent : Type :=
| WorkerWrite (targetID : string) (success completed timeout : bool)
| DoneRecv (targetID : string)
| KillRecv.

(** ** scanner.go *)

Section scanner.

Context {W : Type}.
Variable backendClient : BackendClient W.
Variable providerClient : ProviderClient W.
Variable runtime : Runtime W.
Variable s : Scanner.

(** [runtimeScanUtils.IntPtr] of the sum of two dereferenced pointers. *)
Definition IntPtr_add (a b : option Z) : M W (option Z) :=
  x ← deref a; y ← deref b; mret (Some (int_add x y)).

Definition createScanWithUpdatedSummary (data : scanData)
  : M W (option Scan * option error) :=
  r ← call (GetScan backendClient (scanID s));
  match r with
  | Err err =>
      mret (None, Some (Errorf "failed to get scan to update status: %v"
                          [error_Error err]))
  | OK scan =>
  r ← call (GetScanResultSummary backendClient (scanResultID data));
  match r with
  | Err err =>
      mret (None, Some (Errorf "failed to get result summary to update status: %v"
                          [error_Error err]))
  | OK scanResultSummary =>
  (* Update the scan summary with the summary from the completed scan result *)
  summary ← deref (Scan_Summary scan);
  c ← deref (JobsCompleted summary);
  let jobsCompleted := Some (int_add c 1) in
  l ← deref (JobsLeftToRun summary);
  let jobsLeftToRun := Some (int_sub l 1) in
  totalExploits ←
    IntPtr_add (TotalExploits summary) (Findings_TotalExploits scanResultSummary);
  totalMalware ←
    IntPtr_add (TotalMalware summary) (Findings_TotalMalware scanResultSummary);
  totalMisconfigurations ←
    IntPtr_add (TotalMisconfigurations summary)
               (Findings_TotalMisconfigurations scanResultSummary);
  totalPackages ←
    IntPtr_add (TotalPackages summary) (Findings_TotalPackages scanResultSummary);
  totalRootkits ←
    IntPtr_add (TotalRootkits summary) (Findings_TotalRootkits scanResultSummary);
  totalSecrets ←
    IntPtr_add (TotalSecrets summary) (Findings_TotalSecrets scanResultSummary);
  vs ← deref (TotalVulnerabilities summary);
  vr ← deref (Findings_TotalVulnerabilities scanResultSummary);
  critical ← IntPtr_add (TotalCriticalVulnerabilities vs)
                        (TotalCriticalVulnerabilities vr);
  high ← IntPtr_add (TotalHighVulnerabilities vs) (TotalHighVulnerabilities vr);
  low ← IntPtr_add (TotalLowVulnerabilities vs) (TotalLowVulnerabilities vr);
  medium ← IntPtr_add (TotalMediumVulnerabilities vs)
                      (TotalMediumVulnerabilities vr);
  negligible ← IntPtr_add (TotalCriticalVulnerabilities vs)
                          (TotalNegligibleVulnerabilities vr);
  mret (Some
          {| Scan_EndTime := Scan_EndTime scan;
             Scan_State := Scan_State scan;
             Scan_StateMessage := Scan_StateMessage scan;
             Scan_StateReason := Scan_StateReason scan;
             Scan_Summary := Some
               {| JobsCompleted := jobsCompleted;
                  JobsLeftToRun := jobsLeftToRun;
                  TotalExploits := totalExploits;
                  TotalMalware := totalMalware;
                  TotalMisconfigurations := totalMisconfigurations;
                  TotalPackages := totalPackages;
                  TotalRootkits := totalRootkits;
                  TotalSecrets := totalSecrets;
                  TotalVulnerabilities := Some
                    {| TotalCriticalVulnerabilities := critical;
                       TotalHighVulnerabilities := high;
                       TotalMediumVulnerabilities := medium;
                       TotalLowVulnerabilities := low;
                       TotalNegligibleVulnerabilities := negligible |} |} |},
        None)
  end
  end.

Definition scanStatusHasErrors (status : TargetScanStatus) : M W bool :=
  general ← deref (Status_General status);
  match TargetScanState_Errors general with
  | Some errors => if (0 <? length errors)%nat then mret true else mret false
  | None => mret false
  end.

(** The loop of [waitForResult].  [break] inside a [select] leaves the
    select only, so every branch that does not return goes round again. *)
Fixpoint waitForResult_loop (events : list WaitSelect) (data : scanData)
  : M W scanData :=
  match events with
  | [] => blocked
  | TimerTick :: events =>
      log LogInfo "Polling scan results for target id=%v and scan id=%v"
        [TargetID (targetInstance data); scanID s];;
      r ← call (GetScanResultStatus backendClient (scanResultID data));
      match r with
      | Err err =>
          log LogError "Failed to get target scan status. scanID=%v, target id=%s: %v"
            [scanID s; TargetID (targetInstance data); error_Error err];;
          waitForResult_loop events data
      | OK scanResultStatus =>
          let '(state, ok) := GetGeneralState scanResultStatus in
          (if negb ok
           then log LogError "Cannot determine state of ScanResult with id %s"
                  [scanResultID data]
           else mret tt);;
          match state with
          | INIT | ATTACHED | INPROGRESS =>
              log LogInfo "Scan for target is still running. scan result id=%v, scan id=%v, target id=%s, state=%v"
                [scanResultID data; scanID s; TargetID (targetInstance data);
                 TargetScanStateState_String state];;
              waitForResult_loop events data
          | ABORTED =>
              log LogInfo "Scan for target is aborted. Waiting for partial results to be reported back. scan result id=%v, scan id=%v, target id=%s, state=%v"
                [scanResultID data; scanID s; TargetID (targetInstance data);
                 TargetScanStateState_String state];;
              waitForResult_loop events data
          | DONE | NOTSCANNED =>
              log LogInfo "Scan for target is completed. scan result id=%v, scan id=%v, target id=%s, state=%v"
                [scanResultID data; scanID s; TargetID (targetInstance data);
                 TargetScanStateState_String state];;
              hasErrors ← scanStatusHasErrors scanResultStatus;
              mret (scanData_set data (negb hasErrors) true (timeout data))
          | TargetScanStateState_zero => waitForResult_loop events data
          end
      end
  | CtxDone :: _ =>
      log LogInfo "Job has timed out. targetID=%v" [TargetID (targetInstance data)];;
      mret (scanData_set data false true true)
  | WaitKill :: _ =>
      log LogInfo "Instance scan was canceled. targetID=%v"
        [TargetID (targetInstance data)];;
      mret data
  end.

Definition waitForResult (events : list WaitSelect) (data : scanData)
  : M W scanData :=
  log LogInfo "Waiting for result. targetID=%+v" [TargetID (targetInstance data)];;
  waitForResult_loop events data.

(** *** The reaper *)

Definition Resource_GetID (r : Resource) : string :=
  match r with
  | ResInstance i => Instance_GetID i
  | ResSnapshot sn => Snapshot_GetID sn
  | ResVolume v => Volume_GetID v
  end.

(** [r.Delete(ctx)], recorded in the trace with its answer. *)
Definition Delete (r : Resource) : M W (option error) :=
  err ← call (match r with
              | ResInstance i => Instance_Delete providerClient i
              | ResSnapshot sn => Snapshot_Delete providerClient sn
              | ResVolume v => Volume_Delete providerClient v
              end);
  emit (ActDelete r err);;
  mret err.

(** [if err := r.Delete(ctx); err != nil { log.Errorf(format, id, err) }] *)
Definition deleteAndLog (r : Resource) (format : string) : M W unit :=
  err ← Delete r;
  match err with
  | Some err => log LogError format [Resource_GetID r; error_Error err]
  | None => mret tt
  end.

Definition deleteJob (job : Job) : M W unit :=
  match Job_Instance job with
  | Some i =>
      deleteAndLog (ResInstance i) "Failed to delete instance. instanceID=%v: %v"
  | None => mret tt
  end;;
  match Job_SrcSnapshot job with
  | Some sn =>
      deleteAndLog (ResSnapshot sn)
        "Failed to delete source snapshot. snapshotID=%v: %v"
  | None => mret tt
  end;;
  match Job_DstSnapshot job with
  | Some sn =>
      deleteAndLog (ResSnapshot sn)
        "Failed to delete destination snapshot. snapshotID=%v: %v"
  | None => mret tt
  end;;
  match Job_Volume job with
  | Some v => deleteAndLog (ResVolume v) "Failed to delete volume. volumeID=%v: %v"
  | None => mret tt
  end.

Definition deleteJobIfNeeded (job : option Job)
    (isSuccessfulJob isCompletedJob : bool) : M W unit :=
  match job with
  | None => mret tt
  | Some job =>
      (* delete uncompleted jobs - scan process was canceled *)
      if negb isCompletedJob then deleteJob job
      else
        match DeleteJobPolicy (config s) with
        | DeleteJobPolicyNever => mret tt (* do nothing *)
        | DeleteJobPolicyAlways => deleteJob job
        | DeleteJobPolicyOnSuccess =>
            if isSuccessfulJob then deleteJob job else mret tt
        | DeleteJobPolicy_other _ => mret tt
        end
  end.

(** *** The job pipeline

    [runJob] declares [job] and [err] at the top and defers a cleanup that
    reads both when the function leaves.  Its results are unnamed, so a
    [return] does not write to [err]: the cleanup sees what the last
    assignment to the function-level [err] left there.  Each way out of the
    body therefore yields the function-level [err], the [job] built so
    far, and the values returned. *)

Definition runJob_exit (err : option error) (job : Job)
    (returned : Job * option error)
  : M W (option error * Job * (Job * option error)) :=
  mret (err, job, returned).

(** From the generation of the families configuration to the end. *)
Definition runJob_launch (data : scanData) (job : Job) (launchSnapshot : Snapshot)
  : M W (option error * Job * (Job * option error)) :=
  match familiesYaml s with
  | Err err =>
      runJob_exit (Some err) job
        (Job_zero, Some (wrapError "failed to generate scanner configuration yaml: " err))
  | OK familiesConfiguration =>
  let scanningJobConfig :=
    {| Cfg_ScannerImage := ScannerImage (config s);
       Cfg_ScannerCLIConfig := familiesConfiguration;
       Cfg_VMClarityAddress := ScannerBackendAddress (config s);
       Cfg_ScanResultID := scanResultID data;
       Cfg_KeyPairName := ScannerKeyPairName (config s);
       Cfg_ScannerInstanceCreationConfig := scannerInstanceCreationConfig s |} in
  r ← call (RunScanningJob providerClient (Snapshot_GetRegion launchSnapshot)
              (Snapshot_GetID launchSnapshot) scanningJobConfig);
  match r with
  | Err err =>
      runJob_exit (Some err) job
        (Job_zero, Some (Errorf "failed to launch a new instance: %v" [error_Error err]))
  | OK launchInstance =>
  let job := Job_set_Instance job launchInstance in
  (* create a volume from the snapshot. *)
  r ← call (Snapshot_CreateVolume providerClient launchSnapshot
              (Instance_GetAvailabilityZone launchInstance));
  match r with
  | Err err =>
      runJob_exit (Some err) job
        (Job_zero, Some (Errorf "failed to create volume: %v" [error_Error err]))
  | OK newVolume =>
  let err : option error := None in
  let job := Job_set_Volume job newVolume in
  (* wait for instance to be in a running state.
     [if err := ...; err != nil] declares an err of its own. *)
  err' ← call (Instance_WaitForReady providerClient launchInstance);
  match err' with
  | Some err' =>
      runJob_exit err job
        (Job_zero, Some (Errorf "failed to wait for instance ready: %v" [error_Error err']))
  | None =>
  (* wait for volume to be available; again an err of its own. *)
  err' ← call (Volume_WaitForReady providerClient newVolume);
  match err' with
  | Some err' =>
      runJob_exit err job
        (Job_zero, Some (Errorf "failed to wait for volume to be ready: %v" [error_Error err']))
  | None =>
  (* attach the volume to the scanning job instance. *)
  err ← call (Instance_AttachVolume providerClient launchInstance newVolume
                (DeviceName (config s)));
  match err with
  | Some e =>
      runJob_exit err job
        (Job_zero, Some (Errorf "failed to attach volume: %v" [error_Error e]))
  | None =>
  (* wait for the volume to be attached; an err of its own. *)
  err' ← call (Volume_WaitForAttached providerClient newVolume);
  match err' with
  | Some err' =>
      runJob_exit err job
        (Job_zero, Some (Errorf "failed to wait for volume attached: %v" [error_Error err']))
  | None =>
  (* mark attached state in the backend. *)
  let status :=
    {| Status_Exploits := None;
       Status_General := Some {| TargetScanState_Errors := None;
                                 TargetScanState_State := Some ATTACHED |};
       Status_Malware := None; Status_Misconfigurations := None;
       Status_Rootkits := None; Status_Sbom := None; Status_Secrets := None;
       Status_Vulnerabilities := None |} in
  err ← call (PatchTargetScanStatus backendClient (scanResultID data) status);
  emit (ActPatchTargetScanStatus (scanResultID data) status err);;
  match err with
  | Some e =>
      runJob_exit err job
        (Job_zero, Some (Errorf "failed to patch target scan status: %v" [error_Error e]))
  | None => runJob_exit err job (job, None)
  end end end end end end end end.

Definition runJob_body (data : scanData)
  : M W (option error * Job * (Job * option error)) :=
  let job := Job_zero in
  let instanceToScan := Target_Instance (targetInstance data) in
  log LogInfo "Running scanner job for instance id %v" [Instance_GetID instanceToScan];;
  r ← call (Instance_GetRootVolume providerClient instanceToScan);
  match r with
  | Err err =>
      runJob_exit (Some err) job
        (Job_zero, Some (Errorf "failed to get root volume of an instance %v: %v"
                           [Instance_GetID instanceToScan; error_Error err]))
  | OK volume =>
  r ← call (Volume_TakeSnapshot providerClient volume);
  match r with
  | Err err =>
      runJob_exit (Some err) job
        (Job_zero, Some (Errorf "failed to take snapshot of a volume: %v" [error_Error err]))
  | OK snapshot =>
  let job := Job_set_SrcSnapshot job snapshot in
  let launchSnapshot := snapshot in
  err ← call (Snapshot_WaitForReady providerClient snapshot SnapshotCreationTimeout);
  match err with
  | Some e =>
      runJob_exit err job
        (Job_zero, Some (Errorf "failed to wait for snapshot to be ready. snapshotID=%v: %v"
                           [Snapshot_GetID snapshot; error_Error e]))
  | None =>
  (* we need the snapshot to be in the scanner region in order to create
     a volume and attach it. *)
  if negb (String.eqb (Region (config s)) (Snapshot_GetRegion snapshot)) then
    r ← call (Snapshot_Copy providerClient snapshot (Region (config s)));
    match r with
    | Err err =>
        runJob_exit (Some err) job
          (Job_zero, Some (Errorf "failed to copy snapshot. snapshotID=%v: %v"
                             [Snapshot_GetID snapshot; error_Error err]))
    | OK cpySnapshot =>
    let job := Job_set_DstSnapshot job cpySnapshot in
    let launchSnapshot := cpySnapshot in
    err ← call (Snapshot_WaitForReady providerClient cpySnapshot SnapshotCopyTimeout);
    match err with
    | Some e =>
        runJob_exit err job
          (Job_zero, Some (Errorf "failed to wait for snapshot to be ready. snapshotID=%v: %v"
                             [Snapshot_GetID cpySnapshot; error_Error e]))
    | None => runJob_launch data job launchSnapshot
    end end
  else runJob_launch data job launchSnapshot
  end end end.

Definition runJob (data : scanData) : M W (Job * option error) :=
  '(err, job, returned) ← runJob_body data;
  (* cleanup in case of an error *)
  match err with
  | Some _ => deleteJob job
  | None => mret tt
  end;;
  mret returned.

Definition handleScanData (wait : list WaitSelect) (data : scanData)
  : M W (option Job * option error * scanData) :=
  r ← call (GetScanResultStatus backendClient (scanResultID data));
  match r with
  | Err err =>
      mret (None,
            Some (Errorf "failed to fetch status of ScanResult with id %s: %v"
                    [scanResultID data; error_Error err]),
            data)
  | OK scanResultStatus =>
  let '(state, ok) := GetGeneralState scanResultStatus in
  if negb ok then
    mret (None,
          Some (Errorf "cannot determine state of ScanResult with id %s"
                  [scanResultID data]),
          data)
  else
    let waiting (job : Job) : M W (option Job * option error * scanData) :=
      data ← waitForResult wait data;
      if timeout data then
        mret (None,
              Some (Errorf "scan job for target %s timed out: %v"
                      [TargetID (targetInstance data); "<nil>"]),
              data)
      else mret (Some job, None, data) in
    match state with
    | INIT =>
        '(job, err) ← runJob data;
        match err with
        | Some err =>
            mret (None,
                  Some (Errorf "failed to run scan job for target %s: %v"
                          [TargetID (targetInstance data); error_Error err]),
                  scanData_set data false true (timeout data))
        | None => (* fallthrough *) waiting job
        end
    | ATTACHED | INPROGRESS | ABORTED => waiting Job_zero
    | DONE | NOTSCANNED => mret (Some Job_zero, None, data)
    | TargetScanStateState_zero => mret (Some Job_zero, None, data)
    end
  end.

(** One turn of the worker on an item received from the queue. *)
Definition worker_item (data : scanData) (wait : list WaitSelect)
    (send : SendSelect) : M W scanData :=
  '(job, err, data) ← handleScanData wait data;
  match err with
  | Some err =>
      log LogError "%v" [error_Error err];;
      err ← call (SetTargetScanStatusCompletionError runtime (scanResultID data)
                    (error_Error err));
      match err with
      | Some err =>
          log LogError "Couldn't set completion error for target scan status. targetID=%v, scanID=%v: %v"
            [TargetID (targetInstance data); scanID s; error_Error err]
      | None => mret tt
      end
  | None => mret tt
  end;;
  deleteJobIfNeeded job (success data) (completed data);;
  match send with
  | SentDone => emit (ActSendDone (TargetID (targetInstance data)))
  | SendKill =>
      log LogInfo "Instance scan was canceled. targetID=%v"
        [TargetID (targetInstance data)]
  end;;
  mret data.

(** [worker] returns, at the kill signal, the items it handled as it left
    them. *)
Fixpoint worker (workNumber : Z) (events : list WorkerSelect)
  : M W (list scanData) :=
  match events with
  | [] => blocked
  | QueueRecv data wait send :: events =>
      data ← worker_item data wait send;
      rest ← worker workNumber events;
      mret (data :: rest)
  | WorkerKill :: _ =>
      log LogDebug "worker #%v halted" [pretty workNumber];;
      mret []
  end.

(** *** The scan controller

    The completion loop of [jobBatchManagement].  The workers and the
    producer of the queue run beside it; of them the loop sees the target
    ids arriving on [done] and the flags they wrote to the shared
    [scanData] before sending. *)

Record controller : Type := {
  targetIDToScanData : gmap string scanData;
  anyJobsFailed : bool;
  numberOfCompletedJobs : Z;
  scanComplete : bool
}.

Definition Scan_set_EndTime (scan : Scan) (t : Time) : Scan :=
  {| Scan_EndTime := Some t;
     Scan_State := Scan_State scan;
     Scan_StateMessage := Scan_StateMessage scan;
     Scan_StateReason := Scan_StateReason scan;
     Scan_Summary := Scan_Summary scan |}.

Definition Scan_set_State (scan : Scan) (state : ScanState) (message : string)
    (reason : ScanStateReason) : Scan :=
  {| Scan_EndTime := Scan_EndTime scan;
     Scan_State := Some state;
     Scan_StateMessage := Some message;
     Scan_StateReason := Some reason;
     Scan_Summary := Scan_Summary scan |}.

(** The body of [if numberOfCompletedJobs == len(targetIDToScanData)]. *)
Definition completeScan (scan : Scan) (anyJobsFailed : bool) : M W Scan :=
  now ← call (time_Now runtime);
  let scan := Scan_set_EndTime scan now in
  let '(scanState, ok) := Scan_GetState scan in
  if negb ok then
    mret (Scan_set_State scan ScanStateFailed "Failed to retrieve scan state"
            ScanStateReasonUnexpected)
  else
    match scanState with
    | ScanStateAborted =>
        log LogWarning "Scan is aborted" [];;
        mret (Scan_set_State scan ScanStateFailed "User initiated"
                ScanStateReasonAborted)
    | _ =>
        if anyJobsFailed then
          log LogWarning "Scan is failed" [];;
          mret (Scan_set_State scan ScanStateFailed "One or more ScanJobs failed"
                  ScanStateReasonOneOrMoreTargetFailedToScan)
        else
          log LogInfo "Scan is completed" [];;
          mret (Scan_set_State scan ScanStateDone "All scan jobs completed"
                  ScanStateReasonSuccess)
    end.

(** regardless of success or failure we need to patch the scan status *)
Definition patchScan (scan : Scan) : M W unit :=
  err ← call (PatchScan backendClient (scanID s) scan);
  emit (ActPatchScan (scanID s) scan err);;
  match err with
  | Some err =>
      log LogError "failed to patch the scan ID=%s: %v" [scanID s; error_Error err]
  | None => mret tt
  end.

(** [case targetID := <-done] and the patch after the select. *)
Definition jobBatchManagement_done (targetID : string) (c : controller)
  : M W controller :=
  let numberOfCompletedJobs := int_add (numberOfCompletedJobs c) 1 in
  data ← deref (targetIDToScanData c !! targetID);
  let anyJobsFailed := if negb (success data) then true else anyJobsFailed c in
  '(scan, err) ← createScanWithUpdatedSummary data;
  scan ← match err with
         | Some err =>
             log LogError "Failed to create a scan with updated summary: %v"
               [error_Error err];;
             mret Scan_empty
         | None => deref scan
         end;
  '(scan, scanComplete) ←
    (if (numberOfCompletedJobs =? Z.of_nat (size (targetIDToScanData c)))%Z then
       scan ← completeScan scan anyJobsFailed; mret (scan, true)
     else mret (scan, scanComplete c));
  patchScan scan;;
  mret {| targetIDToScanData := targetIDToScanData c;
          anyJobsFailed := anyJobsFailed;
          numberOfCompletedJobs := numberOfCompletedJobs;
          scanComplete := scanComplete |}.

(** [case <-s.killSignal] and the patch after the select. *)
Definition jobBatchManagement_kill (c : controller) : M W controller :=
  t ← call (time_Now runtime);
  let scan :=
    {| Scan_EndTime := Some t;
       Scan_State := Some ScanStateFailed;
       Scan_StateMessage := Some "Scan was canceled or timed out";
       Scan_StateReason := Some ScanStateReasonTimedOut;
       Scan_Summary := None |} in
  log LogDebug "Scan process was canceled - stop waiting for finished jobs" [];;
  patchScan scan;;
  mret {| targetIDToScanData := targetIDToScanData c;
          anyJobsFailed := anyJobsFailed c;
          numberOfCompletedJobs := numberOfCompletedJobs c;
          scanComplete := true |}.

(** A worker holds a pointer into the map and writes the three flags. *)
Definition workerWrite (targetID : string) (su co ti : bool) (c : controller)
  : controller :=
  {| targetIDToScanData :=
       alter (fun data => scanData_set data su co ti) targetID
         (targetIDToScanData c);
     anyJobsFailed := anyJobsFailed c;
     numberOfCompletedJobs := numberOfCompletedJobs c;
     scanComplete := scanComplete c |}.

(** [for !scanComplete { select ... }] *)
Fixpoint jobBatchManagement_loop (events : list ControllerEvent) (c : controller)
  : M W controller :=
  if scanComplete c then mret c
  else
    match events with
    | [] => blocked
    | WorkerWrite targetID su co ti :: events =>
        jobBatchManagement_loop events (workerWrite targetID su co ti c)
    | DoneRecv targetID :: events =>
        c ← jobBatchManagement_done targetID c;
        jobBatchManagement_loop events c
    | KillRecv :: events =>
        c ← jobBatchManagement_kill c;
        jobBatchManagement_loop events c
    end.

Definition jobBatchManagement (targets : gmap string scanData)
    (events : list ControllerEvent) : M W controller :=
  jobBatchManagement_loop events
    {| targetIDToScanData := targets;
       anyJobsFailed := false;
       numberOfCompletedJobs := 0;
       scanComplete := false |}.

(** *** Initialisation of the scan results *)

Definition stateToPointer (state : TargetScanStateState)
  : option TargetScanStateState := Some state.

Definition getInitScanStatusVulnerabilitiesStateFromEnabled
    (config : option FamilyConfig) : option TargetScanStateState :=
  match config with
  | None => stateToPointer NOTSCANNED
  | Some config =>
      match Enabled config with
      | None => stateToPointer NOTSCANNED
      | Some enabled =>
          if negb enabled then stateToPointer NOTSCANNED
          else stateToPointer INIT
      end
  end.

Definition getInitScanStatusSecretsStateFromEnabled
    (config : option FamilyConfig) : option TargetScanStateState :=
  match config with
  | None => stateToPointer NOTSCANNED
  | Some config =>
      match Enabled config with
      | None => stateToPointer NOTSCANNED
      | Some enabled =>
          if negb enabled then stateToPointer NOTSCANNED
          else stateToPointer INIT
      end
  end.

Definition getInitScanStatusSbomStateFromEnabled
    (config : option FamilyConfig) : option TargetScanStateState :=
  match config with
  | None => stateToPointer NOTSCANNED
  | Some config =>
      match Enabled config with
      | None => stateToPointer NOTSCANNED
      | Some enabled =>
          if negb enabled then stateToPointer NOTSCANNED
          else stateToPointer INIT
      end
  end.

Definition getInitScanStatusRootkitsStateFromEnabled
    (config : option FamilyConfig) : option TargetScanStateState :=
  match config with
  | None => stateToPointer NOTSCANNED
  | Some config =>
      match Enabled config with
      | None => stateToPointer NOTSCANNED
      | Some enabled =>
          if negb enabled then stateToPointer NOTSCANNED
          else stateToPointer INIT
      end
  end.

Definition getInitScanStatusMisconfigurationsStateFromEnabled
    (config : option FamilyConfig) : option TargetScanStateState :=
  match config with
  | None => stateToPointer NOTSCANNED
  | Some config =>
      match Enabled config with
      | None => stateToPointer NOTSCANNED
      | Some enabled =>
          if negb enabled then stateToPointer NOTSCANNED
          else stateToPointer INIT
      end
  end.

Definition getInitScanStatusMalwareStateFromEnabled
    (config : option FamilyConfig) : option TargetScanStateState :=
  match config with
  | None => stateToPointer NOTSCANNED
  | Some config =>
      match Enabled config with
      | None => stateToPointer NOTSCANNED
      | Some enabled =>
          if negb enabled then stateToPointer NOTSCANNED
          else stateToPointer INIT
      end
  end.

Definition getInitScanStatusExploitsStateFromEnabled
    (config : option FamilyConfig) : option TargetScanStateState :=
  match config with
  | None => stateToPointer NOTSCANNED
  | Some config =>
      match Enabled config with
      | None => stateToPointer NOTSCANNED
      | Some enabled =>
          if negb enabled then stateToPointer NOTSCANNED
          else stateToPointer INIT
      end
  end.

Definition createInitScanResultSummary : option ScanFindingsSummary :=
  Some {| Findings_TotalExploits := Some 0;
          Findings_TotalMalware := Some 0;
          Findings_TotalMisconfigurations := Some 0;
          Findings_TotalPackages := Some 0;
          Findings_TotalRootkits := Some 0;
          Findings_TotalSecrets := Some 0;
          Findings_TotalVulnerabilities := Some
            {| TotalCriticalVulnerabilities := Some 0;
               TotalHighVulnerabilities := Some 0;
               TotalMediumVulnerabilities := Some 0;
               TotalLowVulnerabilities := Some 0;
               TotalNegligibleVulnerabilities := Some 0 |} |}.

Definition initState (state : option TargetScanStateState)
  : option TargetScanState :=
  Some {| TargetScanState_Errors := None; TargetScanState_State := state |}.

(** The [models.TargetScanResult] that [createInitTargetScanStatus] builds
    and posts. *)
Definition initScanResult (scanID targetID : string) : TargetScanResult :=
  let families := scanFamiliesConfig s in
  let initScanStatus :=
    {| Status_Exploits :=
         initState (getInitScanStatusExploitsStateFromEnabled (Families_Exploits families));
       Status_General := initState (stateToPointer INIT);
       Status_Malware :=
         initState (getInitScanStatusMalwareStateFromEnabled (Families_Malware families));
       Status_Misconfigurations :=
         initState (getInitScanStatusMisconfigurationsStateFromEnabled
                      (Families_Misconfigurations families));
       Status_Rootkits :=
         initState (getInitScanStatusRootkitsStateFromEnabled (Families_Rootkits families));
       Status_Sbom :=
         initState (getInitScanStatusSbomStateFromEnabled (Families_Sbom families));
       Status_Secrets :=
         initState (getInitScanStatusSecretsStateFromEnabled (Families_Secrets families));
       Status_Vulnerabilities :=
         initState (getInitScanStatusVulnerabilitiesStateFromEnabled
                      (Families_Vulnerabilities families)) |} in
  {| Result_Id := None;
     Result_Summary := createInitScanResultSummary;
     Result_Scan := Some scanID;
     Result_Status := Some initScanStatus;
     Result_Target := Some targetID |}.

Definition createInitTargetScanStatus (scanID targetID : string)
  : M W (string * option error) :=
  let scanResult := initScanResult scanID targetID in
  r ← call (PostScanResult backendClient scanResult);
  emit (ActPostScanResult scanResult r);;
  match r with
  | Err err =>
      match errors_As_conflict err with
      | Some ConflictingScanResult =>
          conflicting ← deref ConflictingScanResult;
          id ← deref (Result_Id conflicting);
          log LogInfo "Scan results already exist. scan result id=%v." [id];;
          mret (id, None)
      | None =>
          mret ("", Some (Errorf "failed to post scan result: %v" [error_Error err]))
      end
  | OK createdScanResult =>
      id ← deref (Result_Id createdScanResult);
      mret (id, None)
  end.

End scanner.

(** ** scanner.go: the configuration of the scanner CLI

    [generateFamiliesConfigurationYaml] translates the scan configuration
    of the user to the [families.Config] of the scanner CLI and marshals
    it.  The structs of the families packages are given with the fields
    that scanner.go sets; [Inputs], which it sets to nil, and the fields it
    never mentions stay at their zero value and are left out.  The job
    pipeline above reads the result of the function from the field
    [familiesYaml] of the scanner. *)

Definition TrivyTimeout : Z := 300.
Definition GrypeServerTimeout : Z := 2 * 60.

Record chkrootkitConfig_Config : Type := { Chkrootkit_BinaryPath : string }.
Record rootkitsCommon_ScannersConfig : Type := { Chkrootkit : chkrootkitConfig_Config }.
Record rootkits_Config : Type := {
  rootkits_Enabled : bool;
  rootkits_ScannersList : list string;
  rootkits_ScannersConfig : option rootkitsCommon_ScannersConfig
}.

Record gitleaksconfig_Config : Type := { Gitleaks_BinaryPath : string }.
Record secretsCommon_ScannersConfig : Type := { Gitleaks : gitleaksconfig_Config }.
Record secrets_Config : Type := {
  secrets_Enabled : bool;
  secrets_ScannersList : list string;
  secrets_ScannersConfig : option secretsCommon_ScannersConfig
}.

(** [kubeclarityConfig.Registry{}]: only its zero value occurs. *)
Inductive kubeclarity_Registry : Type := Registry_zero.

Record kubeclarity_AnalyzerTrivyConfig : Type := { AnalyzerTrivy_Timeout : Z }.
Record kubeclarity_Analyzer : Type := {
  OutputFormat : string;
  Analyzer_TrivyConfig : kubeclarity_AnalyzerTrivyConfig
}.

Inductive kubeclarity_Mode : Type := Mode_zero | ModeLocal | ModeRemote.
Inductive source_Scope : Type := Scope_zero | SquashedScope.

Record kubeclarity_LocalGrypeConfig : Type := {
  UpdateDB : bool;
  DBRootDir : string;
  ListingURL : string;
  Scope : source_Scope
}.

Record kubeclarity_RemoteGrypeConfig : Type := {
  Remote_GrypeServerAddress : string;
  Remote_GrypeServerTimeout : Z
}.

Definition LocalGrypeConfig_zero : kubeclarity_LocalGrypeConfig :=
  {| UpdateDB := false; DBRootDir := ""; ListingURL := ""; Scope := Scope_zero |}.

Definition RemoteGrypeConfig_zero : kubeclarity_RemoteGrypeConfig :=
  {| Remote_GrypeServerAddress := ""; Remote_GrypeServerTimeout := 0 |}.

Record kubeclarity_GrypeConfig : Type := {
  Mode : kubeclarity_Mode;
  Grype_LocalGrypeConfig : kubeclarity_LocalGrypeConfig;
  Grype_RemoteGrypeConfig : kubeclarity_RemoteGrypeConfig
}.

Record kubeclarity_ScannerTrivyConfig : Type := {
  ScannerTrivy_Timeout : Z;
  ScannerTrivy_ServerAddr : string
}.

Record kubeclarity_Scanner : Type := {
  Scanner_GrypeConfig : kubeclarity_GrypeConfig;
  Scanner_TrivyConfig : kubeclarity_ScannerTrivyConfig
}.

Record kubeclarity_Config : Type := {
  Kube_Registry : option kubeclarity_Registry;
  Kube_Analyzer : option kubeclarity_Analyzer;
  Kube_Scanner : option kubeclarity_Scanner
}.

Record familiesSbom_Config : Type := {
  sbom_Enabled : bool;
  sbom_AnalyzersList : list string;
  sbom_AnalyzersConfig : option kubeclarity_Config
}.

Record familiesVulnerabilities_Config : Type := {
  vulnerabilities_Enabled : bool;
  vulnerabilities_ScannersList : list string;
  vulnerabilities_InputFromSbom : bool;
  vulnerabilities_ScannersConfig : option kubeclarity_Config
}.

Record exploitdbConfig_Config : Type := { ExploitDB_BaseURL : string }.
Record exploitsCommon_ScannersConfig : Type := { ExploitDB : exploitdbConfig_Config }.
Record familiesExploits_Config : Type := {
  exploits_Enabled : bool;
  exploits_ScannersList : list string;
  exploits_InputFromVuln : bool;
  exploits_ScannersConfig : option exploitsCommon_ScannersConfig
}.

Record malwareconfig_Config : Type := {
  ClamScanBinaryPath : string;
  FreshclamBinaryPath : string;
  AlternativeFreshclamMirrorURL : string
}.
Record malwarecommon_ScannersConfig : Type := { Clam : malwareconfig_Config }.
Record malware_Config : Type := {
  malware_Enabled : bool;
  malware_ScannersList : list string;
  malware_ScannersConfig : option malwarecommon_ScannersConfig
}.

Record misconfigurationTypes_LynisConfig : Type := { Lynis_InstallPath : string }.
Record misconfigurationTypes_ScannersConfig : Type := {
  Lynis : misconfigurationTypes_LynisConfig
}.
Record misconfigurationTypes_Config : Type := {
  misconfiguration_Enabled : bool;
  misconfiguration_ScannersList : list string;
  misconfiguration_ScannersConfig : misconfigurationTypes_ScannersConfig
}.

Record families_Config : Type := {
  Config_SBOM : familiesSbom_Config;
  Config_Vulnerabilities : familiesVulnerabilities_Config;
  Config_Secrets : secrets_Config;
  Config_Exploits : familiesExploits_Config;
  Config_Malware : malware_Config;
  Config_Misconfiguration : misconfigurationTypes_Config;
  Config_Rootkits : rootkits_Config
}.

(** The fields of [s.config] that the translation reads. *)
Record ScannerToolsConfig : Type := {
  TrivyServerAddress : string;
  GrypeServerAddress : string;
  GitleaksBinaryPath : string;
  ExploitsDBAddress : string;
  ClamBinaryPath : string;
  Tools_FreshclamBinaryPath : string;
  Tools_AlternativeFreshclamMirrorURL : string;
  LynisInstallPath : string;
  ChkrootkitBinaryPath : string
}.

(** [config == nil || config.Enabled == nil || !*config.Enabled], the test
    that opens each of the seven translations. *)
Definition nil_or_disabled (config : option FamilyConfig) : bool :=
  match config with
  | None => true
  | Some config =>
      match Enabled config with
      | None => true
      | Some enabled => negb enabled
      end
  end.

Definition userRootkitsConfigToFamiliesRootkitsConfig
    (rootkitsConfig : option FamilyConfig) (chkRootkitBinaryPath : string)
  : rootkits_Config :=
  if nil_or_disabled rootkitsConfig then
    {| rootkits_Enabled := false; rootkits_ScannersList := [];
       rootkits_ScannersConfig := None |}
  else
    {| rootkits_Enabled := true;
       rootkits_ScannersList := ["chkrootkit"];
       rootkits_ScannersConfig :=
         Some {| Chkrootkit := {| Chkrootkit_BinaryPath := chkRootkitBinaryPath |} |} |}.

Definition userSecretsConfigToFamiliesSecretsConfig
    (secretsConfig : option FamilyConfig) (gitleaksBinaryPath : string)
  : secrets_Config :=
  if nil_or_disabled secretsConfig then
    {| secrets_Enabled := false; secrets_ScannersList := [];
       secrets_ScannersConfig := None |}
  else
    {| secrets_Enabled := true;
       secrets_ScannersList := ["gitleaks"];
       secrets_ScannersConfig :=
         Some {| Gitleaks := {| Gitleaks_BinaryPath := gitleaksBinaryPath |} |} |}.

Definition userSBOMConfigToFamiliesSbomConfig (sbomConfig : option FamilyConfig)
  : familiesSbom_Config :=
  if nil_or_disabled sbomConfig then
    {| sbom_Enabled := false; sbom_AnalyzersList := [];
       sbom_AnalyzersConfig := None |}
  else
    {| sbom_Enabled := true;
       sbom_AnalyzersList := ["syft"; "trivy"];
       sbom_AnalyzersConfig :=
         Some {| Kube_Registry := Some Registry_zero;
                 Kube_Analyzer :=
                   Some {| OutputFormat := "cyclonedx";
                           Analyzer_TrivyConfig :=
                             {| AnalyzerTrivy_Timeout := TrivyTimeout |} |};
                 Kube_Scanner := None |} |}.

Definition userMisconfigurationConfigToFamiliesMisconfigurationConfig
    (misconfigurationConfig : option FamilyConfig) (lynisInstallPath : string)
  : misconfigurationTypes_Config :=
  if nil_or_disabled misconfigurationConfig then
    {| misconfiguration_Enabled := false; misconfiguration_ScannersList := [];
       misconfiguration_ScannersConfig :=
         {| Lynis := {| Lynis_InstallPath := "" |} |} |}
  else
    {| misconfiguration_Enabled := true;
       misconfiguration_ScannersList := ["lynis"];
       misconfiguration_ScannersConfig :=
         {| Lynis := {| Lynis_InstallPath := lynisInstallPath |} |} |}.

Definition userVulnConfigToFamiliesVulnConfig
    (vulnerabilitiesConfig : option FamilyConfig)
    (trivyServerAddr grypeServerAddr : string)
  : familiesVulnerabilities_Config :=
  if nil_or_disabled vulnerabilitiesConfig then
    {| vulnerabilities_Enabled := false; vulnerabilities_ScannersList := [];
       vulnerabilities_InputFromSbom := false;
       vulnerabilities_ScannersConfig := None |}
  else
    let grypeConfig :=
      if negb (String.eqb grypeServerAddr "") then
        {| Mode := ModeRemote;
           Grype_LocalGrypeConfig := LocalGrypeConfig_zero;
           Grype_RemoteGrypeConfig :=
             {| Remote_GrypeServerAddress := grypeServerAddr;
                Remote_GrypeServerTimeout := GrypeServerTimeout |} |}
      else
        {| Mode := ModeLocal;
           Grype_LocalGrypeConfig :=
             {| UpdateDB := true;
                DBRootDir := "/tmp/";
                ListingURL :=
                  "https://toolbox-data.anchore.io/grype/databases/listing.json";
                Scope := SquashedScope |};
           Grype_RemoteGrypeConfig := RemoteGrypeConfig_zero |} in
    {| vulnerabilities_Enabled := true;
       vulnerabilities_ScannersList := ["grype"; "trivy"];
       vulnerabilities_InputFromSbom := false;
       vulnerabilities_ScannersConfig :=
         Some {| Kube_Registry := Some Registry_zero;
                 Kube_Analyzer := None;
                 Kube_Scanner :=
                   Some {| Scanner_GrypeConfig := grypeConfig;
                           Scanner_TrivyConfig :=
                             {| ScannerTrivy_Timeout := TrivyTimeout;
                                ScannerTrivy_ServerAddr := trivyServerAddr |} |} |} |}.

Definition userExploitsConfigToFamiliesExploitsConfig
    (exploitsConfig : option FamilyConfig) (baseURL : string)
  : familiesExploits_Config :=
  if nil_or_disabled exploitsConfig then
    {| exploits_Enabled := false; exploits_ScannersList := [];
       exploits_InputFromVuln := false; exploits_ScannersConfig := None |}
  else
    {| exploits_Enabled := true;
       exploits_ScannersList := ["exploitdb"];
       exploits_InputFromVuln := true;
       exploits_ScannersConfig :=
         Some {| ExploitDB := {| ExploitDB_BaseURL := baseURL |} |} |}.

(** The one translation that logs. *)
Definition userMalwareConfigToFamiliesMalwareConfig {W}
    (malwareConfig : option FamilyConfig)
    (clamBinaryPath freshclamBinaryPath alternativeFreshclamMirrorURL : string)
  : M W malware_Config :=
  if nil_or_disabled malwareConfig then
    mret {| malware_Enabled := false; malware_ScannersList := [];
            malware_ScannersConfig := None |}
  else
    log LogDebug "clam binary path: %s" [clamBinaryPath];;
    mret {| malware_Enabled := true;
            malware_ScannersList := ["clam"];
            malware_ScannersConfig :=
              Some {| Clam :=
                        {| ClamScanBinaryPath := clamBinaryPath;
                           FreshclamBinaryPath := freshclamBinaryPath;
                           AlternativeFreshclamMirrorURL :=
                             alternativeFreshclamMirrorURL |} |} |}.

(** [yaml.Marshal] is a parameter.  The fields of the struct literal are
    evaluated in the order they are written. *)
Definition generateFamiliesConfigurationYaml {W}
    (yaml_Marshal : families_Config -> res string)
    (s : Scanner) (tools : ScannerToolsConfig) : M W (res string) :=
  let families := scanFamiliesConfig s in
  let sbom := userSBOMConfigToFamiliesSbomConfig (Families_Sbom families) in
  let vulnerabilities :=
    userVulnConfigToFamiliesVulnConfig (Families_Vulnerabilities families)
      (TrivyServerAddress tools) (GrypeServerAddress tools) in
  let secrets :=
    userSecretsConfigToFamiliesSecretsConfig (Families_Secrets families)
      (GitleaksBinaryPath tools) in
  let exploits :=
    userExploitsConfigToFamiliesExploitsConfig (Families_Exploits families)
      (ExploitsDBAddress tools) in
  malware ← userMalwareConfigToFamiliesMalwareConfig (Families_Malware families)
              (ClamBinaryPath tools) (Tools_FreshclamBinaryPath tools)
              (Tools_AlternativeFreshclamMirrorURL tools);
  let misconfiguration :=
    userMisconfigurationConfigToFamiliesMisconfigurationConfig
      (Families_Misconfigurations families) (LynisInstallPath tools) in
  let rootkits :=
    userRootkitsConfigToFamiliesRootkitsConfig (Families_Rootkits families)
      (ChkrootkitBinaryPath tools) in
  let famConfig :=
    {| Config_SBOM := sbom;
       Config_Vulnerabilities := vulnerabilities;
       Config_Secrets := secrets;
       Config_Exploits := exploits;
       Config_Malware := malware;
       Config_Misconfiguration := misconfiguration;
       Config_Rootkits := rootkits |} in
  match yaml_Marshal famConfig with
  | Err err =>
      mret (Err (wrapError "failed to marshal families config to yaml: " err))
  | OK famConfigYaml => mret (OK famConfigYaml)
  end.

(** ** package server: the routes and the embedded specification

    The router is an interface; a registration is recorded as the method,
    the path and the method of the wrapper that serves it.  The decoded
    specification, [path.Clean] and the loader of the openapi3 package are
    parameters; the loader acts on a world of its own. *)

Inductive Method : Type :=
| CONNECT | DELETE | GET | HEAD | OPTIONS | PATCH | POST | PUT | TRACE.

Inductive WrapperMethod : Type :=
| GetScanConfigs | PostScanConfigs | DeleteScanConfigsScanConfigID
| GetScanConfigsScanConfigID | PatchScanConfigsScanConfigID
| PutScanConfigsScanConfigID
| GetScanResults | PostScanResults | GetScanResultsScanResultID
| PatchScanResultsScanResultID | PutScanResultsScanResultID
| GetScans | PostScans | DeleteScansScanID | GetScansScanID | PatchScansScanID
| PutScansScanID
| GetTargets | PostTargets | DeleteTargetsTargetID | GetTargetsTargetID
| PutTargetsTargetID.

#[global] Instance Method_eq_dec : EqDecision Method.
Proof. solve_decision. Defined.

#[global] Instance WrapperMethod_eq_dec : EqDecision WrapperMethod.
Proof. solve_decision. Defined.

Record Route : Type := {
  Route_Method : Method;
  Route_Path : string;
  Route_Handler : WrapperMethod
}.

Definition RegisterHandlersWithBaseURL (baseURL : string) : list Route :=
  [ {| Route_Method := GET; Route_Path := baseURL +:+ "/scanConfigs";
       Route_Handler := GetScanConfigs |};
    {| Route_Method := POST; Route_Path := baseURL +:+ "/scanConfigs";
       Route_Handler := PostScanConfigs |};
    {| Route_Method := DELETE; Route_Path := baseURL +:+ "/scanConfigs/:scanConfigID";
       Route_Handler := DeleteScanConfigsScanConfigID |};
    {| Route_Method := GET; Route_Path := baseURL +:+ "/scanConfigs/:scanConfigID";
       Route_Handler := GetScanConfigsScanConfigID |};
    {| Route_Method := PATCH; Route_Path := baseURL +:+ "/scanConfigs/:scanConfigID";
       Route_Handler := PatchScanConfigsScanConfigID |};
    {| Route_Method := PUT; Route_Path := baseURL +:+ "/scanConfigs/:scanConfigID";
       Route_Handler := PutScanConfigsScanConfigID |};
    {| Route_Method := GET; Route_Path := baseURL +:+ "/scanResults";
       Route_Handler := GetScanResults |};
    {| Route_Method := POST; Route_Path := baseURL +:+ "/scanResults";
       Route_Handler := PostScanResults |};
    {| Route_Method := GET; Route_Path := baseURL +:+ "/scanResults/:scanResultID";
       Route_Handler := GetScanResultsScanResultID |};
    {| Route_Method := PATCH; Route_Path := baseURL +:+ "/scanResults/:scanResultID";
       Route_Handler := PatchScanResultsScanResultID |};
    {| Route_Method := PUT; Route_Path := baseURL +:+ "/scanResults/:scanResultID";
       Route_Handler := PutScanResultsScanResultID |};
    {| Route_Method := GET; Route_Path := baseURL +:+ "/scans";
       Route_Handler := GetScans |};
    {| Route_Method := POST; Route_Path := baseURL +:+ "/scans";
       Route_Handler := PostScans |};
    {| Route_Method := DELETE; Route_Path := baseURL +:+ "/scans/:scanID";
       Route_Handler := DeleteScansScanID |};
    {| Route_Method := GET; Route_Path := baseURL +:+ "/scans/:scanID";
       Route_Handler := GetScansScanID |};
    {| Route_Method := PATCH; Route_Path := baseURL +:+ "/scans/:scanID";
       Route_Handler := PatchScansScanID |};
    {| Route_Method := PUT; Route_Path := baseURL +:+ "/scans/:scanID";
       Route_Handler := PutScansScanID |};
    {| Route_Method := GET; Route_Path := baseURL +:+ "/targets";
       Route_Handler := GetTargets |};
    {| Route_Method := POST; Route_Path := baseURL +:+ "/targets";
       Route_Handler := PostTargets |};
    {| Route_Method := DELETE; Route_Path := baseURL +:+ "/targets/:targetID";
       Route_Handler := DeleteTargetsTargetID |};
    {| Route_Method := GET; Route_Path := baseURL +:+ "/targets/:targetID";
       Route_Handler := GetTargetsTargetID |};
    {| Route_Method := PUT; Route_Path := baseURL +:+ "/targets/:targetID";
       Route_Handler := PutTargetsTargetID |} ].

Definition RegisterHandlers : list Route := RegisterHandlersWithBaseURL "".

(** [openapi3.Loader], with the two fields that [GetSwagger] sets.  The
    resolver is given the URL as text. *)
Record Loader : Type := {
  IsExternalRefsAllowed : bool;
  ReadFromURIFunc : option (string -> res (list Byte.byte))
}.

Section swagger.
Context {T W : Type}.
(** [rawSpec()]: the decoded specification or the error of the decoding,
    computed once. *)
Variable rawSpec : res (list Byte.byte).
Variable path_Clean : string -> string.
(** [openapi3.NewLoader()] and [loader.LoadFromData], which may read from
    the outside world [W]. *)
Variable NewLoader : Loader.
Variable LoadFromData :
  Loader -> list Byte.byte -> W -> (option T * option error) * W.

Definition PathToRawSpec (pathToFile : string) : gmap string (res (list Byte.byte)) :=
  let res := ∅ in
  if (0 <? String.length pathToFile)%nat then <[pathToFile := rawSpec]> res
  else res.

(** The function literal that [GetSwagger] assigns to
    [loader.ReadFromURIFunc]; it closes over [resolvePath]. *)
Definition GetSwagger_func1 (resolvePath : gmap string (res (list Byte.byte)))
    (url : string) : res (list Byte.byte) :=
  let pathToFile := url in
  let pathToFile := path_Clean pathToFile in
  match resolvePath !! pathToFile with
  | None => Err (Errorf "path not found: %s" [pathToFile])
  | Some getSpec => getSpec
  end.

(** The results are named: a bare [return] gives back what [swagger] and
    [err] hold. *)
Definition GetSwagger : M W (option T * option error) :=
  let resolvePath := PathToRawSpec "" in
  let loader := NewLoader in
  let loader :=
    {| IsExternalRefsAllowed := true;
       ReadFromURIFunc := ReadFromURIFunc loader |} in
  let loader :=
    {| IsExternalRefsAllowed := IsExternalRefsAllowed loader;
       ReadFromURIFunc := Some (GetSwagger_func1 resolvePath) |} in
  match rawSpec with
  | Err err => mret (None, Some err)
  | OK specData => call (LoadFromData loader specData)
  end.

End swagger.

(** A loader that meets one external reference, to [common.yaml], and
    gives back the error of the resolver. *)
Definition sample_LoadFromData (loader : Loader) (specData : list Byte.byte)
    (reads : nat) : (option unit * option error) * nat :=
  match ReadFromURIFunc loader with
  | Some resolve =>
      match resolve "common.yaml" with
      | Err e => ((None, Some e), S reads)
      | OK _ => ((Some tt, None), S reads)
      end
  | None => ((None, Some (errorString "no resolver")), reads)
  end.

(** ** A store and a cloud to run the scanner against

    Modelled from the spec: the backend store and the provider are outside
    the sources.  The store keeps one scan and the scan results; PATCH is
    last-writer-wins on the fields supplied; creating a scan result for a
    (scan, target) pair that has one answers with a conflict that carries
    the existing result.  Every call first consumes one entry of a script
    of faults and fails when the entry is [true]; the cloud otherwise
    hands out resources named after what they were made from. *)

Record Sim : Type := {
  sim_scan : Scan;
  sim_results : list TargetScanResult;
  sim_faults : list bool;
  sim_now : Time;
  sim_region : string
}.

Definition sim_unavailable : error := errorString "unavailable".
Definition sim_not_found : error := errorString "not found".

Definition sim_fault (w : Sim) : bool * Sim :=
  match sim_faults w with
  | [] => (false, w)
  | f :: faults =>
      (f, {| sim_scan := sim_scan w; sim_results := sim_results w;
             sim_faults := faults; sim_now := sim_now w;
             sim_region := sim_region w |})
  end.

Definition sim_set_scan (w : Sim) (scan : Scan) : Sim :=
  {| sim_scan := scan; sim_results := sim_results w;
     sim_faults := sim_faults w; sim_now := sim_now w;
     sim_region := sim_region w |}.

Definition sim_set_results (w : Sim) (results : list TargetScanResult) : Sim :=
  {| sim_scan := sim_scan w; sim_results := results;
     sim_faults := sim_faults w; sim_now := sim_now w;
     sim_region := sim_region w |}.

(** A read: fails on a fault, else answers from the store. *)
Definition sim_read {A} (answer : Sim -> res A) (w : Sim) : res A * Sim :=
  let '(f, w) := sim_fault w in
  if f then (Err sim_unavailable, w) else (answer w, w).

(** A command without a result. *)
Definition sim_do (update : Sim -> Sim) (w : Sim) : option error * Sim :=
  let '(f, w) := sim_fault w in
  if f then (Some sim_unavailable, w) else (None, update w).

Definition patch_field {A} (supplied stored : option A) : option A :=
  match supplied with
  | Some _ => supplied
  | None => stored
  end.

Definition patch_scan (supplied stored : Scan) : Scan :=
  {| Scan_EndTime := patch_field (Scan_EndTime supplied) (Scan_EndTime stored);
     Scan_State := patch_field (Scan_State supplied) (Scan_State stored);
     Scan_StateMessage :=
       patch_field (Scan_StateMessage supplied) (Scan_StateMessage stored);
     Scan_StateReason :=
       patch_field (Scan_StateReason supplied) (Scan_StateReason stored);
     Scan_Summary := patch_field (Scan_Summary supplied) (Scan_Summary stored) |}.

Definition patch_status (supplied stored : TargetScanStatus) : TargetScanStatus :=
  {| Status_Exploits := patch_field (Status_Exploits supplied) (Status_Exploits stored);
     Status_General := patch_field (Status_General supplied) (Status_General stored);
     Status_Malware := patch_field (Status_Malware supplied) (Status_Malware stored);
     Status_Misconfigurations :=
       patch_field (Status_Misconfigurations supplied) (Status_Misconfigurations stored);
     Status_Rootkits := patch_field (Status_Rootkits supplied) (Status_Rootkits stored);
     Status_Sbom := patch_field (Status_Sbom supplied) (Status_Sbom stored);
     Status_Secrets := patch_field (Status_Secrets supplied) (Status_Secrets stored);
     Status_Vulnerabilities :=
       patch_field (Status_Vulnerabilities supplied) (Status_Vulnerabilities stored) |}.

Definition has_id (id : string) (r : TargetScanResult) : bool :=
  bool_decide (Result_Id r = Some id).

Definition same_pair (a b : TargetScanResult) : bool :=
  bool_decide (Result_Scan a = Result_Scan b)
  && bool_decide (Result_Target a = Result_Target b).

Definition sim_find_result (id : string) (w : Sim) : option TargetScanResult :=
  List.find (has_id id) (sim_results w).

Definition sim_patch_result_status (id : string) (status : TargetScanStatus)
    (r : TargetScanResult) : TargetScanResult :=
  if has_id id r then
    {| Result_Id := Result_Id r;
       Result_Summary := Result_Summary r;
       Result_Scan := Result_Scan r;
       Result_Status :=
         match Result_Status r with
         | Some stored => Some (patch_status status stored)
         | None => Some status
         end;
       Result_Target := Result_Target r |}
  else r.

Definition sim_new_id (sr : TargetScanResult) : string :=
  default "" (Result_Scan sr) +:+ "/" +:+ default "" (Result_Target sr).

Definition sim_PostScanResult (sr : TargetScanResult) (w : Sim)
  : res TargetScanResult * Sim :=
  let '(f, w) := sim_fault w in
  if f then (Err sim_unavailable, w)
  else
    match List.find (same_pair sr) (sim_results w) with
    | Some existing => (Err (ScanResultConflictError (Some existing)), w)
    | None =>
        let created :=
          {| Result_Id := Some (sim_new_id sr);
             Result_Summary := Result_Summary sr;
             Result_Scan := Result_Scan sr;
             Result_Status := Result_Status sr;
             Result_Target := Result_Target sr |} in
        (OK created, sim_set_results w (sim_results w ++ [created]))
    end.

Definition simBackend : BackendClient Sim :=
  {| GetScan := fun _ => sim_read (fun w => OK (sim_scan w));
     GetScanResultSummary := fun id =>
       sim_read (fun w =>
         match sim_find_result id w ≫= Result_Summary with
         | Some summary => OK summary
         | None => Err sim_not_found
         end);
     GetScanResultStatus := fun id =>
       sim_read (fun w =>
         match sim_find_result id w ≫= Result_Status with
         | Some status => OK status
         | None => Err sim_not_found
         end);
     PatchScan := fun _ scan =>
       sim_do (fun w => sim_set_scan w (patch_scan scan (sim_scan w)));
     PatchTargetScanStatus := fun id status =>
       sim_do (fun w =>
         sim_set_results w
           (List.map (sim_patch_result_status id status) (sim_results w)));
     PostScanResult := sim_PostScanResult |}.

Definition simProvider : ProviderClient Sim :=
  {| RunScanningJob := fun region snapshotID _ =>
       sim_read (fun _ =>
         OK {| Instance_GetID := "scanner-" +:+ snapshotID;
               Instance_GetAvailabilityZone := region +:+ "a" |});
     Instance_GetRootVolume := fun i =>
       sim_read (fun _ => OK {| Volume_GetID := Instance_GetID i +:+ "-root" |});
     Instance_WaitForReady := fun _ => sim_do id;
     Instance_AttachVolume := fun _ _ _ => sim_do id;
     Instance_Delete := fun _ => sim_do id;
     Volume_TakeSnapshot := fun v =>
       sim_read (fun w =>
         OK {| Snapshot_GetID := "snap-" +:+ Volume_GetID v;
               Snapshot_GetRegion := sim_region w |});
     Volume_WaitForReady := fun _ => sim_do id;
     Volume_WaitForAttached := fun _ => sim_do id;
     Volume_Delete := fun _ => sim_do id;
     Snapshot_WaitForReady := fun _ _ => sim_do id;
     Snapshot_Copy := fun sn region =>
       sim_read (fun _ =>
         OK {| Snapshot_GetID := Snapshot_GetID sn +:+ "-copy";
               Snapshot_GetRegion := region |});
     Snapshot_CreateVolume := fun sn _ =>
       sim_read (fun _ => OK {| Volume_GetID := "vol-" +:+ Snapshot_GetID sn |});
     Snapshot_Delete := fun _ => sim_do id |}.

Definition simRuntime : Runtime Sim :=
  {| time_Now := fun w =>
       (sim_now w,
        {| sim_scan := sim_scan w; sim_results := sim_results w;
           sim_faults := sim_faults w; sim_now := sim_now w + 1;
           sim_region := sim_region w |});
     SetTargetScanStatusCompletionError := fun _ _ => sim_do id |}.

(** ** Reading traces and records *)

(** The resources whose deletion was attempted, in order. *)
Fixpoint deletions (tr : list Action) : list Resource :=
  match tr with
  | [] => []
  | ActDelete r _ :: tr => r :: deletions tr
  | _ :: tr => deletions tr
  end.

(** The scans sent with PATCH, in order. *)
Fixpoint patches (tr : list Action) : list Scan :=
  match tr with
  | [] => []
  | ActPatchScan _ scan _ :: tr => scan :: patches tr
  | _ :: tr => patches tr
  end.

(** Every delete that failed is followed at once by an error line that
    names the resource and the failure. *)
Fixpoint failures_logged (tr : list Action) : Prop :=
  match tr with
  | [] => True
  | ActDelete r (Some e) :: ActLog LogError _ args :: tr =>
      args = [Resource_GetID r; error_Error e] /\ failures_logged tr
  | ActDelete r (Some e) :: _ => False
  | _ :: tr => failures_logged tr
  end.

(** What there is to delete on a Job, in the order of the specification:
    instance, source snapshot, destination snapshot, volume. *)
Definition Job_resources (job : Job) : list Resource :=
  option_list (ResInstance <$> Job_Instance job)
  ++ option_list (ResSnapshot <$> Job_SrcSnapshot job)
  ++ option_list (ResSnapshot <$> Job_DstSnapshot job)
  ++ option_list (ResVolume <$> Job_Volume job).

(** [r.Delete(ctx)] as the provider carries it out. *)
Definition provider_Delete {W} (pc : ProviderClient W) (r : Resource)
  : W -> option error * W :=
  match r with
  | ResInstance i => Instance_Delete pc i
  | ResSnapshot sn => Snapshot_Delete pc sn
  | ResVolume v => Volume_Delete pc v
  end.

(** In the words of the specification: a best-effort deletion of the
    resources in order.  The provider is asked to delete each one in the
    world the deletion before it has left, whatever that one answered;
    the result is the answer to each and the world after the last. *)
Fixpoint delete_each {W} (pc : ProviderClient W) (rs : list Resource) (w : W)
  : list (Resource * option error) * W :=
  match rs with
  | [] => ([], w)
  | r :: rs =>
      let '(e, w1) := provider_Delete pc r w in
      let '(answers, w2) := delete_each pc rs w1 in
      ((r, e) :: answers, w2)
  end.

(** The deletions recorded in a trace with the answer recorded for each. *)
Fixpoint deletion_answers (tr : list Action) : list (Resource * option error) :=
  match tr with
  | [] => []
  | ActDelete r e :: tr => (r, e) :: deletion_answers tr
  | _ :: tr => deletion_answers tr
  end.

Inductive Family : Type :=
| SBOM | Vulnerabilities | Secrets | Exploits | Malware | Misconfigurations | Rootkits.


Definition family_state (f : Family) (st : TargetScanStatus) : option TargetScanState :=
  match f with
  | SBOM => Status_Sbom st
  | Vulnerabilities => Status_Vulnerabilities st
  | Secrets => Status_Secrets st
  | Exploits => Status_Exploits st
  | Malware => Status_Malware st
  | Misconfigurations => Status_Misconfigurations st
  | Rootkits => Status_Rootkits st
  end.

Definition families : list Family :=
  [SBOM; Vulnerabilities; Secrets; Exploits; Malware; Misconfigurations; Rootkits].


(** The error list of a sub-state; none when the sub-state or the list is
    absent. *)
Definition substate_errors (st : option TargetScanState) : list string :=
  match st with
  | Some {| TargetScanState_Errors := Some errors |} => errors
  | _ => []
  end.

(** In the words of the specification: the status has errors on some
    sub-state, the general one or one of an analyzer family. *)
Definition has_errors_on_any_substate (st : TargetScanStatus) : bool :=
  negb (forallb (fun errors => (length errors =? 0)%nat)
          (substate_errors (Status_General st)
           :: List.map (fun f => substate_errors (family_state f st)) families)).

(** In the words of the specification: the terminal state and reason of a
    scan whose state was read as [read] ([None] when it cannot be read). *)
Definition terminal_state (read : option ScanState) (anyJobFailed : bool)
  : ScanState * ScanStateReason :=
  match read with
  | None => (ScanStateFailed, ScanStateReasonUnexpected)
  | Some ScanStateAborted => (ScanStateFailed, ScanStateReasonAborted)
  | Some _ =>
      if anyJobFailed
      then (ScanStateFailed, ScanStateReasonOneOrMoreTargetFailedToScan)
      else (ScanStateDone, ScanStateReasonSuccess)
  end.

(** [jobsCompleted + jobsLeftToRun] of a scan, as Go adds them. *)
Definition jobs_total (scan : Scan) : option Z :=
  summary ← Scan_Summary scan;
  c ← JobsCompleted summary;
  l ← JobsLeftToRun summary;
  Some (int_add c l).

(** The eleven finding totals of a summary, vulnerabilities by severity
    (critical, high, medium, low, negligible). *)
Definition finding_totals (totals : list (option Z))
    (vulnerabilities : option VulnerabilityScanSummary) : list (option Z) :=
  totals ++
  [vulnerabilities ≫= TotalCriticalVulnerabilities;
   vulnerabilities ≫= TotalHighVulnerabilities;
   vulnerabilities ≫= TotalMediumVulnerabilities;
   vulnerabilities ≫= TotalLowVulnerabilities;
   vulnerabilities ≫= TotalNegligibleVulnerabilities].

Definition ScanSummary_totals (sm : ScanSummary) : list (option Z) :=
  finding_totals
    [TotalExploits sm; TotalMalware sm; TotalMisconfigurations sm;
     TotalPackages sm; TotalRootkits sm; TotalSecrets sm]
    (TotalVulnerabilities sm).

Definition ScanFindingsSummary_totals (sm : ScanFindingsSummary) : list (option Z) :=
  finding_totals
    [Findings_TotalExploits sm; Findings_TotalMalware sm;
     Findings_TotalMisconfigurations sm; Findings_TotalPackages sm;
     Findings_TotalRootkits sm; Findings_TotalSecrets sm]
    (Findings_TotalVulnerabilities sm).

(** Whether the general sub-state carries errors: the list is there and
    is not empty. *)
Definition generalHasErrors (status : TargetScanStatus) : bool :=
  (0 <? length (substate_errors (Status_General status)))%nat.

(** The status a tick ends the wait on: one read without error whose
    general state is DONE or NOTSCANNED. *)
Definition tick_terminal (r : res TargetScanStatus) : option TargetScanStatus :=
  match r with
  | OK status =>
      match fst (GetGeneralState status) with
      | DONE | NOTSCANNED => Some status
      | _ => None
      end
  | Err _ => None
  end.

(** A run with some actions put in front of its trace. *)
Definition prepend {W A} (pre : list Action) (r : Outcome A * W * list Action)
  : Outcome A * W * list Action :=
  let '(o, w, tr) := r in (o, w, pre ++ tr).

Definition is_log (a : Action) : bool :=
  match a with
  | ActLog _ _ _ => true
  | _ => false
  end.

(** The sum of two dereferenced pointers, when both are set. *)
Definition add_opt (a b : option Z) : option Z :=
  match a, b with
  | Some x, Some y => Some (int_add x y)
  | _, _ => None
  end.

(** In the words of the specification: every finding total of the scan
    plus the count of the result for the same category. *)
Definition rolled_up (stored : ScanSummary) (result : ScanFindingsSummary)
  : list (option Z) :=
  zip_with add_opt (ScanSummary_totals stored) (ScanFindingsSummary_totals result).

(** A computation all of whose actions satisfy [P], however it ends. *)
Definition emits_only {W A} (P : Action -> bool) (m : M W A) : Prop :=
  forall w, forallb P (m w).2 = true.

Definition is_delete (a : Action) : bool :=
  match a with
  | ActDelete _ _ => true
  | _ => false
  end.

(** A computation started in a world where [P] holds ends in one where
    [Q] holds of its result if it returns, and where [I] holds if it
    panics or blocks. *)
Definition triple {W A} (P : W -> Prop) (m : M W A) (Q : A -> W -> Prop)
    (I : W -> Prop) : Prop :=
  forall w, P w ->
    match m w with
    | (Returned a, w', _) => Q a w'
    | (_, w', _) => I w'
    end.

(** A computation that keeps a property of the world, however it ends. *)
Definition keeps {W A} (P : W -> Prop) (m : M W A) : Prop :=
  triple P m (fun _ => P) P.

(** The counters of the stored scan add up to [total]. *)
Definition counters_hold (total : Z) (w : Sim) : Prop :=
  jobs_total (sim_scan w) = Some total.

(** A scan that PATCH may be given without breaking [counters_hold]: it
    supplies no summary, or one whose counters add up. *)
Definition patch_safe (total : Z) (scan : Scan) : Prop :=
  Scan_Summary scan = None \/ jobs_total scan = Some total.

(** Whether a family is switched on in the configuration of the CLI, and
    the tools it is to run. *)
Definition Config_enabled (f : Family) (c : families_Config) : bool :=
  match f with
  | SBOM => sbom_Enabled (Config_SBOM c)
  | Vulnerabilities => vulnerabilities_Enabled (Config_Vulnerabilities c)
  | Secrets => secrets_Enabled (Config_Secrets c)
  | Exploits => exploits_Enabled (Config_Exploits c)
  | Malware => malware_Enabled (Config_Malware c)
  | Misconfigurations => misconfiguration_Enabled (Config_Misconfiguration c)
  | Rootkits => rootkits_Enabled (Config_Rootkits c)
  end.

Definition Config_tools (f : Family) (c : families_Config) : list string :=
  match f with
  | SBOM => sbom_AnalyzersList (Config_SBOM c)
  | Vulnerabilities => vulnerabilities_ScannersList (Config_Vulnerabilities c)
  | Secrets => secrets_ScannersList (Config_Secrets c)
  | Exploits => exploits_ScannersList (Config_Exploits c)
  | Malware => malware_ScannersList (Config_Malware c)
  | Misconfigurations => misconfiguration_ScannersList (Config_Misconfiguration c)
  | Rootkits => rootkits_ScannersList (Config_Rootkits c)
  end.

(** The target ids sent on [done], in order. *)
Fixpoint sends (tr : list Action) : list string :=
  match tr with
  | [] => []
  | ActSendDone targetID :: tr => targetID :: sends tr
  | _ :: tr => sends tr
  end.

Definition is_send (a : Action) : bool :=
  match a with
  | ActSendDone _ => true
  | _ => false
  end.

(** The status patches sent to the backend, with their answers, in order. *)
Fixpoint status_patches (tr : list Action)
  : list (string * TargetScanStatus * option error) :=
  match tr with
  | [] => []
  | ActPatchTargetScanStatus id status result :: tr =>
      (id, status, result) :: status_patches tr
  | _ :: tr => status_patches tr
  end.

(** What a computation has returned and emitted, when it returns. *)
Definition ensures {W A} (m : M W A) (Q : A -> list Action -> Prop) : Prop :=
  forall w a w' tr, m w = (Returned a, w', tr) -> Q a tr.

(** The targets a worker signals on [done] while it meets [events]: those
    of the items whose send was taken, up to the kill signal. *)
Fixpoint signalled (events : list WorkerSelect) : list string :=
  match events with
  | QueueRecv data _ SentDone :: events =>
      TargetID (targetInstance data) :: signalled events
  | QueueRecv _ _ SendKill :: events => signalled events
  | _ => []
  end.

(** The items a worker receives before the kill signal. *)
Fixpoint received (events : list WorkerSelect) : list scanData :=
  match events with
  | QueueRecv data _ _ :: events => data :: received events
  | _ => []
  end.

(** The last PATCH of a controller loop that has ended: it carries an end
    time and a terminal state, and DONE only when no job failed and every
    target was counted. *)
Definition final_patch (c' : controller) (p : Scan) : Prop :=
  is_Some (Scan_EndTime p)
  /\ ((Scan_State p = Some ScanStateFailed
       /\ exists reason, Scan_StateReason p = Some reason
                         /\ reason <> ScanStateReasonSuccess)
      \/ (Scan_State p = Some ScanStateDone
          /\ Scan_StateReason p = Some ScanStateReasonSuccess
          /\ anyJobsFailed c' = false
          /\ numberOfCompletedJobs c'
             = Z.of_nat (size (targetIDToScanData c')))).

(** The value of a computation that returned, [d] otherwise. *)
Definition returned {A} (d : A) (o : Outcome A) : A :=
  match o with Returned a => a | _ => d end.

(** ** Sample values, for running the model *)

Definition sample_families : ScanFamiliesConfig :=
  {| Families_Exploits := None;
     Families_Malware := Some {| Enabled := Some false |};
     Families_Misconfigurations := Some {| Enabled := None |};
     Families_Rootkits := None;
     Families_Sbom := Some {| Enabled := Some true |};
     Families_Secrets := None;
     Families_Vulnerabilities := Some {| Enabled := Some true |} |}.

Definition sample_scanner (policy : DeleteJobPolicyType) : Scanner :=
  {| scanFamiliesConfig := sample_families;
     scannerInstanceCreationConfig := None;
     config := {| Region := "us-east-1"; DeleteJobPolicy := policy;
                  DeviceName := "xvdh"; ScannerImage := "scanner-image";
                  ScannerBackendAddress := "backend:8888";
                  ScannerKeyPairName := "" |};
     scanID := "scan-1";
     familiesYaml := OK "sbom: {enabled: true}" |}.

Definition sample_vulnerabilities (critical negligible : Z) : VulnerabilityScanSummary :=
  {| TotalCriticalVulnerabilities := Some critical;
     TotalHighVulnerabilities := Some 0;
     TotalMediumVulnerabilities := Some 0;
     TotalLowVulnerabilities := Some 0;
     TotalNegligibleVulnerabilities := Some negligible |}.

(** One job left and one critical vulnerability counted so far. *)
Definition sample_summary : ScanSummary :=
  {| JobsCompleted := Some 0; JobsLeftToRun := Some 1;
     TotalExploits := Some 0; TotalMalware := Some 0;
     TotalMisconfigurations := Some 0; TotalPackages := Some 0;
     TotalRootkits := Some 0; TotalSecrets := Some 0;
     TotalVulnerabilities := Some (sample_vulnerabilities 1 0) |}.

Definition sample_scan : Scan :=
  {| Scan_EndTime := None;
     Scan_State := Some ScanStateInProgress;
     Scan_StateMessage := None;
     Scan_StateReason := None;
     Scan_Summary := Some sample_summary |}.

(** A target on which nothing was found. *)
Definition sample_findings : ScanFindingsSummary :=
  {| Findings_TotalExploits := Some 0; Findings_TotalMalware := Some 0;
     Findings_TotalMisconfigurations := Some 0; Findings_TotalPackages := Some 0;
     Findings_TotalRootkits := Some 0; Findings_TotalSecrets := Some 0;
     Findings_TotalVulnerabilities := Some (sample_vulnerabilities 0 0) |}.

Definition sample_state (state : TargetScanStateState) (errors : option (list string))
  : option TargetScanState :=
  Some {| TargetScanState_Errors := errors; TargetScanState_State := Some state |}.

(** The scanner CLI reported DONE; the SBOM analyzer left an error; the
    general sub-state has none. *)
Definition sample_status_done : TargetScanStatus :=
  {| Status_Exploits := sample_state NOTSCANNED None;
     Status_General := sample_state DONE None;
     Status_Malware := sample_state NOTSCANNED None;
     Status_Misconfigurations := sample_state NOTSCANNED None;
     Status_Rootkits := sample_state NOTSCANNED None;
     Status_Sbom := sample_state DONE (Some ["syft: cannot read layer"]);
     Status_Secrets := sample_state NOTSCANNED None;
     Status_Vulnerabilities := sample_state DONE None |}.

(** A scan result as initialised, before any analyzer has run. *)
Definition sample_status_init : TargetScanStatus :=
  {| Status_Exploits := sample_state NOTSCANNED None;
     Status_General := sample_state INIT None;
     Status_Malware := sample_state NOTSCANNED None;
     Status_Misconfigurations := sample_state NOTSCANNED None;
     Status_Rootkits := sample_state NOTSCANNED None;
     Status_Sbom := sample_state INIT None;
     Status_Secrets := sample_state NOTSCANNED None;
     Status_Vulnerabilities := sample_state INIT None |}.

Definition sample_result (status : TargetScanStatus) : TargetScanResult :=
  {| Result_Id := Some "scan-1/target-1";
     Result_Summary := Some sample_findings;
     Result_Scan := Some "scan-1";
     Result_Status := Some status;
     Result_Target := Some "target-1" |}.

Definition sample_world (results : list TargetScanResult) (faults : list bool) : Sim :=
  {| sim_scan := sample_scan; sim_results := results; sim_faults := faults;
     sim_now := 1000; sim_region := "us-east-1" |}.

Definition sample_data : scanData :=
  {| targetInstance :=
       {| TargetID := "target-1";
          Target_Instance := {| Instance_GetID := "i-0abc";
                                Instance_GetAvailabilityZone := "us-east-1a" |} |};
     scanResultID := "scan-1/target-1";
     success := false; completed := false; timeout := false |}.

Definition sample_job : Job :=
  {| Job_Instance := Some {| Instance_GetID := "scanner-snap-i-0abc-root";
                             Instance_GetAvailabilityZone := "us-east-1a" |};
     Job_SrcSnapshot := Some {| Snapshot_GetID := "snap-i-0abc-root";
                                Snapshot_GetRegion := "us-east-1" |};
     Job_DstSnapshot := None;
     Job_Volume := Some {| Volume_GetID := "vol-snap-i-0abc-root" |} |}.

Definition sample_targets : gmap string scanData :=
  {[ "target-1" := scanData_set sample_data true true false ]}.

Definition sample_controller : controller :=
  {| targetIDToScanData := sample_targets;
     anyJobsFailed := false;
     numberOfCompletedJobs := 0;
     scanComplete := false |}.

(** What [createScanWithUpdatedSummary] returns for the sample target. *)
Definition sample_read : option Scan * option error :=
  Eval vm_compute in
    match createScanWithUpdatedSummary simBackend (sample_scanner DeleteJobPolicyAlways)
            (scanData_set sample_data true true false)
            (sample_world [sample_result sample_status_done] []) with
    | (Returned read, _, _) => read
    | _ => (None, None)
    end.

(** A controller whose single target has not succeeded, and a map of two
    targets. *)
Definition sample_failed_controller : controller :=
  {| targetIDToScanData := {[ "target-1" := sample_data ]};
     anyJobsFailed := false;
     numberOfCompletedJobs := 0;
     scanComplete := false |}.

Definition sample_two_targets : gmap string scanData :=
  {[ "target-1" := sample_data; "target-2" := sample_data ]}.

(** The controller loop on the sample target: one worker write, then the
    done signal. *)
Definition sample_loop_run :=
  Eval vm_compute in
    jobBatchManagement_loop simBackend simRuntime
      (sample_scanner DeleteJobPolicyAlways)
      [WorkerWrite "target-1" true true false; DoneRecv "target-1"]
      sample_controller (sample_world [sample_result sample_status_done] []).

Definition sample_failed_run :=
  Eval vm_compute in
    jobBatchManagement_loop simBackend simRuntime
      (sample_scanner DeleteJobPolicyAlways) [DoneRecv "target-1"]
      sample_failed_controller (sample_world [sample_result sample_status_done] []).



(** The turn of a worker whose wait for the result times out. *)
Definition sample_timeout_run :=
  Eval vm_compute in
    worker_item simBackend simProvider simRuntime
      (sample_scanner DeleteJobPolicyAlways) sample_data [TimerTick; CtxDone]
      SentDone (sample_world [sample_result sample_status_init] []).

(** A worker that handles two items and halts. *)
Definition sample_worker_events : list WorkerSelect :=
  [QueueRecv sample_data [TimerTick] SentDone;
   QueueRecv (scanData_set sample_data true true false) [] SendKill;
   WorkerKill].

Definition sample_worker_run :=
  Eval vm_compute in
    worker simBackend simProvider simRuntime
      (sample_scanner DeleteJobPolicyAlways) 1 sample_worker_events
      (sample_world [sample_result sample_status_done] []).

(** A job started for the sample target, and the wait that follows it
    through one tick. *)
Definition sample_cancel_runJob :=
  Eval vm_compute in
    runJob simBackend simProvider (sample_scanner DeleteJobPolicyNever)
      sample_data (sample_world [sample_result sample_status_init] []).

Definition sample_cancel_wait :=
  Eval vm_compute in
    waitForResult simBackend (sample_scanner DeleteJobPolicyNever) [TimerTick]
      sample_data (snd (fst sample_cancel_runJob)).

(** * Properties *)

(** ** Stepping through a computation *)

Ltac unfold_M :=
  unfold mbind, M_MBind, M_bind, mret, M_MRet, M_ret, call, log, emit, panic,
    blocked in *.

Section stepping.

Context {W : Type}.

Lemma bind_inv {A B} (m : M W A) (k : A -> M W B) w r w' tr :
  (m ≫= k) w = (Returned r, w', tr) ->
  exists a w1 t1 t2,
    m w = (Returned a, w1, t1) /\ k a w1 = (Returned r, w', t2) /\ tr = t1 ++ t2.
Proof.
  unfold_M. destruct (m w) as [[[a| |] w1] t1]; try discriminate.
  destruct (k a w1) as [[o w2] t2] eqn:Hk. intros H. injection H as -> -> <-.
  exists a, w1, t1, t2. auto.
Qed.

Lemma bind_call_inv {A B} (op : W -> A * W) (k : A -> M W B) w r w' tr :
  (call op ≫= k) w = (Returned r, w', tr) ->
  exists a w1, op w = (a, w1) /\ k a w1 = (Returned r, w', tr).
Proof.
  unfold_M. destruct (op w) as [a w1]. intros H. exists a, w1.
  split; [reflexivity|]. destruct (k a w1) as [[o w2] t2]. exact H.
Qed.

Lemma bind_deref_inv {A B} (o : option A) (k : A -> M W B) w r w' tr :
  (deref o ≫= k) w = (Returned r, w', tr) ->
  exists a, o = Some a /\ k a w = (Returned r, w', tr).
Proof.
  unfold deref. unfold_M. destruct o as [a|]; [|discriminate].
  intros H. exists a. split; [reflexivity|].
  destruct (k a w) as [[o' w2] t2]. exact H.
Qed.

Lemma bind_IntPtr_add_inv {B} (a b : option Z) (k : option Z -> M W B) w r w' tr :
  (IntPtr_add a b ≫= k) w = (Returned r, w', tr) ->
  is_Some a /\ is_Some b /\ k (add_opt a b) w = (Returned r, w', tr).
Proof.
  unfold IntPtr_add, deref. unfold_M.
  destruct a as [x|]; [|discriminate]. destruct b as [y|]; [|discriminate].
  cbn. intros H. repeat split; eauto.
  destruct (k (Some (int_add x y)) w) as [[o w2] t2]. exact H.
Qed.

End stepping.

(** ** Go integers *)

Lemma wrap_int_in_range (z : Z) : in_int_range z -> wrap_int z = z.
Proof.
  unfold in_int_range, int_min, int_max, wrap_int. intros H.
  rewrite Z.mod_small; lia.
Qed.

Lemma wrap_int_add (a b : Z) : wrap_int (wrap_int a + wrap_int b) = wrap_int (a + b).
Proof.
  unfold wrap_int. f_equal.
  replace ((a + 2 ^ 63) mod 2 ^ 64 - 2 ^ 63 + ((b + 2 ^ 63) mod 2 ^ 64 - 2 ^ 63) + 2 ^ 63)
    with ((a + 2 ^ 63) mod 2 ^ 64 + ((b + 2 ^ 63) mod 2 ^ 64 - 2 ^ 63)) by ring.
  rewrite Zplus_mod_idemp_l.
  replace (a + 2 ^ 63 + ((b + 2 ^ 63) mod 2 ^ 64 - 2 ^ 63))
    with ((b + 2 ^ 63) mod 2 ^ 64 + a) by ring.
  rewrite Zplus_mod_idemp_l. f_equal. ring.
Qed.

(** One more completed and one less to run leave the Go sum as it was. *)
Lemma int_add_succ_pred (c l : Z) :
  int_add (int_add c 1) (int_sub l 1) = int_add c l.
Proof.
  unfold int_add, int_sub. rewrite wrap_int_add. f_equal. ring.
Qed.

(** ** The reaper *)

Section reaper_facts.

Context {W : Type} (pc : ProviderClient W).

Lemma deleteAndLog_run (r : Resource) (format : string) (w : W) :
  exists e w',
    deleteAndLog pc r format w =
      (Returned tt, w',
       ActDelete r e ::
       match e with
       | Some err => [ActLog LogError format [Resource_GetID r; error_Error err]]
       | None => []
       end).
Proof.
  unfold deleteAndLog, Delete; unfold_M.
  destruct r as [i|sn|v]; simpl.
  - destruct (Instance_Delete pc i w) as [e w']; exists e, w'; destruct e; reflexivity.
  - destruct (Snapshot_Delete pc sn w) as [e w']; exists e, w'; destruct e; reflexivity.
  - destruct (Volume_Delete pc v w) as [e w']; exists e, w'; destruct e; reflexivity.
Qed.

Ltac run_delete :=
  match goal with
  | |- context [deleteAndLog ?pc ?r ?f ?w] =>
      let e := fresh "e" in
      destruct (deleteAndLog_run r f w) as (e & ? & ->); destruct e; simpl
  end.

Lemma deleteJob_run (job : Job) (w : W) :
  exists w' tr,
    deleteJob pc job w = (Returned tt, w', tr)
    /\ deletions tr = Job_resources job
    /\ failures_logged tr.
Proof.
  destruct job as [[i|] [s1|] [s2|] [v|]];
    unfold deleteJob, Job_resources; unfold_M; simpl;
    repeat run_delete; eexists _, _; (split; [reflexivity|]); simpl;
    repeat split; auto.
Qed.

Lemma deleteJob_nothing (job : Job) (w : W) :
  Job_resources job = [] -> deleteJob pc job w = (Returned tt, w, []).
Proof.
  destruct job as [[i|] [s1|] [s2|] [v|]]; unfold Job_resources; simpl;
    intros H; try discriminate H; reflexivity.
Qed.

(** [deleteAndLog] calls [Delete] of the provider once and records its
    answer. *)
Lemma deleteAndLog_effect (r : Resource) (format : string) (w : W) :
  deleteAndLog pc r format w
  = (Returned tt, (provider_Delete pc r w).2,
     ActDelete r (provider_Delete pc r w).1 ::
     match (provider_Delete pc r w).1 with
     | Some err => [ActLog LogError format [Resource_GetID r; error_Error err]]
     | None => []
     end).
Proof.
  unfold deleteAndLog, Delete, provider_Delete; unfold_M.
  destruct r as [i|sn|v]; cbn.
  - destruct (Instance_Delete pc i w) as [[e|] w']; reflexivity.
  - destruct (Snapshot_Delete pc sn w) as [[e|] w']; reflexivity.
  - destruct (Volume_Delete pc v w) as [[e|] w']; reflexivity.
Qed.

Lemma bind_returned {A B} (m : M W A) (k : A -> M W B) (w w1 : W) (a : A)
    (t1 : list Action) :
  m w = (Returned a, w1, t1) -> (m ≫= k) w = prepend t1 (k a w1).
Proof.
  intros H. unfold mbind, M_MBind, M_bind. rewrite H. reflexivity.
Qed.

Lemma delete_each_cons (r : Resource) (rs : list Resource) (w : W) :
  delete_each pc (r :: rs) w
  = ((r, (provider_Delete pc r w).1)
       :: (delete_each pc rs (provider_Delete pc r w).2).1,
     (delete_each pc rs (provider_Delete pc r w).2).2).
Proof.
  cbn [delete_each]. destruct (provider_Delete pc r w) as [e w1]. cbn.
  destruct (delete_each pc rs w1); reflexivity.
Qed.

(** What [deleteJob] does to the cloud: it asks the provider to delete
    each resource of the Job in order, each in the world the one before
    has left, and records the answers it got. *)
Lemma deleteJob_effect (job : Job) (w : W) :
  exists tr,
    deleteJob pc job w
    = (Returned tt, (delete_each pc (Job_resources job) w).2, tr)
    /\ deletion_answers tr = (delete_each pc (Job_resources job) w).1
    /\ deletions tr = Job_resources job
    /\ failures_logged tr.
Proof.
  destruct job as [[i|] [s1|] [s2|] [v|]];
    match goal with
    | |- context [Job_resources ?j] =>
        let rs := eval vm_compute in (Job_resources j) in
        change (Job_resources j) with rs
    end;
    unfold deleteJob;
    cbn [Job_Instance Job_SrcSnapshot Job_DstSnapshot Job_Volume];
    repeat (erewrite bind_returned;
            [|first [apply deleteAndLog_effect | reflexivity]]);
    rewrite ?deleteAndLog_effect, ?delete_each_cons;
    cbn [delete_each fst snd prepend];
    repeat match goal with
           | |- context [provider_Delete pc ?r ?w0] =>
               destruct (provider_Delete pc r w0) as [[?|] ?];
               cbn [fst snd app]
           end;
    eexists; (split; [reflexivity|]); cbn; repeat split; reflexivity.
Qed.

(** C9. [deleteJob] attempts the deletions in the order instance, source
    snapshot, destination snapshot, volume, skipping the nil fields: it
    calls [Delete] of the provider on exactly [Job_resources job], each
    call made in the world the call before has left, whatever that call
    answered, so a failed delete does not stop the later ones.  The
    answers recorded are those of the provider, every failed delete is
    logged, and [deleteJob] always returns, in the world after the last
    delete.  On a Job whose fields are all nil it does nothing at all. *)
Theorem deleteJob_order_best_effort (job : Job) (w : W) :
  (exists tr,
      deleteJob pc job w
      = (Returned tt, (delete_each pc (Job_resources job) w).2, tr)
      /\ deletion_answers tr = (delete_each pc (Job_resources job) w).1
      /\ deletions tr = Job_resources job
      /\ failures_logged tr)
  /\ deleteJob pc Job_zero w = (Returned tt, w, []).
Proof.
  split; [apply deleteJob_effect | reflexivity].
Qed.

(** C4. Given a Job, [deleteJobIfNeeded] always returns, and what it
    deletes is the whole Job when [completed] is false, whatever the
    policy; when [completed] is true it is the whole Job under ALWAYS,
    nothing under NEVER, and under ON_SUCCESS the whole Job if
    [successful] and nothing otherwise.  To delete is to call [Delete] of
    the provider on each resource in order: the world it returns in is the
    one those calls leave, and the answers recorded are the provider's.
    When there is nothing to delete it does nothing. *)
Theorem deleteJobIfNeeded_policy (s : Scanner) (job : Job)
    (successful completed : bool) (w : W) :
  exists w' tr,
    deleteJobIfNeeded pc s (Some job) successful completed w = (Returned tt, w', tr)
    /\ deletions tr =
         match completed, DeleteJobPolicy (config s) with
         | false, _ => Job_resources job
         | true, DeleteJobPolicyAlways => Job_resources job
         | true, DeleteJobPolicyNever => []
         | true, DeleteJobPolicyOnSuccess =>
             if successful then Job_resources job else []
         | true, DeleteJobPolicy_other _ => []
         end
    /\ (deletions tr = [] -> tr = [] /\ w' = w)
    /\ w' = (delete_each pc (deletions tr) w).2
    /\ deletion_answers tr = (delete_each pc (deletions tr) w).1.
Proof.
  unfold deleteJobIfNeeded.
  destruct (deleteJob_effect job w) as (tr & Hrun & Hans & Hdel & _).
  assert (Hquiet : deletions tr = [] ->
                   tr = [] /\ (delete_each pc (Job_resources job) w).2 = w).
  { rewrite Hdel; intros Hnil.
    rewrite (deleteJob_nothing job w Hnil) in Hrun.
    injection Hrun as Hw <-. split; [reflexivity|]. symmetry. exact Hw. }
  assert (Hnoop : exists w' tr,
             (mret tt : M W unit) w = (Returned tt, w', tr)
             /\ deletions tr = [] /\ (deletions tr = [] -> tr = [] /\ w' = w)
             /\ w' = (delete_each pc (deletions tr) w).2
             /\ deletion_answers tr = (delete_each pc (deletions tr) w).1).
  { exists w, []; repeat split; reflexivity. }
  assert (Hreap : exists w' tr,
             deleteJob pc job w = (Returned tt, w', tr)
             /\ deletions tr = Job_resources job
             /\ (deletions tr = [] -> tr = [] /\ w' = w)
             /\ w' = (delete_each pc (deletions tr) w).2
             /\ deletion_answers tr = (delete_each pc (deletions tr) w).1).
  { exists (delete_each pc (Job_resources job) w).2, tr.
    split; [exact Hrun|]. split; [exact Hdel|]. split; [exact Hquiet|].
    rewrite Hdel. split; [reflexivity|exact Hans]. }
  destruct completed; simpl; [|exact Hreap].
  destruct (DeleteJobPolicy (config s)); [| |destruct successful|]; assumption.
Qed.

End reaper_facts.

(** ** The result waiter *)

Section waiter_facts.

Context {W : Type} (bc : BackendClient W) (s : Scanner).

Lemma GetGeneralState_Some (status : TargetScanStatus) (state : TargetScanStateState) :
  GetGeneralState status = (state, true) ->
  exists g, Status_General status = Some g /\ TargetScanState_State g = Some state.
Proof.
  unfold GetGeneralState, TargetScanState_GetState.
  destruct (Status_General status) as [g|]; [|discriminate].
  destruct (TargetScanState_State g) as [st|] eqn:E; [|discriminate].
  intros [= ->]; eauto.
Qed.

Lemma GetGeneralState_ok (status : TargetScanStatus) :
  fst (GetGeneralState status) <> TargetScanStateState_zero ->
  GetGeneralState status = (fst (GetGeneralState status), true).
Proof.
  unfold GetGeneralState, TargetScanState_GetState.
  destruct (Status_General status) as [g|]; simpl; [|congruence].
  destruct (TargetScanState_State g); simpl; congruence.
Qed.

Lemma scanStatusHasErrors_run (status : TargetScanStatus) (g : TargetScanState) (w : W) :
  Status_General status = Some g ->
  scanStatusHasErrors status w = (Returned (generalHasErrors status), w, []).
Proof.
  intros Hg. unfold scanStatusHasErrors, generalHasErrors, substate_errors, deref.
  rewrite Hg. unfold_M. destruct g as [[errors|] st]; simpl; [|reflexivity].
  destruct errors; reflexivity.
Qed.

Ltac split_trace t :=
  first
    [ match goal with
      | |- context [?a :: ?b :: ?c :: t] =>
          change (a :: b :: c :: t) with ([a; b; c] ++ t)
      end
    | match goal with
      | |- context [?a :: ?b :: t] => change (a :: b :: t) with ([a; b] ++ t)
      end
    | match goal with
      | |- context [?a :: t] => change (a :: t) with ([a] ++ t)
      end ].

(** A tick that does not observe DONE or NOTSCANNED only logs, and the
    loop goes on with the same [scanData]. *)
Lemma waitForResult_tick_continue (data : scanData) (w w1 : W)
    (r : res TargetScanStatus) :
  GetScanResultStatus bc (scanResultID data) w = (r, w1) ->
  tick_terminal r = None ->
  exists pre, forallb is_log pre = true /\
    forall events,
      waitForResult_loop bc s (TimerTick :: events) data w =
        prepend pre (waitForResult_loop bc s events data w1).
Proof.
  intros Hget Hterm.
  destruct r as [status|err]; simpl in Hterm.
  - destruct (GetGeneralState status) as [state ok] eqn:HG; simpl in Hterm.
    destruct state; try discriminate Hterm; destruct ok;
      (eexists; split;
       [| intros events; cbn [waitForResult_loop]; unfold_M; cbn -[waitForResult_loop];
          rewrite Hget; cbn -[waitForResult_loop]; rewrite HG; cbn -[waitForResult_loop];
          destruct (waitForResult_loop bc s events data w1) as [[o w2] t2];
          cbn; split_trace t2; reflexivity ]; reflexivity).
  - eexists; split;
      [| intros events; cbn [waitForResult_loop]; unfold_M; cbn -[waitForResult_loop];
         rewrite Hget; cbn -[waitForResult_loop];
         destruct (waitForResult_loop bc s events data w1) as [[o w2] t2];
         cbn; split_trace t2; reflexivity ]; reflexivity.
Qed.

(** A tick that observes DONE or NOTSCANNED ends the wait. *)
Lemma waitForResult_tick_return (data : scanData) (w w1 : W)
    (r : res TargetScanStatus) (status : TargetScanStatus) :
  GetScanResultStatus bc (scanResultID data) w = (r, w1) ->
  tick_terminal r = Some status ->
  r = OK status /\
  exists pre, forallb is_log pre = true /\
    forall events,
      waitForResult_loop bc s (TimerTick :: events) data w =
        (Returned (scanData_set data (negb (generalHasErrors status)) true
                     (timeout data)),
         w1, pre).
Proof.
  intros Hget Hterm.
  destruct r as [status'|err]; simpl in Hterm; [|discriminate].
  assert (status' = status) as ->.
  { destruct (fst (GetGeneralState status')); congruence. }
  split; [reflexivity|].
  assert (Hok : GetGeneralState status = (fst (GetGeneralState status), true)).
  { apply GetGeneralState_ok. destruct (fst (GetGeneralState status)); congruence. }
  destruct (GetGeneralState_Some _ _ Hok) as (g & Hg & _).
  destruct (fst (GetGeneralState status)) eqn:Hstate; try discriminate Hterm;
    (eexists; split;
     [| intros events; cbn [waitForResult_loop]; unfold_M; cbn -[waitForResult_loop];
        rewrite Hget; cbn -[waitForResult_loop]; rewrite Hok; cbn -[waitForResult_loop];
        rewrite (scanStatusHasErrors_run status g w1 Hg); cbn; reflexivity ];
     reflexivity).
Qed.

Lemma waitForResult_unfold (events : list WaitSelect) (data : scanData) (w : W) :
  waitForResult bc s events data w =
    prepend [ActLog LogInfo "Waiting for result. targetID=%+v"
               [TargetID (targetInstance data)]]
      (waitForResult_loop bc s events data w).
Proof.
  unfold waitForResult. unfold_M. cbn -[waitForResult_loop].
  destruct (waitForResult_loop bc s events data w) as [[[data'| |] w'] tr]; reflexivity.
Qed.

(** The loop returns only at the kill signal, at the end of the context,
    or at a tick that reads DONE or NOTSCANNED; until then it waits. *)
Lemma waitForResult_loop_returns (events : list WaitSelect) (data data' : scanData)
    (w w' : W) (tr : list Action) :
  waitForResult_loop bc s events data w = (Returned data', w', tr) ->
  exists before ev after w0 tr0,
    events = before ++ ev :: after
    /\ waitForResult_loop bc s before data w = (Blocked, w0, tr0)
    /\ ((ev = WaitKill /\ data' = data)
        \/ (ev = CtxDone /\ data' = scanData_set data false true true)
        \/ (ev = TimerTick /\
            exists status w1,
              GetScanResultStatus bc (scanResultID data) w0 = (OK status, w1)
              /\ (fst (GetGeneralState status) = DONE
                  \/ fst (GetGeneralState status) = NOTSCANNED)
              /\ data' = scanData_set data (negb (generalHasErrors status))
                           true (timeout data))).
Proof.
  revert data data' w w' tr.
  induction events as [|ev events IH]; intros data data' w w' tr Hrun.
  - discriminate Hrun.
  - destruct ev.
    + destruct (GetScanResultStatus bc (scanResultID data) w) as [r w1] eqn:Hget.
      destruct (tick_terminal r) as [status|] eqn:Hterm.
      * destruct (waitForResult_tick_return data w w1 r status Hget Hterm)
          as (-> & pre & _ & Hret).
        rewrite Hret in Hrun. injection Hrun as <- <- <-.
        exists [], TimerTick, events, w, []. repeat split.
        right; right. split; [reflexivity|].
        exists status, w1. repeat split; [exact Hget|].
        simpl in Hterm.
        destruct (fst (GetGeneralState status)); try discriminate Hterm; auto.
      * destruct (waitForResult_tick_continue data w w1 r Hget Hterm)
          as (pre & _ & Hcont).
        rewrite Hcont in Hrun.
        destruct (waitForResult_loop bc s events data w1) as [[o w2] t2] eqn:Hin.
        simpl in Hrun. injection Hrun as -> -> <-.
        destruct (IH _ _ _ _ _ Hin)
          as (before & ev & after & w0 & tr0 & -> & Hblocked & Hcause).
        exists (TimerTick :: before), ev, after, w0, (pre ++ tr0).
        split; [reflexivity|]. split; [|exact Hcause].
        rewrite Hcont, Hblocked. reflexivity.
    + cbn in Hrun. injection Hrun as <- <- <-.
      exists [], CtxDone, events, w, []. repeat split. auto.
    + cbn in Hrun. injection Hrun as <- <- <-.
      exists [], WaitKill, events, w, []. repeat split. auto.
Qed.

(** Events that leave the loop waiting are passed over: the wait goes on
    from the world they left, with the same [scanData]. *)
Lemma waitForResult_loop_blocked_app (before : list WaitSelect) (data : scanData)
    (w w0 : W) (tr0 : list Action) :
  waitForResult_loop bc s before data w = (Blocked, w0, tr0) ->
  forall after,
    waitForResult_loop bc s (before ++ after) data w
    = prepend tr0 (waitForResult_loop bc s after data w0).
Proof.
  revert w tr0.
  induction before as [|ev before IH]; intros w tr0 Hblocked after.
  - injection Hblocked as <- <-. cbn [app].
    destruct (waitForResult_loop bc s after data w) as [[o w2] t2]. reflexivity.
  - destruct ev; [|discriminate Hblocked|discriminate Hblocked].
    destruct (GetScanResultStatus bc (scanResultID data) w) as [r w1] eqn:Hget.
    destruct (tick_terminal r) as [status|] eqn:Hterm.
    + destruct (waitForResult_tick_return data w w1 r status Hget Hterm)
        as (_ & pre & _ & Hret).
      rewrite Hret in Hblocked. discriminate Hblocked.
    + destruct (waitForResult_tick_continue data w w1 r Hget Hterm)
        as (pre & _ & Hcont).
      rewrite Hcont in Hblocked.
      destruct (waitForResult_loop bc s before data w1) as [[o w2] t2] eqn:Hin.
      cbn in Hblocked. injection Hblocked as -> -> <-.
      change ((TimerTick :: before) ++ after) with (TimerTick :: (before ++ after)).
      rewrite Hcont, (IH _ _ Hin after).
      destruct (waitForResult_loop bc s after data w0) as [[o w3] t3]. cbn.
      now rewrite app_assoc.
Qed.

Lemma waitForResult_blocked_app (before : list WaitSelect) (data : scanData)
    (w w0 : W) (tr0 : list Action) :
  waitForResult bc s before data w = (Blocked, w0, tr0) ->
  forall after,
    waitForResult bc s (before ++ after) data w
    = prepend tr0 (waitForResult_loop bc s after data w0).
Proof.
  intros Hblocked after. rewrite waitForResult_unfold in *.
  destruct (waitForResult_loop bc s before data w) as [[o w2] t2] eqn:Hloop.
  cbn in Hblocked. injection Hblocked as -> -> <-.
  rewrite (waitForResult_loop_blocked_app _ _ _ _ _ Hloop after).
  destruct (waitForResult_loop bc s after data w0) as [[o w3] t3]. reflexivity.
Qed.

(** C2 (amended). Whenever a tick of [waitForResult] reads a status whose
    general state is DONE or NOTSCANNED, after any events that left it
    waiting, the waiter returns at that tick, in the world that read has
    left, with [completed] set and with [success] set to true exactly when
    the general sub-state carries no error (its error list is nil or
    empty); the errors of the analyzer families are not looked at.
    Nothing else of the [scanData] changes. *)
Theorem waitForResult_terminal_state (before after : list WaitSelect)
    (data : scanData) (w w0 w1 : W) (tr0 : list Action)
    (status : TargetScanStatus) :
  waitForResult bc s before data w = (Blocked, w0, tr0) ->
  GetScanResultStatus bc (scanResultID data) w0 = (OK status, w1) ->
  fst (GetGeneralState status) = DONE \/ fst (GetGeneralState status) = NOTSCANNED ->
  exists data' tr,
    waitForResult bc s (before ++ TimerTick :: after) data w = (Returned data', w1, tr)
    /\ completed data' = true
    /\ (success data' = true <-> substate_errors (Status_General status) = [])
    /\ timeout data' = timeout data
    /\ targetInstance data' = targetInstance data
    /\ scanResultID data' = scanResultID data.
Proof.
  intros Hblocked Hget Hstate.
  assert (Hterm : tick_terminal (OK status) = Some status).
  { simpl. destruct Hstate as [-> | ->]; reflexivity. }
  destruct (waitForResult_tick_return data w0 w1 _ status Hget Hterm)
    as (_ & pre & _ & Hrun).
  eexists _, _.
  split; [rewrite (waitForResult_blocked_app _ _ _ _ _ Hblocked), Hrun; reflexivity|].
  simpl.
  repeat split; unfold generalHasErrors;
    destruct (substate_errors (Status_General status)); simpl; congruence.
Qed.

(** C10. A tick on which [GetScanResultStatus] fails changes nothing but
    the log: the wait ends as it does from the next event on, with the
    same [scanData], so the waiter has neither returned nor written a
    flag.  And whenever [waitForResult] returns, the events before the last
    one consumed left it waiting, and the last one is the kill signal (the
    [scanData] is returned as it was), the end of the context that carries
    the job-result timeout, or a tick whose read succeeded with general
    state DONE or NOTSCANNED. *)
Theorem waitForResult_keeps_polling :
  (forall (events : list WaitSelect) (data : scanData) (w w1 : W) (err : error),
      GetScanResultStatus bc (scanResultID data) w = (Err err, w1) ->
      fst (waitForResult bc s (TimerTick :: events) data w)
      = fst (waitForResult bc s events data w1)
      /\ exists pre, forallb is_log pre = true /\
           waitForResult_loop bc s (TimerTick :: events) data w =
             prepend pre (waitForResult_loop bc s events data w1))
  /\
  (forall (events : list WaitSelect) (data data' : scanData) (w w' : W)
          (tr : list Action),
      waitForResult bc s events data w = (Returned data', w', tr) ->
      exists before ev after w0 tr0,
        events = before ++ ev :: after
        /\ waitForResult bc s before data w = (Blocked, w0, tr0)
        /\ ((ev = WaitKill /\ data' = data)
            \/ (ev = CtxDone /\ data' = scanData_set data false true true)
            \/ (ev = TimerTick /\
                exists status w1,
                  GetScanResultStatus bc (scanResultID data) w0 = (OK status, w1)
                  /\ (fst (GetGeneralState status) = DONE
                      \/ fst (GetGeneralState status) = NOTSCANNED)
                  /\ data' = scanData_set data (negb (generalHasErrors status))
                               true (timeout data)))).
Proof.
  split.
  - intros events data w w1 err Hget.
    destruct (waitForResult_tick_continue data w w1 (Err err) Hget eq_refl)
      as (pre & Hlogs & Hrun).
    split; [|exists pre; auto].
    rewrite !waitForResult_unfold, Hrun.
    destruct (waitForResult_loop bc s events data w1) as [[o w2] t2]; reflexivity.
  - intros events data data' w w' tr Hrun.
    rewrite waitForResult_unfold in Hrun.
    destruct (waitForResult_loop bc s events data w) as [[o w2] t2] eqn:Hloop.
    cbn in Hrun. injection Hrun as -> -> <-.
    destruct (waitForResult_loop_returns _ _ _ _ _ _ Hloop)
      as (before & ev & after & w0 & tr0 & -> & Hblocked & Hcause).
    exists before, ev, after, w0. eexists.
    split; [reflexivity|]. split; [|exact Hcause].
    rewrite waitForResult_unfold, Hblocked. reflexivity.
Qed.

End waiter_facts.

Lemma waitForResult_terminal_state_witness :
  waitForResult simBackend (sample_scanner DeleteJobPolicyAlways)
    [TimerTick] sample_data (sample_world [sample_result sample_status_done] [true])
  = (Blocked, sample_world [sample_result sample_status_done] [],
     [ActLog LogInfo "Waiting for result. targetID=%+v" ["target-1"];
      ActLog LogInfo "Polling scan results for target id=%v and scan id=%v"
        ["target-1"; "scan-1"];
      ActLog LogError "Failed to get target scan status. scanID=%v, target id=%s: %v"
        ["scan-1"; "target-1"; "unavailable"]])
  /\ exists data' tr,
      waitForResult simBackend (sample_scanner DeleteJobPolicyAlways)
        ([TimerTick] ++ [TimerTick; CtxDone]) sample_data
        (sample_world [sample_result sample_status_done] [true])
      = (Returned data', sample_world [sample_result sample_status_done] [], tr)
      /\ completed data' = true
      /\ (success data' = true
          <-> substate_errors (Status_General sample_status_done) = [])
      /\ timeout data' = timeout sample_data
      /\ targetInstance data' = targetInstance sample_data
      /\ scanResultID data' = scanResultID sample_data.
Proof.
  split; [reflexivity|].
  apply (waitForResult_terminal_state simBackend
           (sample_scanner DeleteJobPolicyAlways) [TimerTick] [CtxDone] sample_data
           (sample_world [sample_result sample_status_done] [true])
           (sample_world [sample_result sample_status_done] [])
           (sample_world [sample_result sample_status_done] [])
           [ActLog LogInfo "Waiting for result. targetID=%+v" ["target-1"];
            ActLog LogInfo "Polling scan results for target id=%v and scan id=%v"
              ["target-1"; "scan-1"];
            ActLog LogError
              "Failed to get target scan status. scanID=%v, target id=%s: %v"
              ["scan-1"; "target-1"; "unavailable"]]
           sample_status_done).
  - reflexivity.
  - reflexivity.
  - left; reflexivity.
Defined.

(** C2, as stated, fails: the waiter observes DONE on a status whose SBOM
    sub-state carries an error, and sets [success] to true. *)
Lemma waitForResult_success_despite_family_error :
  exists data' w' tr,
    fst (GetGeneralState sample_status_done) = DONE
    /\ waitForResult simBackend (sample_scanner DeleteJobPolicyAlways)
         [TimerTick] sample_data (sample_world [sample_result sample_status_done] [])
       = (Returned data', w', tr)
    /\ completed data' = true
    /\ ~ (success data' = true
          <-> has_errors_on_any_substate sample_status_done = false).
Proof.
  eexists _, _, _. split; [reflexivity|]. split; [reflexivity|].
  split; [reflexivity|].
  cbn. intros [H _]. specialize (H eq_refl). discriminate H.
Qed.

Lemma waitForResult_keeps_polling_witness :
  (fst (waitForResult simBackend (sample_scanner DeleteJobPolicyAlways)
          [TimerTick; WaitKill] sample_data (sample_world [] []))
   = fst (waitForResult simBackend (sample_scanner DeleteJobPolicyAlways)
            [WaitKill] sample_data (sample_world [] []))
   /\ exists pre, forallb is_log pre = true /\
        waitForResult_loop simBackend (sample_scanner DeleteJobPolicyAlways)
          [TimerTick; WaitKill] sample_data (sample_world [] [])
        = prepend pre
            (waitForResult_loop simBackend (sample_scanner DeleteJobPolicyAlways)
               [WaitKill] sample_data (sample_world [] [])))
  /\ (exists before ev after w0 tr0,
        [TimerTick; CtxDone] = before ++ ev :: after
        /\ waitForResult simBackend (sample_scanner DeleteJobPolicyAlways)
             before sample_data (sample_world [] [true]) = (Blocked, w0, tr0)
        /\ ((ev = WaitKill /\ scanData_set sample_data false true true = sample_data)
            \/ (ev = CtxDone /\
                scanData_set sample_data false true true
                = scanData_set sample_data false true true)
            \/ (ev = TimerTick /\
                exists status w1,
                  GetScanResultStatus simBackend (scanResultID sample_data) w0
                  = (OK status, w1)
                  /\ (fst (GetGeneralState status) = DONE
                      \/ fst (GetGeneralState status) = NOTSCANNED)
                  /\ scanData_set sample_data false true true
                     = scanData_set sample_data (negb (generalHasErrors status))
                         true (timeout sample_data)))).
Proof.
  split.
  - apply (proj1 (waitForResult_keeps_polling simBackend
                    (sample_scanner DeleteJobPolicyAlways))
             [WaitKill] sample_data (sample_world [] []) (sample_world [] [])
             sim_not_found).
    reflexivity.
  - eapply (proj2 (waitForResult_keeps_polling simBackend
                     (sample_scanner DeleteJobPolicyAlways))
              [TimerTick; CtxDone] sample_data
              (scanData_set sample_data false true true)
              (sample_world [] [true])).
    reflexivity.
Defined.

(** ** The roll-up of the scan summary *)

Section summary_facts.

Context {W : Type} (bc : BackendClient W) (s : Scanner).

(** What a successful [createScanWithUpdatedSummary] read and built. *)
Lemma createScanWithUpdatedSummary_inv (data : scanData) (w w' : W)
    (scan' : Scan) (e : option error) (tr : list Action) :
  createScanWithUpdatedSummary bc s data w = (Returned (Some scan', e), w', tr) ->
  exists scan rs w1 sm vs vr c l,
    GetScan bc (scanID s) w = (OK scan, w1)
    /\ GetScanResultSummary bc (scanResultID data) w1 = (OK rs, w')
    /\ Scan_Summary scan = Some sm
    /\ JobsCompleted sm = Some c
    /\ JobsLeftToRun sm = Some l
    /\ TotalVulnerabilities sm = Some vs
    /\ Findings_TotalVulnerabilities rs = Some vr
    /\ e = None /\ tr = []
    /\ scan' =
       {| Scan_EndTime := Scan_EndTime scan;
          Scan_State := Scan_State scan;
          Scan_StateMessage := Scan_StateMessage scan;
          Scan_StateReason := Scan_StateReason scan;
          Scan_Summary := Some
            {| JobsCompleted := Some (int_add c 1);
               JobsLeftToRun := Some (int_sub l 1);
               TotalExploits := add_opt (TotalExploits sm) (Findings_TotalExploits rs);
               TotalMalware := add_opt (TotalMalware sm) (Findings_TotalMalware rs);
               TotalMisconfigurations :=
                 add_opt (TotalMisconfigurations sm) (Findings_TotalMisconfigurations rs);
               TotalPackages := add_opt (TotalPackages sm) (Findings_TotalPackages rs);
               TotalRootkits := add_opt (TotalRootkits sm) (Findings_TotalRootkits rs);
               TotalSecrets := add_opt (TotalSecrets sm) (Findings_TotalSecrets rs);
               TotalVulnerabilities := Some
                 {| TotalCriticalVulnerabilities :=
                      add_opt (TotalCriticalVulnerabilities vs)
                              (TotalCriticalVulnerabilities vr);
                    TotalHighVulnerabilities :=
                      add_opt (TotalHighVulnerabilities vs) (TotalHighVulnerabilities vr);
                    TotalMediumVulnerabilities :=
                      add_opt (TotalMediumVulnerabilities vs)
                              (TotalMediumVulnerabilities vr);
                    TotalLowVulnerabilities :=
                      add_opt (TotalLowVulnerabilities vs) (TotalLowVulnerabilities vr);
                    TotalNegligibleVulnerabilities :=
                      add_opt (TotalCriticalVulnerabilities vs)
                              (TotalNegligibleVulnerabilities vr) |} |} |}.
Proof.
  unfold createScanWithUpdatedSummary. intros H.
  apply bind_call_inv in H as ([scan|err] & w1 & Hscan & H); [|discriminate H].
  apply bind_call_inv in H as ([rs|err] & w2 & Hrs & H); [|discriminate H].
  apply bind_deref_inv in H as (sm & Hsm & H).
  apply bind_deref_inv in H as (c & Hc & H).
  apply bind_deref_inv in H as (l & Hl & H).
  do 6 (apply bind_IntPtr_add_inv in H as (_ & _ & H)).
  apply bind_deref_inv in H as (vs & Hvs & H).
  apply bind_deref_inv in H as (vr & Hvr & H).
  do 5 (apply bind_IntPtr_add_inv in H as (_ & _ & H)).
  injection H as <- <- <- <-.
  exists scan, rs, w1, sm, vs, vr, c, l.
  repeat (split; [first [assumption | reflexivity] |]). reflexivity.
Qed.

(** The first ten finding totals are rolled up as specified; the total of
    negligible vulnerabilities is built from the stored total of critical
    ones. *)
Lemma createScanWithUpdatedSummary_rollup (data : scanData) (w w' : W)
    (scan' : Scan) (e : option error) (tr : list Action) :
  createScanWithUpdatedSummary bc s data w = (Returned (Some scan', e), w', tr) ->
  exists scan rs w1 sm sm' vs vr,
    GetScan bc (scanID s) w = (OK scan, w1)
    /\ GetScanResultSummary bc (scanResultID data) w1 = (OK rs, w')
    /\ Scan_Summary scan = Some sm
    /\ Scan_Summary scan' = Some sm'
    /\ TotalVulnerabilities sm = Some vs
    /\ Findings_TotalVulnerabilities rs = Some vr
    /\ take 10 (ScanSummary_totals sm') = take 10 (rolled_up sm rs)
    /\ ScanSummary_totals sm' !! 10%nat =
       Some (add_opt (TotalCriticalVulnerabilities vs)
                     (TotalNegligibleVulnerabilities vr)).
Proof.
  intros H.
  destruct (createScanWithUpdatedSummary_inv _ _ _ _ _ _ H)
    as (scan & rs & w1 & sm & vs & vr & c & l & Hscan & Hrs & Hsm & _ & _
        & Hvs & Hvr & _ & _ & ->).
  exists scan, rs, w1, sm. eexists. exists vs, vr.
  repeat (split; [first [eassumption | reflexivity] |]).
  unfold rolled_up, ScanSummary_totals, ScanFindingsSummary_totals.
  rewrite Hvs, Hvr. split; reflexivity.
Qed.

(** The counters of a successful update. *)
Lemma createScanWithUpdatedSummary_counters (data : scanData) (w w' : W)
    (scan' : Scan) (e : option error) (tr : list Action) :
  createScanWithUpdatedSummary bc s data w = (Returned (Some scan', e), w', tr) ->
  exists scan w1 sm sm' c l,
    GetScan bc (scanID s) w = (OK scan, w1)
    /\ Scan_Summary scan = Some sm
    /\ JobsCompleted sm = Some c
    /\ JobsLeftToRun sm = Some l
    /\ Scan_Summary scan' = Some sm'
    /\ JobsCompleted sm' = Some (int_add c 1)
    /\ JobsLeftToRun sm' = Some (int_sub l 1)
    /\ jobs_total scan' = jobs_total scan.
Proof.
  intros H.
  destruct (createScanWithUpdatedSummary_inv _ _ _ _ _ _ H)
    as (scan & rs & w1 & sm & vs & vr & c & l & Hscan & Hrs & Hsm & Hc & Hl
        & _ & _ & _ & _ & ->).
  exists scan, w1, sm. eexists. exists c, l.
  repeat (split; [first [eassumption | reflexivity] |]).
  unfold jobs_total. rewrite Hsm. simpl. rewrite Hc, Hl. simpl.
  f_equal. apply int_add_succ_pred.
Qed.

End summary_facts.

(** C1 at a failing input.  The stored scan counts one critical and no
    negligible vulnerability; the completed target reports none of either.
    Every total should stay as it was.  [createScanWithUpdatedSummary]
    returns a scan whose total of negligible vulnerabilities is 1: the
    stored total of critical ones plus the target's negligible ones. *)
Theorem createScanWithUpdatedSummary_negligible_adds_critical :
  exists scan' sm',
    createScanWithUpdatedSummary simBackend (sample_scanner DeleteJobPolicyAlways)
      sample_data (sample_world [sample_result sample_status_done] [])
    = (Returned (Some scan', None),
       sample_world [sample_result sample_status_done] [], [])
    /\ Scan_Summary scan' = Some sm'
    /\ rolled_up sample_summary sample_findings !! 10%nat = Some (Some 0)
    /\ ScanSummary_totals sm' !! 10%nat = Some (Some 1)
    /\ ScanSummary_totals sm' <> rolled_up sample_summary sample_findings.
Proof.
  eexists _, _. split; [reflexivity|]. split; [reflexivity|].
  split; [reflexivity|]. split; [reflexivity|]. discriminate.
Qed.

(** ** The scan controller *)

Section controller_facts.

Context {W : Type} (bc : BackendClient W) (rt : Runtime W) (s : Scanner).

(** [createScanWithUpdatedSummary] returns a scan and no error, or no scan
    and an error; it writes nothing to the trace. *)
Lemma createScanWithUpdatedSummary_shape (data : scanData) (w w' : W)
    (o : option Scan) (e : option error) (tr : list Action) :
  createScanWithUpdatedSummary bc s data w = (Returned (o, e), w', tr) ->
  tr = [] /\ ((exists scan, o = Some scan /\ e = None)
              \/ (o = None /\ exists err, e = Some err)).
Proof.
  destruct o as [scan|].
  - intros H.
    destruct (createScanWithUpdatedSummary_inv _ _ _ _ _ _ _ _ H)
      as (_ & _ & _ & _ & _ & _ & _ & _ & _ & _ & _ & _ & _ & _ & _ & -> & -> & _).
    eauto.
  - unfold createScanWithUpdatedSummary. intros H.
    apply bind_call_inv in H as ([scan|err] & w1 & Hscan & H);
      [|injection H as <- <- <-; eauto].
    apply bind_call_inv in H as ([rs|err] & w2 & Hrs & H);
      [|injection H as <- <- <-; eauto].
    apply bind_deref_inv in H as (sm & Hsm & H).
    apply bind_deref_inv in H as (c & Hc & H).
    apply bind_deref_inv in H as (l & Hl & H).
    do 6 (apply bind_IntPtr_add_inv in H as (_ & _ & H)).
    apply bind_deref_inv in H as (vs & Hvs & H).
    apply bind_deref_inv in H as (vr & Hvr & H).
    do 5 (apply bind_IntPtr_add_inv in H as (_ & _ & H)).
    discriminate H.
Qed.

Lemma completeScan_run (scan : Scan) (failed : bool) (w : W) :
  exists now w1 logs,
    time_Now rt w = (now, w1)
    /\ forallb is_log logs = true
    /\ completeScan rt scan failed w =
         (Returned
            (Scan_set_State (Scan_set_EndTime scan now)
               (fst (terminal_state (Scan_State scan) failed))
               (match Scan_State scan with
                | None => "Failed to retrieve scan state"
                | Some ScanStateAborted => "User initiated"
                | Some _ => if failed then "One or more ScanJobs failed"
                            else "All scan jobs completed"
                end)
               (snd (terminal_state (Scan_State scan) failed))),
          w1, logs).
Proof.
  unfold completeScan, Scan_GetState. unfold_M.
  destruct (time_Now rt w) as [now w1]. exists now, w1.
  destruct scan as [t [st|] m r sm]; cbn.
  - destruct st; cbn; try destruct failed; cbn;
      (eexists; split; [reflexivity|]; split; [|reflexivity]; reflexivity).
  - eexists; split; [reflexivity|]; split; [|reflexivity]; reflexivity.
Qed.

Lemma patchScan_run (scan : Scan) (w : W) :
  exists r w' logs,
    PatchScan bc (scanID s) scan w = (r, w')
    /\ forallb is_log logs = true
    /\ patchScan bc s scan w = (Returned tt, w', ActPatchScan (scanID s) scan r :: logs).
Proof.
  unfold patchScan. unfold_M.
  destruct (PatchScan bc (scanID s) scan w) as [[err|] w'];
    (eexists _, _, _; split; [reflexivity|]; split; [|reflexivity]; reflexivity).
Qed.

Lemma patches_logs (l : list Action) : forallb is_log l = true -> patches l = [].
Proof.
  induction l as [|[] l IH]; simpl; intros H; try discriminate H; auto.
Qed.

Lemma patches_app (l1 l2 : list Action) : patches (l1 ++ l2) = patches l1 ++ patches l2.
Proof.
  induction l1 as [|[] l1 IH]; simpl; auto. now rewrite IH.
Qed.

(** Every completion counts one more job and raises the failure flag when
    the job's [success] is false; the flag is never lowered. *)
Lemma jobBatchManagement_done_flags (targetID : string) (c c' : controller)
    (w w' : W) (tr : list Action) :
  jobBatchManagement_done bc rt s targetID c w = (Returned c', w', tr) ->
  exists data,
    targetIDToScanData c !! targetID = Some data
    /\ anyJobsFailed c' = anyJobsFailed c || negb (success data)
    /\ numberOfCompletedJobs c' = int_add (numberOfCompletedJobs c) 1
    /\ targetIDToScanData c' = targetIDToScanData c.
Proof.
  unfold jobBatchManagement_done. intros H.
  apply bind_deref_inv in H as (data & Hdata & H).
  apply bind_inv in H as ([o e] & w1 & t1 & t2 & _ & H & _).
  apply bind_inv in H as (scan & w2 & t3 & t4 & _ & H & _).
  apply bind_inv in H as ([scan' complete] & w3 & t5 & t6 & _ & H & _).
  apply bind_inv in H as (u & w4 & t7 & t8 & _ & H & _).
  injection H as <- _ _.
  exists data. split; [exact Hdata|]. cbn.
  repeat split. destruct (success data), (anyJobsFailed c); reflexivity.
Qed.

Lemma jobBatchManagement_done_complete (targetID : string) (c : controller)
    (data : scanData) (w w1 : W) (o : option Scan) (e : option error) (scan : Scan) :
  targetIDToScanData c !! targetID = Some data ->
  int_add (numberOfCompletedJobs c) 1 = Z.of_nat (size (targetIDToScanData c)) ->
  createScanWithUpdatedSummary bc s data w = (Returned (o, e), w1, []) ->
  (o = Some scan /\ e = None) \/ (scan = Scan_empty /\ exists err, e = Some err) ->
  let failed := anyJobsFailed c || negb (success data) in
  exists now w2 patched result w3 c' tr,
    time_Now rt w1 = (now, w2)
    /\ PatchScan bc (scanID s) patched w2 = (result, w3)
    /\ jobBatchManagement_done bc rt s targetID c w = (Returned c', w3, tr)
    /\ patches tr = [patched]
    /\ Scan_EndTime patched = Some now
    /\ Scan_State patched = Some (fst (terminal_state (Scan_State scan) failed))
    /\ Scan_StateReason patched = Some (snd (terminal_state (Scan_State scan) failed))
    /\ Scan_Summary patched = Scan_Summary scan
    /\ scanComplete c' = true
    /\ anyJobsFailed c' = failed.
Proof.
  intros Hdata Hcount Hread Hshape failed.
  destruct (completeScan_run scan failed w1)
    as (now & w2 & logs & Hnow & Hlogs & Hcomplete).
  set (patched := Scan_set_State (Scan_set_EndTime scan now) _ _ _) in Hcomplete.
  destruct (patchScan_run patched w2) as (result & w3 & logs' & Hpatch & Hlogs' & Hpatched).
  assert (Hfailed : (if negb (success data) then true else anyJobsFailed c) = failed).
  { unfold failed. destruct (success data), (anyJobsFailed c); reflexivity. }
  exists now, w2, patched, result, w3.
  assert (Hrun : exists c' pre,
             forallb is_log pre = true
             /\ jobBatchManagement_done bc rt s targetID c w
                = (Returned c', w3, pre ++ ActPatchScan (scanID s) patched result :: logs')
             /\ scanComplete c' = true /\ anyJobsFailed c' = failed).
  { unfold jobBatchManagement_done. rewrite Hdata. unfold deref. unfold_M.
    rewrite Hread, Hfailed.
    destruct Hshape as [(-> & ->) | (Hempty & err & ->)];
      cbn -[completeScan patchScan]; rewrite Hcount, Z.eqb_refl;
      cbn -[completeScan patchScan]; rewrite <- ?Hempty;
      rewrite Hcomplete; cbn -[patchScan]; rewrite Hpatched; cbn.
    - exists {| targetIDToScanData := targetIDToScanData c;
                anyJobsFailed := failed;
                numberOfCompletedJobs := Z.of_nat (size (targetIDToScanData c));
                scanComplete := true |}, logs.
      rewrite !app_nil_r. repeat split; assumption.
    - eexists {| targetIDToScanData := targetIDToScanData c;
                 anyJobsFailed := failed;
                 numberOfCompletedJobs := Z.of_nat (size (targetIDToScanData c));
                 scanComplete := true |}, (_ :: logs).
      rewrite !app_nil_r. repeat split; try assumption; reflexivity. }
  destruct Hrun as (c' & pre & Hpre & Hrun & Hcomplete' & Hfailed').
  exists c', (pre ++ ActPatchScan (scanID s) patched result :: logs').
  repeat split; try assumption; try reflexivity.
  rewrite patches_app, (patches_logs _ Hpre). simpl. now rewrite (patches_logs _ Hlogs').
Qed.

(** C3. When the completion received makes the number of completed jobs
    equal to the number of targets, the controller sends one PATCH, and the
    scan it sends has [endTime] set to the time read just before and the
    state and reason of the specification: FAILED and UNEXPECTED if no
    state can be read (the scan could not be fetched, or carries none),
    else FAILED and ABORTED if the state read is ABORTED, else FAILED and
    ONE_OR_MORE_TARGETS_FAILED if this or an earlier job reported
    [success = false], else DONE and SUCCESS.  The loop is then complete. *)
Theorem jobBatchManagement_terminal_state (targetID : string) (c : controller)
    (data : scanData) (w w1 : W) (read : option Scan * option error)
    (tr1 : list Action) :
  targetIDToScanData c !! targetID = Some data ->
  int_add (numberOfCompletedJobs c) 1 = Z.of_nat (size (targetIDToScanData c)) ->
  createScanWithUpdatedSummary bc s data w = (Returned read, w1, tr1) ->
  let scan := default Scan_empty (fst read) in
  let failed := anyJobsFailed c || negb (success data) in
  exists now w2 patched result w3 c' tr,
    time_Now rt w1 = (now, w2)
    /\ PatchScan bc (scanID s) patched w2 = (result, w3)
    /\ jobBatchManagement_done bc rt s targetID c w = (Returned c', w3, tr)
    /\ patches tr = [patched]
    /\ Scan_EndTime patched = Some now
    /\ Scan_State patched = Some (fst (terminal_state (Scan_State scan) failed))
    /\ Scan_StateReason patched = Some (snd (terminal_state (Scan_State scan) failed))
    /\ Scan_Summary patched = Scan_Summary scan
    /\ scanComplete c' = true
    /\ anyJobsFailed c' = failed.
Proof.
  intros Hdata Hcount Hread.
  destruct read as [o e].
  destruct (createScanWithUpdatedSummary_shape _ _ _ _ _ _ Hread) as (-> & Hshape).
  destruct Hshape as [(sc & -> & ->) | (-> & err & ->)]; cbn [fst default].
  - eapply jobBatchManagement_done_complete; eauto.
  - eapply jobBatchManagement_done_complete; eauto.
Qed.

End controller_facts.

Lemma jobBatchManagement_terminal_state_witness :
  sample_targets !! "target-1" = Some (scanData_set sample_data true true false)
  /\ int_add 0 1 = Z.of_nat (size sample_targets)
  /\ createScanWithUpdatedSummary simBackend (sample_scanner DeleteJobPolicyAlways)
       (scanData_set sample_data true true false)
       (sample_world [sample_result sample_status_done] [])
     = (Returned sample_read, sample_world [sample_result sample_status_done] [], [])
  /\ exists now w2 patched result w3 c' tr,
      time_Now simRuntime (sample_world [sample_result sample_status_done] [])
      = (now, w2)
      /\ PatchScan simBackend "scan-1" patched w2 = (result, w3)
      /\ jobBatchManagement_done simBackend simRuntime
           (sample_scanner DeleteJobPolicyAlways) "target-1" sample_controller
           (sample_world [sample_result sample_status_done] [])
         = (Returned c', w3, tr)
      /\ patches tr = [patched]
      /\ Scan_EndTime patched = Some now
      /\ Scan_State patched = Some ScanStateDone
      /\ Scan_StateReason patched = Some ScanStateReasonSuccess
      /\ Scan_Summary patched = Scan_Summary (default Scan_empty (fst sample_read))
      /\ scanComplete c' = true
      /\ anyJobsFailed c' = false.
Proof.
  split; [reflexivity|]. split; [reflexivity|]. split; [reflexivity|].
  apply (jobBatchManagement_terminal_state simBackend simRuntime
           (sample_scanner DeleteJobPolicyAlways) "target-1" sample_controller
           (scanData_set sample_data true true false)
           (sample_world [sample_result sample_status_done] [])
           (sample_world [sample_result sample_status_done] [])
           sample_read []).
  - reflexivity.
  - reflexivity.
  - reflexivity.
Defined.
(** ** Computations that emit only some actions *)

Section quiet.
Context {W : Type} (P : Action -> bool).

Lemma emits_only_ret {A} (a : A) : emits_only P (mret a : M W A).
Proof. intros w; reflexivity. Qed.

Lemma emits_only_call {A} (op : W -> A * W) : emits_only P (call op).
Proof. intros w; unfold call; destruct (op w); reflexivity. Qed.

Lemma emits_only_emit (a : Action) : P a = true -> emits_only P (emit a : M W unit).
Proof. intros H w; cbn. now rewrite H. Qed.

Lemma emits_only_deref {A} (o : option A) : emits_only P (deref o : M W A).
Proof. intros w; destruct o; reflexivity. Qed.

Lemma emits_only_blocked {A} : emits_only P (blocked : M W A).
Proof. intros w; reflexivity. Qed.

Lemma emits_only_bind {A B} (m : M W A) (k : A -> M W B) :
  emits_only P m -> (forall a, emits_only P (k a)) -> emits_only P (m ≫= k).
Proof.
  intros Hm Hk w. specialize (Hm w). unfold_M.
  destruct (m w) as [[[a| |] w1] t1]; cbn in *; auto.
  specialize (Hk a w1). destruct (k a w1) as [[o w2] t2]; cbn in *.
  rewrite forallb_app, Hm, Hk. reflexivity.
Qed.
End quiet.

Ltac emits_only_step :=
  first
    [ apply emits_only_ret
    | apply emits_only_call
    | apply emits_only_deref
    | apply emits_only_blocked
    | apply emits_only_emit; reflexivity
    | apply emits_only_bind; [|intros ?]
    | match goal with
      | |- emits_only _ (match ?x with _ => _ end) => destruct x
      | |- emits_only _ (if ?b then _ else _) => destruct b
      end ].

Lemma deletions_none (tr : list Action) :
  forallb (fun a => negb (is_delete a)) tr = true -> deletions tr = [].
Proof.
  induction tr as [|[] tr IH]; simpl; intros H; try discriminate H; auto.
Qed.

(** ** The job pipeline *)

Section pipeline_facts.
Context {W : Type} (bc : BackendClient W) (pc : ProviderClient W) (rt : Runtime W) (s : Scanner).

Lemma runJob_launch_deletes_nothing (data : scanData) (job : Job) (sn : Snapshot) :
  emits_only (fun a => negb (is_delete a)) (runJob_launch bc pc s data job sn).
Proof.
  unfold runJob_launch, runJob_exit, log. repeat emits_only_step.
Qed.

Lemma runJob_body_deletes_nothing (data : scanData) :
  emits_only (fun a => negb (is_delete a)) (runJob_body bc pc s data).
Proof.
  unfold runJob_body, runJob_exit, log.
  repeat first [apply runJob_launch_deletes_nothing | emits_only_step].
Qed.
Lemma deletions_app (l1 l2 : list Action) :
  deletions (l1 ++ l2) = deletions l1 ++ deletions l2.
Proof.
  induction l1 as [|[] l1 IH]; simpl; auto. now rewrite IH.
Qed.

(** The deferred cleanup: what [runJob] deletes is decided by the
    function-level [err] at the exit of the body.  When it is set, every
    resource recorded on the Job is deleted once; when it is nil, nothing
    is deleted. *)
Lemma runJob_deletions (data : scanData) (w w1 : W) (err : option error) (job : Job)
    (returned : Job * option error) (tr1 : list Action) :
  runJob_body bc pc s data w = (Returned (err, job, returned), w1, tr1) ->
  exists w2 tr,
    runJob bc pc s data w = (Returned returned, w2, tr)
    /\ deletions tr = match err with
                      | Some _ => Job_resources job
                      | None => []
                      end.
Proof.
  intros Hbody.
  pose proof (runJob_body_deletes_nothing data w) as Hquiet.
  rewrite Hbody in Hquiet. apply deletions_none in Hquiet. cbn in Hquiet.
  unfold runJob. unfold_M. rewrite Hbody.
  destruct err as [e|].
  - destruct (deleteJob_run pc job w1) as (w2 & tr2 & Hrun & Hdel & _).
    rewrite Hrun. exists w2, (tr1 ++ tr2 ++ []).
    split; [reflexivity|]. now rewrite !deletions_app, Hquiet, app_nil_r.
  - exists w1, (tr1 ++ []). split; [reflexivity|].
    now rewrite app_nil_r.
Qed.

End pipeline_facts.

(** C5 at a failing input.  The target is in state INIT and every step of
    the pipeline succeeds until the wait for the scanner instance, which
    fails.  At that point the Job records the instance, the source
    snapshot and the volume.  The body of [runJob] leaves with the
    function-level [err] nil, since the failed wait wrote to an [err] of
    its own; the deferred cleanup does nothing, [runJob] returns the empty
    Job, [handleScanData] returns no Job, and [deleteJobIfNeeded] returns
    at once.  The whole turn of the worker attempts no deletion. *)
Theorem worker_item_leaks_when_wait_fails :
  exists e w1 tr1 data' w' tr,
    runJob_body simBackend simProvider (sample_scanner DeleteJobPolicyAlways)
      sample_data
      (sample_world [sample_result sample_status_init]
         [false; false; false; false; false; true])
    = (Returned (None, sample_job, (Job_zero, Some e)), w1, tr1)
    /\ Job_resources sample_job
       = [ResInstance {| Instance_GetID := "scanner-snap-i-0abc-root";
                         Instance_GetAvailabilityZone := "us-east-1a" |};
          ResSnapshot {| Snapshot_GetID := "snap-i-0abc-root";
                         Snapshot_GetRegion := "us-east-1" |};
          ResVolume {| Volume_GetID := "vol-snap-i-0abc-root" |}]
    /\ worker_item simBackend simProvider simRuntime
         (sample_scanner DeleteJobPolicyAlways) sample_data [] SentDone
         (sample_world [sample_result sample_status_init]
            [false; false; false; false; false; false; true])
       = (Returned data', w', tr)
    /\ deletions tr = []
    /\ success data' = false
    /\ completed data' = true.
Proof.
  eexists _, _, _, _, _, _.
  split; [reflexivity|]. split; [reflexivity|]. split; [reflexivity|].
  repeat split.
Qed.


(** ** Initialisation of the scan results *)

Section init_facts.

Context {W : Type} (bc : BackendClient W) (s : Scanner).


(** A conflict that carries the existing result is answered with the
    identifier of that result. *)
Lemma createInitTargetScanStatus_conflict (scanID targetID : string) (w w1 : W)
    (e : error) (existing : TargetScanResult) (id : string) :
  PostScanResult bc (initScanResult s scanID targetID) w = (Err e, w1) ->
  errors_As_conflict e = Some (Some existing) ->
  Result_Id existing = Some id ->
  exists tr,
    createInitTargetScanStatus bc s scanID targetID w = (Returned (id, None), w1, tr)
    /\ patches tr = [] /\ deletions tr = [].
Proof.
  intros Hpost Has Hid. unfold createInitTargetScanStatus, deref. unfold_M.
  rewrite Hpost. cbn. rewrite Has. cbn. rewrite Hid. cbn. eauto.
Qed.

End init_facts.

Section init_store_facts.

Variable s : Scanner.

Lemma find_none_filter {A} (f : A -> bool) (l : list A) :
  List.find f l = None -> List.filter f l = [].
Proof.
  induction l as [|a l IH]; simpl; auto.
  destruct (f a); [discriminate|auto].
Qed.

(** Creating the scan result of a (scan, target) pair twice in the store,
    with no outage. *)
Lemma createInitTargetScanStatus_twice (scanID targetID : string) (w : Sim) :
  sim_faults w = [] ->
  Forall (fun r => is_Some (Result_Id r)) (sim_results w) ->
  exists id w1 tr1 tr2,
    createInitTargetScanStatus simBackend s scanID targetID w
    = (Returned (id, None), w1, tr1)
    /\ createInitTargetScanStatus simBackend s scanID targetID w1
       = (Returned (id, None), w1, tr2)
    /\ (List.find (same_pair (initScanResult s scanID targetID)) (sim_results w) = None ->
        length (List.filter (same_pair (initScanResult s scanID targetID))
                  (sim_results w1)) = 1%nat).
Proof.
  intros Hfaults Hids.
  set (sr := initScanResult s scanID targetID).
  assert (Hfault : forall w0, sim_faults w0 = [] -> sim_fault w0 = (false, w0)).
  { intros w0 H0. unfold sim_fault. now rewrite H0. }
  destruct (List.find (same_pair sr) (sim_results w)) as [existing|] eqn:Hfind.
  - assert (Hin : In existing (sim_results w)) by (eapply find_some; eauto).
    rewrite Forall_forall in Hids.
    destruct (Hids existing) as [id Hid].
    { apply list_elem_of_In; exact Hin. }
    assert (Hpost : PostScanResult simBackend sr w
                    = (Err (ScanResultConflictError (Some existing)), w)).
    { cbn. unfold sim_PostScanResult. rewrite (Hfault w Hfaults). now rewrite Hfind. }
    destruct (createInitTargetScanStatus_conflict simBackend s scanID targetID w w _
                existing id Hpost eq_refl Hid) as (tr & Hrun & _).
    exists id, w, tr, tr. repeat split; auto. discriminate.
  - set (created := {| Result_Id := Some (sim_new_id sr);
                       Result_Summary := Result_Summary sr;
                       Result_Scan := Result_Scan sr;
                       Result_Status := Result_Status sr;
                       Result_Target := Result_Target sr |}).
    set (w1 := sim_set_results w (sim_results w ++ [created])).
    assert (Hpost : PostScanResult simBackend sr w = (OK created, w1)).
    { cbn. unfold sim_PostScanResult. rewrite (Hfault w Hfaults). now rewrite Hfind. }
    assert (Hfind1 : List.find (same_pair sr) (sim_results w1) = Some created).
    { assert (Hsame : same_pair sr created = true).
      { unfold same_pair. rewrite !bool_decide_eq_true_2; auto. }
      change (sim_results w1) with (sim_results w ++ [created]).
      clear -Hfind Hsame. induction (sim_results w) as [|r l IH]; simpl in *.
      - now rewrite Hsame.
      - destruct (same_pair sr r); [discriminate|auto]. }
    assert (Hpost1 : PostScanResult simBackend sr w1
                     = (Err (ScanResultConflictError (Some created)), w1)).
    { cbn. unfold sim_PostScanResult. rewrite (Hfault w1 Hfaults). now rewrite Hfind1. }
    destruct (createInitTargetScanStatus_conflict simBackend s scanID targetID w1 w1 _
                created (sim_new_id sr) Hpost1 eq_refl eq_refl) as (tr2 & Hrun2 & _).
    exists (sim_new_id sr), w1. eexists. exists tr2.
    split; [|split; [exact Hrun2|]].
    + unfold createInitTargetScanStatus, deref. unfold_M. fold sr.
      rewrite Hpost. cbn. reflexivity.
    + intros _. change (sim_results w1) with (sim_results w ++ [created]).
      rewrite List.filter_app, (find_none_filter _ _ Hfind). simpl.
      assert (Hsame : same_pair sr created = true).
      { unfold same_pair. rewrite !bool_decide_eq_true_2; auto. }
      now rewrite Hsame.
Qed.

End init_store_facts.


Section triples.
Context {W : Type}.

Lemma triple_ret {A} (P : W -> Prop) (Q : A -> W -> Prop) (I : W -> Prop) (a : A) :
  (forall w, P w -> Q a w) -> triple P (mret a) Q I.
Proof. intros H w Hw. exact (H w Hw). Qed.

Lemma triple_bind {A B} (P : W -> Prop) (Q : A -> W -> Prop) (Q' : B -> W -> Prop)
    (I : W -> Prop) (m : M W A) (k : A -> M W B) :
  triple P m Q I -> (forall a, triple (Q a) (k a) Q' I) -> triple P (m ≫= k) Q' I.
Proof.
  intros Hm Hk w Hw. specialize (Hm w Hw). unfold_M.
  destruct (m w) as [[[a| |] w1] t1]; auto.
  specialize (Hk a w1 Hm). destruct (k a w1) as [[[b| |] w2] t2]; auto.
Qed.

Lemma triple_call {A} (P : W -> Prop) (Q : A -> W -> Prop) (I : W -> Prop)
    (op : W -> A * W) :
  (forall w, P w -> Q (op w).1 (op w).2) -> triple P (call op) Q I.
Proof.
  intros H w Hw. specialize (H w Hw). unfold call. destruct (op w); exact H.
Qed.

Lemma triple_emit (P : W -> Prop) (I : W -> Prop) (a : Action) :
  triple P (emit a) (fun _ => P) I.
Proof. intros w Hw. exact Hw. Qed.

Lemma triple_deref {A} (P : W -> Prop) (I : W -> Prop) (o : option A) :
  (forall w, P w -> I w) -> triple P (deref o) (fun a w => P w /\ o = Some a) I.
Proof. intros H w Hw. destruct o; cbn; auto. Qed.

Lemma keeps_ret {A} (P : W -> Prop) (a : A) : keeps P (mret a).
Proof. apply triple_ret; auto. Qed.

Lemma keeps_bind {A B} (P : W -> Prop) (m : M W A) (k : A -> M W B) :
  keeps P m -> (forall a, keeps P (k a)) -> keeps P (m ≫= k).
Proof. intros Hm Hk. eapply triple_bind; [exact Hm|exact Hk]. Qed.

Lemma keeps_call {A} (P : W -> Prop) (op : W -> A * W) :
  (forall w, P w -> P (op w).2) -> keeps P (call op).
Proof. intros H. apply triple_call. exact H. Qed.

Lemma keeps_emit (P : W -> Prop) (a : Action) : keeps P (emit a).
Proof. apply triple_emit. Qed.

Lemma keeps_deref {A} (P : W -> Prop) (o : option A) : keeps P (deref o).
Proof. intros w Hw. destruct o; exact Hw. Qed.

Lemma keeps_IntPtr_add (P : W -> Prop) (a b : option Z) : keeps P (IntPtr_add a b).
Proof.
  unfold IntPtr_add.
  apply keeps_bind; [apply keeps_deref|]. intros x.
  apply keeps_bind; [apply keeps_deref|]. intros y. apply keeps_ret.
Qed.

End triples.

Section store_invariant.

Variables (s : Scanner) (total : Z).

Lemma sim_fault_scan (w : Sim) : sim_scan (sim_fault w).2 = sim_scan w.
Proof. unfold sim_fault. destruct (sim_faults w); reflexivity. Qed.

Lemma sim_read_scan {A} (answer : Sim -> res A) (w : Sim) :
  sim_scan (sim_read answer w).2 = sim_scan w.
Proof.
  unfold sim_read. pose proof (sim_fault_scan w) as H.
  destruct (sim_fault w) as [[|] w1]; exact H.
Qed.

Lemma sim_GetScan_answer (id : string) (w : Sim) (scan : Scan) :
  (GetScan simBackend id w).1 = OK scan -> scan = sim_scan w.
Proof.
  cbn. unfold sim_read. pose proof (sim_fault_scan w) as H.
  destruct (sim_fault w) as [[|] w1]; cbn in *; [discriminate|].
  intros [= <-]. exact H.
Qed.

Lemma patchScan_counters (scan : Scan) :
  (patch_safe total) scan ->
  triple (counters_hold total) (patchScan simBackend s scan) (fun _ => (counters_hold total))
    (counters_hold total).
Proof.
  intros Hsafe. unfold patchScan.
  eapply triple_bind with (Q := fun _ => (counters_hold total)).
  - apply triple_call. intros w Hw. cbn. unfold sim_do.
    pose proof (sim_fault_scan w) as H.
    destruct (sim_fault w) as [[|] w1]; cbn in *; unfold counters_hold in *.
    + now rewrite H.
    + unfold jobs_total in *. cbn. rewrite H.
      destruct Hsafe as [Hnone | Hsafe]; [rewrite Hnone; exact Hw|].
      unfold jobs_total in Hsafe.
      destruct (Scan_Summary scan) as [sm|] eqn:Hsm; [exact Hsafe|discriminate Hsafe].
  - intros e. eapply triple_bind with (Q := fun _ => (counters_hold total)).
    + apply triple_emit.
    + intros _. destruct e; [apply triple_emit | now apply triple_ret].
Qed.

Lemma createScanWithUpdatedSummary_counters_hold (data : scanData) :
  triple (counters_hold total) (createScanWithUpdatedSummary simBackend s data)
    (fun r w => (counters_hold total) w /\ forall sc, r.1 = Some sc -> jobs_total sc = Some total)
    (counters_hold total).
Proof.
  intros w Hw.
  assert (Hkeep : keeps (fun w' => sim_scan w' = sim_scan w)
                    (createScanWithUpdatedSummary simBackend s data)).
  { unfold createScanWithUpdatedSummary, IntPtr_add.
    apply keeps_bind; [apply keeps_call; intros w0 H0; cbn; rewrite sim_read_scan; exact H0|].
    intros [scan|err]; [|apply keeps_ret].
    apply keeps_bind; [apply keeps_call; intros w0 H0; cbn; rewrite sim_read_scan; exact H0|].
    intros [rs|err]; [|apply keeps_ret].
    repeat (apply keeps_bind; [first [apply keeps_deref | apply keeps_IntPtr_add]|intros ?]).
    apply keeps_ret. }
  specialize (Hkeep w eq_refl).
  destruct (createScanWithUpdatedSummary simBackend s data w) as [[o w'] tr] eqn:Hrun.
  assert (Hw' : (counters_hold total) w').
  { unfold counters_hold in *. destruct o; rewrite Hkeep; exact Hw. }
  destruct o as [[o e]| |]; try exact Hw'.
  split; [exact Hw'|]. cbn. intros sc ->.
  destruct (createScanWithUpdatedSummary_counters _ _ _ _ _ _ _ _ Hrun)
    as (scan & w1 & sm & sm' & c & l & Hscan & _ & _ & _ & _ & _ & _ & Htotal).
  rewrite Htotal.
  rewrite (sim_GetScan_answer (scanID s) w scan); [exact Hw|].
  now rewrite Hscan.
Qed.

Lemma completeScan_counters (scan : Scan) (failed : bool) :
  triple (fun w => (counters_hold total) w /\ (patch_safe total) scan)
    (completeScan simRuntime scan failed)
    (fun scan' w => (counters_hold total) w /\ (patch_safe total) scan') (counters_hold total).
Proof.
  intros w [Hw Hsafe].
  destruct (completeScan_run simRuntime scan failed w)
    as (now & w2 & logs & Hnow & _ & ->).
  cbn in Hnow. injection Hnow as _ <-.
  split; [exact Hw|]. exact Hsafe.
Qed.

Lemma jobBatchManagement_done_counters (targetID : string) (c : controller) :
  keeps (counters_hold total) (jobBatchManagement_done simBackend simRuntime s targetID c).
Proof.
  unfold jobBatchManagement_done.
  apply keeps_bind; [apply keeps_deref|]. intros data.
  eapply triple_bind; [apply createScanWithUpdatedSummary_counters_hold|].
  intros [o e]. cbn [fst].
  eapply triple_bind with (Q := fun scan w => (counters_hold total) w /\ (patch_safe total) scan).
  { destruct e as [err|].
    - eapply triple_bind with (Q := fun _ w => (counters_hold total) w).
      + intros w [Hw _]. exact Hw.
      + intros _. apply triple_ret. intros w Hw. split; [exact Hw|]. now left.
    - intros w [Hw Hsc]. destruct o as [sc|]; cbn; [|exact Hw].
      split; [exact Hw|]. right. now apply Hsc. }
  intros scan.
  eapply triple_bind with (Q := fun r w => (counters_hold total) w /\ (patch_safe total) r.1).
  { destruct (_ =? _)%Z.
    - eapply triple_bind; [apply completeScan_counters|].
      intros scan'. apply triple_ret. auto.
    - apply triple_ret. auto. }
  intros [scan' complete]. cbn [fst].
  eapply triple_bind with (Q := fun _ => (counters_hold total)).
  - intros w [Hw Hsafe]. exact (patchScan_counters scan' Hsafe w Hw).
  - intros _. apply keeps_ret.
Qed.

Lemma jobBatchManagement_kill_counters (c : controller) :
  keeps (counters_hold total) (jobBatchManagement_kill simBackend simRuntime s c).
Proof.
  unfold jobBatchManagement_kill, log.
  apply keeps_bind; [apply keeps_call; intros w Hw; exact Hw|]. intros t.
  apply keeps_bind; [apply keeps_emit|]. intros _.
  apply keeps_bind; [|intros _; apply keeps_ret].
  apply patchScan_counters. now left.
Qed.

Lemma jobBatchManagement_loop_counters (events : list ControllerEvent) (c : controller) :
  keeps (counters_hold total) (jobBatchManagement_loop simBackend simRuntime s events c).
Proof.
  revert c. induction events as [|ev events IH]; intros c.
  - cbn [jobBatchManagement_loop].
    destruct (scanComplete c); [apply keeps_ret|]. intros w Hw. exact Hw.
  - cbn [jobBatchManagement_loop].
    destruct (scanComplete c); [apply keeps_ret|].
    destruct ev as [targetID su co ti | targetID |].
    + apply IH.
    + apply keeps_bind; [apply jobBatchManagement_done_counters|]. intros c'. apply IH.
    + apply keeps_bind; [apply jobBatchManagement_kill_counters|]. intros c'. apply IH.
Qed.
End store_invariant.

(** C6. Every update of the scan summary made for a completed job sets
    [jobsCompleted] to the stored value plus one and [jobsLeftToRun] to the
    stored value minus one, in Go's integer arithmetic (exactly so unless
    the counter sits at the end of the [int] range), and leaves their sum
    as it was.  Run against the store, the completion loop keeps
    [jobsCompleted + jobsLeftToRun] at the total it started with, whatever
    the events, the outages and the way the loop ends. *)
Theorem jobs_counters_invariant :
  (forall (W : Type) (bc : BackendClient W) (s : Scanner) (data : scanData)
          (w w' : W) (scan' : Scan) (e : option error) (tr : list Action),
      createScanWithUpdatedSummary bc s data w = (Returned (Some scan', e), w', tr) ->
      exists scan w1 sm sm' c l,
        GetScan bc (scanID s) w = (OK scan, w1)
        /\ Scan_Summary scan = Some sm
        /\ JobsCompleted sm = Some c
        /\ JobsLeftToRun sm = Some l
        /\ Scan_Summary scan' = Some sm'
        /\ JobsCompleted sm' = Some (int_add c 1)
        /\ JobsLeftToRun sm' = Some (int_sub l 1)
        /\ jobs_total scan' = jobs_total scan
        /\ (in_int_range c -> c < int_max -> int_add c 1 = c + 1)
        /\ (in_int_range l -> int_min < l -> int_sub l 1 = l - 1))
  /\
  (forall (s : Scanner) (targets : gmap string scanData)
          (events : list ControllerEvent) (w : Sim) (total : Z),
      jobs_total (sim_scan w) = Some total ->
      jobs_total
        (sim_scan (jobBatchManagement simBackend simRuntime s targets events w).1.2)
      = Some total).
Proof.
  split.
  - intros W bc s data w w' scan' e tr Hrun.
    destruct (createScanWithUpdatedSummary_counters _ _ _ _ _ _ _ _ Hrun)
      as (scan & w1 & sm & sm' & c & l & H1 & H2 & H3 & H4 & H5 & H6 & H7 & H8).
    exists scan, w1, sm, sm', c, l.
    repeat (split; [assumption|]).
    split; intros Hrange Hbound; apply wrap_int_in_range;
      unfold in_int_range, int_min, int_max in *; lia.
  - intros s targets events w total Hw.
    pose proof (jobBatchManagement_loop_counters s total events
                  {| targetIDToScanData := targets; anyJobsFailed := false;
                     numberOfCompletedJobs := 0; scanComplete := false |} w Hw) as H.
    unfold jobBatchManagement.
    destruct (jobBatchManagement_loop simBackend simRuntime s events _ w)
      as [[[c| |] w'] tr]; exact H.
Qed.

Lemma jobs_counters_invariant_witness :
  (exists scan w1 sm sm' c l,
      GetScan simBackend "scan-1" (sample_world [sample_result sample_status_done] [])
      = (OK scan, w1)
      /\ Scan_Summary scan = Some sm
      /\ JobsCompleted sm = Some c
      /\ JobsLeftToRun sm = Some l
      /\ Scan_Summary (default Scan_empty (fst sample_read)) = Some sm'
      /\ JobsCompleted sm' = Some (int_add c 1)
      /\ JobsLeftToRun sm' = Some (int_sub l 1)
      /\ jobs_total (default Scan_empty (fst sample_read)) = jobs_total scan
      /\ (in_int_range c -> c < int_max -> int_add c 1 = c + 1)
      /\ (in_int_range l -> int_min < l -> int_sub l 1 = l - 1))
  /\ jobs_total
       (sim_scan
          (jobBatchManagement simBackend simRuntime
             (sample_scanner DeleteJobPolicyAlways) sample_targets
             [DoneRecv "target-1"]
             (sample_world [sample_result sample_status_done] [])).1.2)
     = Some 1.
Proof.
  split.
  - apply (proj1 jobs_counters_invariant Sim simBackend
             (sample_scanner DeleteJobPolicyAlways)
             (scanData_set sample_data true true false)
             (sample_world [sample_result sample_status_done] [])
             (sample_world [sample_result sample_status_done] [])
             (default Scan_empty (fst sample_read)) None []).
    reflexivity.
  - apply (proj2 jobs_counters_invariant (sample_scanner DeleteJobPolicyAlways)
             sample_targets [DoneRecv "target-1"]
             (sample_world [sample_result sample_status_done] []) 1).
    reflexivity.
Defined.

(** C8. Whenever [PostScanResult] answers with an error in whose chain
    there is a conflict that carries the existing result, and that result
    has an identifier, [createInitTargetScanStatus] returns that identifier
    and no error.  Run twice against the store for the same scan and
    target, with no outage, it returns the same identifier both times; the
    second run leaves the store as the first left it, with one result for
    the pair if there was none before. *)
Theorem createInitTargetScanStatus_idempotent :
  (forall (W : Type) (bc : BackendClient W) (s : Scanner) (scanID targetID : string)
          (w w1 : W) (e : error) (existing : TargetScanResult) (id : string),
      PostScanResult bc (initScanResult s scanID targetID) w = (Err e, w1) ->
      errors_As_conflict e = Some (Some existing) ->
      Result_Id existing = Some id ->
      exists tr,
        createInitTargetScanStatus bc s scanID targetID w = (Returned (id, None), w1, tr)
        /\ patches tr = [] /\ deletions tr = [])
  /\
  (forall (s : Scanner) (scanID targetID : string) (w : Sim),
      sim_faults w = [] ->
      Forall (fun r => is_Some (Result_Id r)) (sim_results w) ->
      exists id w1 tr1 tr2,
        createInitTargetScanStatus simBackend s scanID targetID w
        = (Returned (id, None), w1, tr1)
        /\ createInitTargetScanStatus simBackend s scanID targetID w1
           = (Returned (id, None), w1, tr2)
        /\ (List.find (same_pair (initScanResult s scanID targetID)) (sim_results w)
            = None ->
            length (List.filter (same_pair (initScanResult s scanID targetID))
                      (sim_results w1)) = 1%nat)).
Proof.
  split.
  - intros W bc s. apply createInitTargetScanStatus_conflict.
  - apply createInitTargetScanStatus_twice.
Qed.

Lemma createInitTargetScanStatus_idempotent_witness :
  (exists tr,
      createInitTargetScanStatus simBackend (sample_scanner DeleteJobPolicyAlways)
        "scan-1" "target-1" (sample_world [sample_result sample_status_init] [])
      = (Returned ("scan-1/target-1", None),
         sample_world [sample_result sample_status_init] [], tr)
      /\ patches tr = [] /\ deletions tr = [])
  /\ (exists id w1 tr1 tr2,
        createInitTargetScanStatus simBackend (sample_scanner DeleteJobPolicyAlways)
          "scan-1" "target-1" (sample_world [] [])
        = (Returned (id, None), w1, tr1)
        /\ createInitTargetScanStatus simBackend (sample_scanner DeleteJobPolicyAlways)
             "scan-1" "target-1" w1
           = (Returned (id, None), w1, tr2)
        /\ (List.find
              (same_pair (initScanResult (sample_scanner DeleteJobPolicyAlways)
                            "scan-1" "target-1"))
              (sim_results (sample_world [] [])) = None ->
            length
              (List.filter
                 (same_pair (initScanResult (sample_scanner DeleteJobPolicyAlways)
                               "scan-1" "target-1"))
                 (sim_results w1)) = 1%nat)).
Proof.
  split.
  - apply (proj1 createInitTargetScanStatus_idempotent Sim simBackend
             (sample_scanner DeleteJobPolicyAlways) "scan-1" "target-1"
             (sample_world [sample_result sample_status_init] [])
             (sample_world [sample_result sample_status_init] [])
             (ScanResultConflictError (Some (sample_result sample_status_init)))
             (sample_result sample_status_init) "scan-1/target-1").
    + reflexivity.
    + reflexivity.
    + reflexivity.
  - apply (proj2 createInitTargetScanStatus_idempotent
             (sample_scanner DeleteJobPolicyAlways) "scan-1" "target-1"
             (sample_world [] [])).
    + reflexivity.
    + constructor.
Defined.

(** * Further properties *)

(** ** The text of the errors *)

Lemma append_empty_right (x : string) : x +:+ "" = x.
Proof.
  induction x as [|c x IH]; [reflexivity|].
  change (String c (x +:+ "") = String c x). now rewrite IH.
Qed.

(** The text of an [Errorf] whose verbs are filled. *)
Ltac render_text :=
  unfold Errorf; cbn [Sprintf error_Error String.append];
  rewrite ?append_empty_right.

(** ** More on the scan controller *)

Section controller_more.

Context {W : Type} (bc : BackendClient W) (rt : Runtime W) (s : Scanner).

(** A completion that does not complete the scan sends the scan as
    fetched and updated, or the empty scan when the fetch failed. *)
Lemma jobBatchManagement_done_continue (targetID : string) (c : controller)
    (data : scanData) (w w1 : W) (o : option Scan) (e : option error) (scan : Scan) :
  targetIDToScanData c !! targetID = Some data ->
  int_add (numberOfCompletedJobs c) 1 <> Z.of_nat (size (targetIDToScanData c)) ->
  createScanWithUpdatedSummary bc s data w = (Returned (o, e), w1, []) ->
  (o = Some scan /\ e = None) \/ (scan = Scan_empty /\ exists err, e = Some err) ->
  exists result w2 tr,
    PatchScan bc (scanID s) scan w1 = (result, w2)
    /\ jobBatchManagement_done bc rt s targetID c w
       = (Returned {| targetIDToScanData := targetIDToScanData c;
                      anyJobsFailed := anyJobsFailed c || negb (success data);
                      numberOfCompletedJobs := int_add (numberOfCompletedJobs c) 1;
                      scanComplete := scanComplete c |}, w2, tr)
    /\ patches tr = [scan].
Proof.
  intros Hdata Hcount Hread Hshape.
  destruct (patchScan_run bc s scan w1) as (result & w2 & logs & Hpatch & Hlogs & Hpatched).
  assert (Hfailed : (if negb (success data) then true else anyJobsFailed c)
                    = anyJobsFailed c || negb (success data)).
  { destruct (success data), (anyJobsFailed c); reflexivity. }
  apply Z.eqb_neq in Hcount.
  exists result, w2.
  unfold jobBatchManagement_done. rewrite Hdata. unfold deref. unfold_M.
  rewrite Hread, Hfailed.
  destruct Hshape as [(-> & ->) | (Hempty & err & ->)];
    cbn -[patchScan]; rewrite Hcount; cbn -[patchScan]; rewrite <- ?Hempty;
    rewrite Hpatched; cbn.
  - eexists. split; [exact Hpatch|]. split; [reflexivity|].
    cbn. now rewrite app_nil_r, (patches_logs _ Hlogs).
  - eexists. split; [exact Hpatch|]. split; [reflexivity|].
    cbn. now rewrite app_nil_r, (patches_logs _ Hlogs).
Qed.

(** What a completion that returns has done: one PATCH; either it
    completed the scan and the PATCH is terminal, or the scan goes on. *)
Lemma jobBatchManagement_done_inv (targetID : string) (c c' : controller)
    (w w' : W) (tr : list Action) :
  jobBatchManagement_done bc rt s targetID c w = (Returned c', w', tr) ->
  exists data patched,
    targetIDToScanData c !! targetID = Some data
    /\ patches tr = [patched]
    /\ targetIDToScanData c' = targetIDToScanData c
    /\ anyJobsFailed c' = anyJobsFailed c || negb (success data)
    /\ numberOfCompletedJobs c' = int_add (numberOfCompletedJobs c) 1
    /\ ((int_add (numberOfCompletedJobs c) 1 = Z.of_nat (size (targetIDToScanData c))
         /\ scanComplete c' = true
         /\ is_Some (Scan_EndTime patched)
         /\ exists read,
              Scan_State patched = Some (fst (terminal_state read (anyJobsFailed c')))
              /\ Scan_StateReason patched
                 = Some (snd (terminal_state read (anyJobsFailed c'))))
        \/ (int_add (numberOfCompletedJobs c) 1 <> Z.of_nat (size (targetIDToScanData c))
            /\ scanComplete c' = scanComplete c)).
Proof.
  intros Hrun. pose proof Hrun as Hrun0.
  unfold jobBatchManagement_done in Hrun0.
  apply bind_deref_inv in Hrun0 as (data & Hdata & Hrun0).
  apply bind_inv in Hrun0 as ([o e] & w1 & t1 & t2 & Hread & _ & _).
  destruct (createScanWithUpdatedSummary_shape _ _ _ _ _ _ _ _ Hread) as (-> & Hshape).
  exists data.
  assert (Hshape' : exists scan,
             (o = Some scan /\ e = None) \/ (scan = Scan_empty /\ exists err, e = Some err)).
  { destruct Hshape as [(sc & -> & ->) | (-> & err & ->)]; eauto. }
  destruct Hshape' as (scan & Hshape').
  destruct (Z.eq_dec (int_add (numberOfCompletedJobs c) 1)
              (Z.of_nat (size (targetIDToScanData c)))) as [Hcount | Hcount].
  - destruct (jobBatchManagement_done_complete bc rt s targetID c data w w1 o e scan
                Hdata Hcount Hread Hshape')
      as (now & w2 & patched & result & w3 & c2 & tr2 & _ & _ & Hrun2 & Hp & Hend
          & Hstate & Hreason & _ & Hcomplete & Hflag).
    rewrite Hrun in Hrun2. injection Hrun2 as <- <- <-.
    destruct (jobBatchManagement_done_flags bc rt s _ _ _ _ _ _ Hrun)
      as (data' & Hdata' & Hf & Hn & Hm).
    exists patched. repeat (split; [assumption || congruence|]).
    left. repeat (split; [assumption || eauto|]).
    exists (Scan_State scan). rewrite Hflag. auto.
  - destruct (jobBatchManagement_done_continue targetID c data w w1 o e scan
                Hdata Hcount Hread Hshape')
      as (result & w2 & tr2 & _ & Hrun2 & Hp).
    rewrite Hrun in Hrun2. injection Hrun2 as -> <- <-.
    exists scan. repeat (split; [assumption || reflexivity|]). right. auto.
Qed.

Lemma jobBatchManagement_kill_run (c : controller) (w : W) :
  exists now w1 result w2 tr,
    time_Now rt w = (now, w1)
    /\ PatchScan bc (scanID s)
         {| Scan_EndTime := Some now;
            Scan_State := Some ScanStateFailed;
            Scan_StateMessage := Some "Scan was canceled or timed out";
            Scan_StateReason := Some ScanStateReasonTimedOut;
            Scan_Summary := None |} w1 = (result, w2)
    /\ jobBatchManagement_kill bc rt s c w
       = (Returned {| targetIDToScanData := targetIDToScanData c;
                      anyJobsFailed := anyJobsFailed c;
                      numberOfCompletedJobs := numberOfCompletedJobs c;
                      scanComplete := true |}, w2, tr)
    /\ patches tr
       = [{| Scan_EndTime := Some now;
             Scan_State := Some ScanStateFailed;
             Scan_StateMessage := Some "Scan was canceled or timed out";
             Scan_StateReason := Some ScanStateReasonTimedOut;
             Scan_Summary := None |}].
Proof.
  unfold jobBatchManagement_kill. unfold_M.
  destruct (time_Now rt w) as [now w1]. exists now, w1.
  cbn -[patchScan].
  match goal with
  | |- context [patchScan bc s ?scan w1] =>
      destruct (patchScan_run bc s scan w1)
        as (result & w2 & logs & Hpatch & Hlogs & Hpatched)
  end.
  exists result, w2. rewrite Hpatched. cbn. eexists.
  split; [reflexivity|]. split; [exact Hpatch|]. split; [reflexivity|].
  cbn. now rewrite app_nil_r, (patches_logs _ Hlogs).
Qed.

Lemma terminal_state_cases (read : option ScanState) (failed : bool) :
  (fst (terminal_state read failed) = ScanStateFailed
   /\ snd (terminal_state read failed) <> ScanStateReasonSuccess)
  \/ (fst (terminal_state read failed) = ScanStateDone
      /\ snd (terminal_state read failed) = ScanStateReasonSuccess
      /\ failed = false).
Proof.
  destruct read as [[]|], failed; cbn; auto; left; split; auto; discriminate.
Qed.

Lemma jobBatchManagement_loop_inv (events : list ControllerEvent) (c c' : controller)
    (w w' : W) (tr : list Action) :
  scanComplete c = false ->
  jobBatchManagement_loop bc rt s events c w = (Returned c', w', tr) ->
  scanComplete c' = true
  /\ (anyJobsFailed c = true -> anyJobsFailed c' = true)
  /\ exists p, last (patches tr) = Some p /\ final_patch c' p.
Proof.
  revert c w tr.
  induction events as [|ev events IH]; intros c w tr Hc Hrun;
    cbn [jobBatchManagement_loop] in Hrun; rewrite Hc in Hrun.
  - discriminate Hrun.
  - destruct ev as [targetID su co ti | targetID |].
    + apply IH in Hrun; [exact Hrun | exact Hc].
    + apply bind_inv in Hrun as (c1 & w1 & t1 & t2 & Hdone & Hrest & ->).
      destruct (jobBatchManagement_done_inv _ _ _ _ _ _ Hdone)
        as (data & patched & Hdata & Hp & Hmap & Hflag & Hnum & Hcase).
      destruct Hcase as [(Hcount & Hcomplete & Hend & read & Hstate & Hreason)
                        | (Hcount & Hcomplete)].
      * destruct events; cbn [jobBatchManagement_loop] in Hrest;
          rewrite Hcomplete in Hrest; injection Hrest as <- <- <-.
        all: split; [exact Hcomplete|].
        all: split; [intros Hf; rewrite Hflag, Hf; reflexivity|].
        all: exists patched; rewrite app_nil_r, Hp; split; [reflexivity|].
        all: split; [exact Hend|].
        all: destruct (terminal_state_cases read (anyJobsFailed c1))
               as [(Hs & Hr) | (Hs & Hr & Hf)];
             [left | right]; rewrite Hstate, Hs; rewrite ?Hreason, ?Hr;
             repeat split; eauto; congruence.
      * rewrite Hc in Hcomplete.
        destruct (IH _ _ _ Hcomplete Hrest) as (Hdone' & Hmono & p & Hlast & Hfinal).
        split; [exact Hdone'|].
        split; [intros Hf; apply Hmono; rewrite Hflag, Hf; reflexivity|].
        exists p. split; [|exact Hfinal].
        rewrite patches_app, Hp. cbn [app].
        destruct (patches t2) as [|q l]; [discriminate Hlast|exact Hlast].
    + apply bind_inv in Hrun as (c1 & w1 & t1 & t2 & Hkill & Hrest & ->).
      destruct (jobBatchManagement_kill_run c w)
        as (now & w0 & result & w2 & tr0 & _ & _ & Hkill' & Hp).
      rewrite Hkill in Hkill'. injection Hkill' as -> -> ->.
      destruct events; cbn [jobBatchManagement_loop scanComplete] in Hrest;
        injection Hrest as <- <- <-.
      all: split; [reflexivity|]. all: split; [auto|].
      all: eexists; rewrite app_nil_r, Hp; split; [reflexivity|].
      all: split; [cbn; eauto|]. all: left; split; [reflexivity|].
      all: eexists; split; [reflexivity|discriminate].
Qed.

Lemma jobBatchManagement_loop_kill (rest : list ControllerEvent)
    (c : controller) (w : W) :
  scanComplete c = false ->
  exists now w1 result w2 tr,
    time_Now rt w = (now, w1)
    /\ PatchScan bc (scanID s)
         {| Scan_EndTime := Some now;
            Scan_State := Some ScanStateFailed;
            Scan_StateMessage := Some "Scan was canceled or timed out";
            Scan_StateReason := Some ScanStateReasonTimedOut;
            Scan_Summary := None |} w1 = (result, w2)
    /\ jobBatchManagement_loop bc rt s (KillRecv :: rest) c w
       = (Returned {| targetIDToScanData := targetIDToScanData c;
                      anyJobsFailed := anyJobsFailed c;
                      numberOfCompletedJobs := numberOfCompletedJobs c;
                      scanComplete := true |}, w2, tr)
    /\ patches tr
       = [{| Scan_EndTime := Some now;
             Scan_State := Some ScanStateFailed;
             Scan_StateMessage := Some "Scan was canceled or timed out";
             Scan_StateReason := Some ScanStateReasonTimedOut;
             Scan_Summary := None |}].
Proof.
  intros Hc.
  destruct (jobBatchManagement_kill_run c w)
    as (now & w1 & result & w2 & tr & Hnow & Hpatch & Hkill & Hp).
  exists now, w1, result, w2, (tr ++ []).
  repeat (split; [assumption|]). split; [|now rewrite app_nil_r].
  cbn [jobBatchManagement_loop]. rewrite Hc. unfold_M. rewrite Hkill.
  destruct rest; reflexivity.
Qed.

(** X1. On the kill signal the controller, unless the scan is complete
    already, reads the time, sends one PATCH that carries FAILED, the
    reason TIMED_OUT, the end time and no summary, and leaves the loop: the
    events that follow are not consumed, and the counters of the
    controller are as they were. *)
Theorem jobBatchManagement_kill_signal (rest : list ControllerEvent)
    (c : controller) (w : W) :
  scanComplete c = false ->
  exists now w1 result w2 tr,
    time_Now rt w = (now, w1)
    /\ PatchScan bc (scanID s)
         {| Scan_EndTime := Some now;
            Scan_State := Some ScanStateFailed;
            Scan_StateMessage := Some "Scan was canceled or timed out";
            Scan_StateReason := Some ScanStateReasonTimedOut;
            Scan_Summary := None |} w1 = (result, w2)
    /\ jobBatchManagement_loop bc rt s (KillRecv :: rest) c w
       = (Returned {| targetIDToScanData := targetIDToScanData c;
                      anyJobsFailed := anyJobsFailed c;
                      numberOfCompletedJobs := numberOfCompletedJobs c;
                      scanComplete := true |}, w2, tr)
    /\ patches tr
       = [{| Scan_EndTime := Some now;
             Scan_State := Some ScanStateFailed;
             Scan_StateMessage := Some "Scan was canceled or timed out";
             Scan_StateReason := Some ScanStateReasonTimedOut;
             Scan_Summary := None |}].
Proof.
  intros Hc.
  destruct (jobBatchManagement_loop_kill rest c w Hc)
    as (now & w1 & result & w2 & tr & H).
  exists now, w1, result, w2, tr. exact H.
Qed.

(** X2. Whenever the completion loop returns, the scan is complete and
    the last PATCH it sent is a terminal one: it carries an end time and
    either FAILED with a reason other than SUCCESS, or DONE with the reason
    SUCCESS; and DONE is sent only when no job was seen to fail and the
    number of completions counted equals the number of targets. *)
Theorem jobBatchManagement_loop_ends_terminal (events : list ControllerEvent)
    (c c' : controller) (w w' : W) (tr : list Action) :
  scanComplete c = false ->
  jobBatchManagement_loop bc rt s events c w = (Returned c', w', tr) ->
  scanComplete c' = true
  /\ exists p, last (patches tr) = Some p /\ final_patch c' p.
Proof.
  intros Hc Hrun.
  destruct (jobBatchManagement_loop_inv events c c' w w' tr Hc Hrun)
    as (Hdone & _ & Hlast).
  auto.
Qed.

(** X3. Once a job whose [success] flag is false has been received on
    [done], the loop can no longer end with DONE, whatever the later
    events and the answers of the store. *)
Theorem jobBatchManagement_failed_job_excludes_done (targetID : string)
    (rest : list ControllerEvent) (c c' : controller) (data : scanData)
    (w w' : W) (tr : list Action) (p : Scan) :
  scanComplete c = false ->
  targetIDToScanData c !! targetID = Some data ->
  success data = false ->
  jobBatchManagement_loop bc rt s (DoneRecv targetID :: rest) c w
  = (Returned c', w', tr) ->
  last (patches tr) = Some p ->
  Scan_State p <> Some ScanStateDone.
Proof.
  intros Hc Hdata Hsuccess Hrun Hlast HdoneState.
  destruct (jobBatchManagement_loop_inv _ c c' w w' tr Hc Hrun)
    as (_ & _ & p' & Hlast' & _ & Hfinal).
  rewrite Hlast in Hlast'. injection Hlast' as <-.
  destruct Hfinal as [(Hstate & _) | (_ & _ & Hflag & _)]; [congruence|].
  cbn [jobBatchManagement_loop] in Hrun. rewrite Hc in Hrun.
  apply bind_inv in Hrun as (c1 & w1 & t1 & t2 & Hdone & Hrest & ->).
  destruct (jobBatchManagement_done_flags bc rt s _ _ _ _ _ _ Hdone)
    as (data' & Hdata' & Hf & _ & _).
  rewrite Hdata in Hdata'. injection Hdata' as <-.
  rewrite Hsuccess, orb_true_r in Hf.
  destruct (scanComplete c1) eqn:Hc1.
  - destruct rest; cbn [jobBatchManagement_loop] in Hrest; rewrite Hc1 in Hrest;
      injection Hrest as <- <- <-; congruence.
  - destruct (jobBatchManagement_loop_inv _ c1 c' w1 w' t2 Hc1 Hrest)
      as (_ & Hmono & _).
    rewrite (Hmono Hf) in Hflag. discriminate Hflag.
Qed.

(** X4. A target id received on [done] that is not a key of the map makes
    the controller panic on the nil [scanData], before any call to the
    store.  So with no targets at all the only way for the loop to return
    is the kill signal, and its single PATCH then says TIMED_OUT. *)
Theorem jobBatchManagement_unknown_target :
  (forall (targetID : string) (rest : list ControllerEvent) (c : controller) (w : W),
      scanComplete c = false ->
      targetIDToScanData c !! targetID = None ->
      jobBatchManagement_loop bc rt s (DoneRecv targetID :: rest) c w
      = (Panicked, w, []))
  /\
  (forall (events : list ControllerEvent) (c' : controller) (w w' : W)
          (tr : list Action),
      jobBatchManagement bc rt s ∅ events w = (Returned c', w', tr) ->
      exists p,
        patches tr = [p]
        /\ Scan_State p = Some ScanStateFailed
        /\ Scan_StateReason p = Some ScanStateReasonTimedOut).
Proof.
  assert (Hpanic : forall targetID rest c w,
             scanComplete c = false ->
             targetIDToScanData c !! targetID = None ->
             jobBatchManagement_loop bc rt s (DoneRecv targetID :: rest) c w
             = (Panicked, w, [])).
  { intros targetID rest c w Hc Hdata.
    cbn [jobBatchManagement_loop]. rewrite Hc.
    unfold jobBatchManagement_done. rewrite Hdata. reflexivity. }
  split; [exact Hpanic|].
  unfold jobBatchManagement.
  set (c := {| targetIDToScanData := ∅; anyJobsFailed := false;
               numberOfCompletedJobs := 0; scanComplete := false |}).
  assert (Hmap : targetIDToScanData c = ∅) by reflexivity.
  assert (Hc : scanComplete c = false) by reflexivity.
  clearbody c. intros events. revert c Hmap Hc.
  induction events as [|ev events IH]; intros c Hmap Hc c' w w' tr Hrun.
  - cbn [jobBatchManagement_loop] in Hrun. rewrite Hc in Hrun. discriminate Hrun.
  - destruct ev as [targetID su co ti | targetID |].
    + cbn [jobBatchManagement_loop] in Hrun. rewrite Hc in Hrun.
      apply IH in Hrun; [exact Hrun| |exact Hc].
      cbn. rewrite Hmap. apply alter_empty.
    + rewrite Hpanic in Hrun; [discriminate Hrun|exact Hc|].
      rewrite Hmap. apply lookup_empty.
    + destruct (jobBatchManagement_loop_kill events c w Hc)
        as (now & w1 & result & w2 & tr' & _ & _ & Hrun' & Hp).
      rewrite Hrun in Hrun'. injection Hrun' as _ _ ->.
      eexists. split; [exact Hp|]. split; reflexivity.
Qed.

(** X5. A completion for which the updated scan could not be built (the
    scan or the result summary could not be fetched) still counts as a
    completed job and still raises the failure flag as the job's
    [success] says; when it does not complete the scan, the single PATCH
    it sends is the empty scan, which supplies no field. *)
Theorem jobBatchManagement_done_fetch_failure (targetID : string) (c : controller)
    (data : scanData) (w w1 : W) (e : error) (tr1 : list Action) :
  targetIDToScanData c !! targetID = Some data ->
  int_add (numberOfCompletedJobs c) 1 <> Z.of_nat (size (targetIDToScanData c)) ->
  createScanWithUpdatedSummary bc s data w = (Returned (None, Some e), w1, tr1) ->
  exists result w2 tr,
    PatchScan bc (scanID s) Scan_empty w1 = (result, w2)
    /\ jobBatchManagement_done bc rt s targetID c w
       = (Returned {| targetIDToScanData := targetIDToScanData c;
                      anyJobsFailed := anyJobsFailed c || negb (success data);
                      numberOfCompletedJobs := int_add (numberOfCompletedJobs c) 1;
                      scanComplete := scanComplete c |}, w2, tr)
    /\ patches tr = [Scan_empty].
Proof.
  intros Hdata Hcount Hread.
  destruct (createScanWithUpdatedSummary_shape _ _ _ _ _ _ _ _ Hread) as (-> & _).
  apply (jobBatchManagement_done_continue targetID c data w w1 None (Some e) Scan_empty
           Hdata Hcount Hread).
  right. eauto.
Qed.

Lemma emits_only_IntPtr_add (P : Action -> bool) (a b : option Z) :
  emits_only P (IntPtr_add a b : M W (option Z)).
Proof.
  unfold IntPtr_add.
  apply emits_only_bind; [apply emits_only_deref|]. intros x.
  apply emits_only_bind; [apply emits_only_deref|]. intros y. apply emits_only_ret.
Qed.

(** X6. [createScanWithUpdatedSummary] only reads: however it ends, it
    has sent no PATCH, deleted nothing and logged nothing.  When it
    returns, it returns a scan and no error, or no scan and an error;
    and it returns no scan whenever one of its two reads fails, the second
    read being skipped when the first one fails. *)
Theorem createScanWithUpdatedSummary_reads_only (data : scanData) (w : W) :
  snd (createScanWithUpdatedSummary bc s data w) = []
  /\ (forall o e w' tr,
        createScanWithUpdatedSummary bc s data w = (Returned (o, e), w', tr) ->
        (is_Some o /\ e = None) \/ (o = None /\ is_Some e))
  /\ (forall err w1,
        GetScan bc (scanID s) w = (Err err, w1) ->
        exists e, createScanWithUpdatedSummary bc s data w
                  = (Returned (None, Some e), w1, []))
  /\ (forall scan w1 err w2,
        GetScan bc (scanID s) w = (OK scan, w1) ->
        GetScanResultSummary bc (scanResultID data) w1 = (Err err, w2) ->
        exists e, createScanWithUpdatedSummary bc s data w
                  = (Returned (None, Some e), w2, [])).
Proof.
  split; [|split; [|split]].
  - assert (Hquiet : emits_only (fun _ => false)
                       (createScanWithUpdatedSummary bc s data)).
    { unfold createScanWithUpdatedSummary.
      apply emits_only_bind; [apply emits_only_call|].
      intros [scan|err]; [|apply emits_only_ret].
      apply emits_only_bind; [apply emits_only_call|].
      intros [rs|err]; [|apply emits_only_ret].
      repeat (apply emits_only_bind;
              [first [apply emits_only_deref | apply emits_only_IntPtr_add]|intros ?]).
      apply emits_only_ret. }
    specialize (Hquiet w).
    destruct (snd (createScanWithUpdatedSummary bc s data w)); [reflexivity|discriminate].
  - intros o e w' tr Hrun.
    destruct (createScanWithUpdatedSummary_shape _ _ _ _ _ _ _ _ Hrun)
      as (_ & [(scan & -> & ->) | (-> & err & ->)]); eauto.
  - intros err w1 Hscan. unfold createScanWithUpdatedSummary. unfold_M.
    rewrite Hscan. cbn. eauto.
  - intros scan w1 err w2 Hscan Hrs. unfold createScanWithUpdatedSummary. unfold_M.
    rewrite Hscan. cbn. rewrite Hrs. cbn. eauto.
Qed.

End controller_more.

Lemma jobBatchManagement_kill_signal_witness :
  scanComplete sample_controller = false
  /\ exists now w1 result w2 tr,
      time_Now simRuntime (sample_world [] []) = (now, w1)
      /\ PatchScan simBackend "scan-1"
           {| Scan_EndTime := Some now;
              Scan_State := Some ScanStateFailed;
              Scan_StateMessage := Some "Scan was canceled or timed out";
              Scan_StateReason := Some ScanStateReasonTimedOut;
              Scan_Summary := None |} w1 = (result, w2)
      /\ jobBatchManagement_loop simBackend simRuntime
           (sample_scanner DeleteJobPolicyAlways)
           [KillRecv; DoneRecv "target-1"] sample_controller (sample_world [] [])
         = (Returned {| targetIDToScanData := sample_targets;
                        anyJobsFailed := false;
                        numberOfCompletedJobs := 0;
                        scanComplete := true |}, w2, tr)
      /\ patches tr
         = [{| Scan_EndTime := Some now;
               Scan_State := Some ScanStateFailed;
               Scan_StateMessage := Some "Scan was canceled or timed out";
               Scan_StateReason := Some ScanStateReasonTimedOut;
               Scan_Summary := None |}].
Proof.
  split; [reflexivity|].
  apply (jobBatchManagement_kill_signal simBackend simRuntime
           (sample_scanner DeleteJobPolicyAlways) [DoneRecv "target-1"]
           sample_controller (sample_world [] [])).
  reflexivity.
Defined.

Lemma jobBatchManagement_loop_ends_terminal_witness :
  scanComplete sample_controller = false
  /\ exists c' w' tr,
      jobBatchManagement_loop simBackend simRuntime
        (sample_scanner DeleteJobPolicyAlways)
        [WorkerWrite "target-1" true true false; DoneRecv "target-1"]
        sample_controller (sample_world [sample_result sample_status_done] [])
      = (Returned c', w', tr)
      /\ scanComplete c' = true
      /\ exists p, last (patches tr) = Some p /\ final_patch c' p.
Proof.
  split; [reflexivity|].
  exists (returned sample_controller (fst (fst sample_loop_run))),
         (snd (fst sample_loop_run)), (snd sample_loop_run).
  split; [vm_compute; reflexivity|].
  apply (jobBatchManagement_loop_ends_terminal simBackend simRuntime
           (sample_scanner DeleteJobPolicyAlways)
           [WorkerWrite "target-1" true true false; DoneRecv "target-1"]
           sample_controller
           (returned sample_controller (fst (fst sample_loop_run)))
           (sample_world [sample_result sample_status_done] [])
           (snd (fst sample_loop_run)) (snd sample_loop_run)).
  - reflexivity.
  - vm_compute; reflexivity.
Defined.

Lemma jobBatchManagement_failed_job_excludes_done_witness :
  exists c' w' tr p,
    scanComplete sample_failed_controller = false
    /\ targetIDToScanData sample_failed_controller !! "target-1" = Some sample_data
    /\ success sample_data = false
    /\ jobBatchManagement_loop simBackend simRuntime
         (sample_scanner DeleteJobPolicyAlways) [DoneRecv "target-1"]
         sample_failed_controller (sample_world [sample_result sample_status_done] [])
       = (Returned c', w', tr)
    /\ last (patches tr) = Some p
    /\ Scan_State p <> Some ScanStateDone.
Proof.
  exists (returned sample_failed_controller (fst (fst sample_failed_run))),
         (snd (fst sample_failed_run)), (snd sample_failed_run),
         (default Scan_empty (last (patches (snd sample_failed_run)))).
  split; [reflexivity|]. split; [reflexivity|]. split; [reflexivity|].
  split; [vm_compute; reflexivity|]. split; [vm_compute; reflexivity|].
  apply (jobBatchManagement_failed_job_excludes_done simBackend simRuntime
           (sample_scanner DeleteJobPolicyAlways) "target-1" []
           sample_failed_controller
           (returned sample_failed_controller (fst (fst sample_failed_run)))
           sample_data
           (sample_world [sample_result sample_status_done] [])
           (snd (fst sample_failed_run)) (snd sample_failed_run)
           (default Scan_empty (last (patches (snd sample_failed_run))))).
  - reflexivity.
  - reflexivity.
  - reflexivity.
  - vm_compute; reflexivity.
  - vm_compute; reflexivity.
Defined.

Lemma jobBatchManagement_done_fetch_failure_witness :
  exists e w1,
    sample_two_targets !! "target-1" = Some sample_data
    /\ int_add 0 1 <> Z.of_nat (size sample_two_targets)
    /\ createScanWithUpdatedSummary simBackend (sample_scanner DeleteJobPolicyAlways)
         sample_data (sample_world [sample_result sample_status_done] [true])
       = (Returned (None, Some e), w1, [])
    /\ exists result w2 tr,
        PatchScan simBackend "scan-1" Scan_empty w1 = (result, w2)
        /\ jobBatchManagement_done simBackend simRuntime
             (sample_scanner DeleteJobPolicyAlways) "target-1"
             {| targetIDToScanData := sample_two_targets; anyJobsFailed := false;
                numberOfCompletedJobs := 0; scanComplete := false |}
             (sample_world [sample_result sample_status_done] [true])
           = (Returned {| targetIDToScanData := sample_two_targets;
                          anyJobsFailed := false || negb (success sample_data);
                          numberOfCompletedJobs := int_add 0 1;
                          scanComplete := false |}, w2, tr)
        /\ patches tr = [Scan_empty].
Proof.
  eexists _, _.
  split; [reflexivity|]. split; [vm_compute; discriminate|]. split; [reflexivity|].
  eapply (jobBatchManagement_done_fetch_failure simBackend simRuntime
            (sample_scanner DeleteJobPolicyAlways) "target-1"
            {| targetIDToScanData := sample_two_targets; anyJobsFailed := false;
               numberOfCompletedJobs := 0; scanComplete := false |}
            sample_data).
  - reflexivity.
  - vm_compute; discriminate.
  - reflexivity.
Defined.

(** ** What a computation returns and emits *)

Section ensuring.
Context {W : Type}.

Lemma ensures_ret {A} (a : A) (Q : A -> list Action -> Prop) :
  Q a [] -> ensures (mret a : M W A) Q.
Proof. intros H w a' w' tr E. injection E as <- _ <-. exact H. Qed.

Lemma ensures_blocked {A} (Q : A -> list Action -> Prop) :
  ensures (blocked : M W A) Q.
Proof. intros w a w' tr E. discriminate E. Qed.

Lemma ensures_weaken {A} (m : M W A) (Q Q' : A -> list Action -> Prop) :
  ensures m Q -> (forall a tr, Q a tr -> Q' a tr) -> ensures m Q'.
Proof. intros Hm HQ w a w' tr E. eauto. Qed.

Lemma ensures_bind {A B} (m : M W A) (k : A -> M W B)
    (Q1 : A -> list Action -> Prop) (Q : B -> list Action -> Prop) :
  ensures m Q1 ->
  (forall a t1, Q1 a t1 -> ensures (k a) (fun b t2 => Q b (t1 ++ t2))) ->
  ensures (m ≫= k) Q.
Proof.
  intros Hm Hk w b w' tr E.
  apply bind_inv in E as (a & w1 & t1 & t2 & E1 & E2 & ->).
  eapply Hk; eauto.
Qed.

Lemma ensures_call_bind {A B} (op : W -> A * W) (k : A -> M W B)
    (Q : B -> list Action -> Prop) :
  (forall a, ensures (k a) Q) -> ensures (call op ≫= k) Q.
Proof.
  intros Hk w b w' tr E.
  apply bind_call_inv in E as (a & w1 & _ & E). eapply Hk; eauto.
Qed.

Lemma ensures_emit_bind {B} (x : Action) (k : unit -> M W B)
    (Q : B -> list Action -> Prop) :
  ensures (k tt) (fun b t => Q b (x :: t)) -> ensures (emit x ≫= k) Q.
Proof.
  intros Hk w b w' tr E.
  apply bind_inv in E as ([] & w1 & t1 & t2 & E1 & E2 & ->).
  injection E1 as <- <-. eapply Hk; eauto.
Qed.

Lemma ensures_deref_bind {A B} (o : option A) (k : A -> M W B)
    (Q : B -> list Action -> Prop) :
  (forall a, o = Some a -> ensures (k a) Q) -> ensures (deref o ≫= k) Q.
Proof.
  intros Hk w b w' tr E.
  apply bind_deref_inv in E as (a & Ho & E). eapply Hk; eauto.
Qed.

Lemma ensures_ret_bind {A B} (a : A) (k : A -> M W B)
    (Q : B -> list Action -> Prop) :
  ensures (k a) Q -> ensures (mret a ≫= k) Q.
Proof.
  intros Hk w b w' tr E.
  apply bind_inv in E as (a' & w1 & t1 & t2 & E1 & E2 & ->).
  injection E1 as <- <- <-. eapply Hk; eauto.
Qed.

End ensuring.

Ltac ensures_step :=
  first
    [ apply ensures_call_bind; intros ?
    | apply ensures_emit_bind
    | apply ensures_ret_bind
    | apply ensures_blocked
    | match goal with
      | |- ensures ((if ?b then _ else _) ≫= _) _ => destruct b eqn:?
      end
    | match goal with
      | |- ensures (match ?x with _ => _ end) _ => destruct x eqn:?
      | |- ensures (if ?b then _ else _) _ => destruct b eqn:?
      end ].

Lemma sends_none (tr : list Action) :
  forallb (fun a => negb (is_send a)) tr = true -> sends tr = [].
Proof.
  induction tr as [|[] tr IH]; simpl; intros H; try discriminate H; auto.
Qed.

Lemma sends_app (l1 l2 : list Action) : sends (l1 ++ l2) = sends l1 ++ sends l2.
Proof.
  induction l1 as [|[] l1 IH]; simpl; auto. now rewrite IH.
Qed.

Lemma logs_quiet (P : Action -> bool) (tr : list Action) :
  (forall level format args, P (ActLog level format args) = true) ->
  forallb is_log tr = true -> forallb P tr = true.
Proof.
  intros HP. induction tr as [|[] tr IH]; simpl; intros H; try discriminate H; auto.
  rewrite HP. auto.
Qed.

(** ** More on the job pipeline *)

Section pipeline_more.
Context {W : Type} (bc : BackendClient W) (pc : ProviderClient W) (rt : Runtime W)
  (s : Scanner).

Lemma runJob_launch_ensures (data : scanData) (job : Job) (sn : Snapshot) :
  ensures (runJob_launch bc pc s data job sn)
    (fun r tr =>
       let '(err, job', (j, e)) := r in
       match e with
       | Some _ => j = Job_zero
       | None =>
           err = None /\ j = job'
           /\ is_Some (Job_Instance j) /\ is_Some (Job_Volume j)
           /\ Job_SrcSnapshot j = Job_SrcSnapshot job
           /\ Job_DstSnapshot j = Job_DstSnapshot job
           /\ status_patches tr
              = [(scanResultID data,
                  {| Status_Exploits := None;
                     Status_General :=
                       Some {| TargetScanState_Errors := None;
                               TargetScanState_State := Some ATTACHED |};
                     Status_Malware := None; Status_Misconfigurations := None;
                     Status_Rootkits := None; Status_Sbom := None;
                     Status_Secrets := None; Status_Vulnerabilities := None |},
                  None)]
       end).
Proof.
  unfold runJob_launch, runJob_exit, log.
  repeat first [ensures_step | apply ensures_ret; cbn; eauto 10].
Qed.

Lemma runJob_body_ensures (data : scanData) :
  ensures (runJob_body bc pc s data)
    (fun r tr =>
       let '(err, job, (j, e)) := r in
       match e with
       | Some _ => j = Job_zero
       | None =>
           err = None /\ j = job
           /\ is_Some (Job_Instance j) /\ is_Some (Job_Volume j)
           /\ (exists sn, Job_SrcSnapshot j = Some sn
                /\ (is_Some (Job_DstSnapshot j)
                    <-> Region (config s) <> Snapshot_GetRegion sn))
           /\ status_patches tr
              = [(scanResultID data,
                  {| Status_Exploits := None;
                     Status_General :=
                       Some {| TargetScanState_Errors := None;
                               TargetScanState_State := Some ATTACHED |};
                     Status_Malware := None; Status_Misconfigurations := None;
                     Status_Rootkits := None; Status_Sbom := None;
                     Status_Secrets := None; Status_Vulnerabilities := None |},
                  None)]
       end).
Proof.
  unfold runJob_body, runJob_exit, log.
  apply ensures_emit_bind.
  apply ensures_call_bind; intros [volume|err]; [|now apply ensures_ret].
  apply ensures_call_bind; intros [snapshot|err]; [|now apply ensures_ret].
  apply ensures_call_bind; intros [err|]; [now apply ensures_ret|].
  destruct (String.eqb (Region (config s)) (Snapshot_GetRegion snapshot)) eqn:Hregion;
    cbn [negb].
  - apply String.eqb_eq in Hregion.
    eapply ensures_weaken; [apply runJob_launch_ensures|].
    intros [[err job] [j [e|]]] tr; cbn; [auto|].
    intros (-> & -> & Hi & Hv & Hsrc & Hdst & Hpatch).
    repeat split; auto.
    + exists snapshot. split; [exact Hsrc|]. rewrite Hdst. cbn. split.
      * intros [x Hx]. discriminate Hx.
      * intros Hne. contradiction.
  - apply String.eqb_neq in Hregion.
    apply ensures_call_bind; intros [cpySnapshot|err]; [|now apply ensures_ret].
    apply ensures_call_bind; intros [err|]; [now apply ensures_ret|].
    eapply ensures_weaken; [apply runJob_launch_ensures|].
    intros [[err job] [j [e|]]] tr; cbn; [auto|].
    intros (-> & -> & Hi & Hv & Hsrc & Hdst & Hpatch).
    repeat split; auto.
    exists snapshot. split; [exact Hsrc|]. rewrite Hdst. cbn. split; eauto.
Qed.

Lemma runJob_ensures (data : scanData) :
  ensures (runJob bc pc s data)
    (fun r tr =>
       let '(job, e) := r in
       match e with
       | Some _ => job = Job_zero
       | None =>
           deletions tr = []
           /\ is_Some (Job_Instance job) /\ is_Some (Job_Volume job)
           /\ (exists sn, Job_SrcSnapshot job = Some sn
                /\ (is_Some (Job_DstSnapshot job)
                    <-> Region (config s) <> Snapshot_GetRegion sn))
           /\ status_patches tr
              = [(scanResultID data,
                  {| Status_Exploits := None;
                     Status_General :=
                       Some {| TargetScanState_Errors := None;
                               TargetScanState_State := Some ATTACHED |};
                     Status_Malware := None; Status_Misconfigurations := None;
                     Status_Rootkits := None; Status_Sbom := None;
                     Status_Secrets := None; Status_Vulnerabilities := None |},
                  None)]
       end).
Proof.
  intros w [job e] w' tr Hrun. unfold runJob in Hrun.
  apply bind_inv in Hrun as ([[err job'] returned] & w1 & t1 & t2 & Hbody & Hrest & ->).
  pose proof (runJob_body_ensures data _ _ _ _ Hbody) as Hspec.
  pose proof (runJob_body_deletes_nothing bc pc s data w) as Hquiet.
  rewrite Hbody in Hquiet. apply deletions_none in Hquiet. cbn in Hquiet.
  apply bind_inv in Hrest as ([] & w2 & t3 & t4 & Hclean & Hret & ->).
  injection Hret as -> <- <-.
  cbn in Hspec. destruct e as [e|]; [exact Hspec|].
  destruct Hspec as (-> & -> & Hi & Hv & Hsn & Hpatch).
  injection Hclean as <- <-.
  rewrite !app_nil_r. repeat split; auto.
Qed.


(** X8.  The cleanup after a failed attachment.  When every step up to
    the attachment of the volume succeeds and the attachment fails,
    [runJob] returns the empty Job with an error whose text is
    [failed to attach volume: ] followed by the text of the failure, after
    it has called
    [Delete] of the provider, in this order, on the scanner instance, the
    snapshot and the volume it had created: it returns in the world those
    three calls leave, each made whatever the one before answered. *)
Theorem runJob_attach_failure_cleans_up (data : scanData) (yaml : string)
    (volume newVolume : Volume) (snapshot : Snapshot) (launchInstance : Instance)
    (e : error) (w w1 w2 w3 w4 w5 w6 w7 w8 : W) :
  familiesYaml s = OK yaml ->
  Instance_GetRootVolume pc (Target_Instance (targetInstance data)) w
  = (OK volume, w1) ->
  Volume_TakeSnapshot pc volume w1 = (OK snapshot, w2) ->
  Snapshot_WaitForReady pc snapshot SnapshotCreationTimeout w2 = (None, w3) ->
  Region (config s) = Snapshot_GetRegion snapshot ->
  RunScanningJob pc (Snapshot_GetRegion snapshot) (Snapshot_GetID snapshot)
    {| Cfg_ScannerImage := ScannerImage (config s);
       Cfg_ScannerCLIConfig := yaml;
       Cfg_VMClarityAddress := ScannerBackendAddress (config s);
       Cfg_ScanResultID := scanResultID data;
       Cfg_KeyPairName := ScannerKeyPairName (config s);
       Cfg_ScannerInstanceCreationConfig := scannerInstanceCreationConfig s |} w3
  = (OK launchInstance, w4) ->
  Snapshot_CreateVolume pc snapshot (Instance_GetAvailabilityZone launchInstance) w4
  = (OK newVolume, w5) ->
  Instance_WaitForReady pc launchInstance w5 = (None, w6) ->
  Volume_WaitForReady pc newVolume w6 = (None, w7) ->
  Instance_AttachVolume pc launchInstance newVolume (DeviceName (config s)) w7
  = (Some e, w8) ->
  exists tr,
    runJob bc pc s data w
    = (Returned (Job_zero,
                 Some (errorString ("failed to attach volume: " +:+ error_Error e))),
       (delete_each pc
          [ResInstance launchInstance; ResSnapshot snapshot; ResVolume newVolume]
          w8).2,
       tr)
    /\ deletion_answers tr
       = (delete_each pc
            [ResInstance launchInstance; ResSnapshot snapshot; ResVolume newVolume]
            w8).1
    /\ deletions tr
       = [ResInstance launchInstance; ResSnapshot snapshot; ResVolume newVolume].
Proof.
  intros Hyaml Hroot Hsnap Hready Hregion Hlaunch Hvolume Hiready Hvready Hattach.
  assert (Hbody :
    runJob_body bc pc s data w
    = (Returned (Some e,
                 {| Job_Instance := Some launchInstance;
                    Job_SrcSnapshot := Some snapshot;
                    Job_DstSnapshot := None;
                    Job_Volume := Some newVolume |},
                 (Job_zero, Some (Errorf "failed to attach volume: %v" [error_Error e]))),
       w8,
       [ActLog LogInfo "Running scanner job for instance id %v"
          [Instance_GetID (Target_Instance (targetInstance data))]])).
  { unfold runJob_body, runJob_launch, runJob_exit. unfold_M.
    rewrite Hroot. cbv beta iota. rewrite Hsnap. cbv beta iota.
    rewrite Hready. cbv beta iota.
    rewrite Hregion, String.eqb_refl. cbn [negb]. cbv beta iota.
    rewrite Hyaml. cbv beta iota zeta. rewrite Hlaunch. cbv beta iota.
    rewrite Hvolume. cbv beta iota. rewrite Hiready. cbv beta iota.
    rewrite Hvready. cbv beta iota. rewrite Hattach. reflexivity. }
  destruct (deleteJob_effect pc
              {| Job_Instance := Some launchInstance;
                 Job_SrcSnapshot := Some snapshot;
                 Job_DstSnapshot := None;
                 Job_Volume := Some newVolume |} w8)
    as (td & Hdelete & Hanswers & Hdel & _).
  eexists. split.
  - unfold runJob. rewrite (bind_returned _ _ _ _ _ _ Hbody). cbv beta iota.
    rewrite (bind_returned _ _ _ _ _ _ Hdelete). render_text. reflexivity.
  - cbn [app deletion_answers deletions]. rewrite app_nil_r. split.
    + exact Hanswers.
    + exact Hdel.
Qed.

End pipeline_more.

(** ** More on the worker *)

Section worker_more.
Context {W : Type} (bc : BackendClient W) (pc : ProviderClient W) (rt : Runtime W)
  (s : Scanner).

Lemma scanStatusHasErrors_ensures (status : TargetScanStatus) :
  ensures (scanStatusHasErrors status : M W bool) (fun _ tr => tr = []).
Proof.
  unfold scanStatusHasErrors. apply ensures_deref_bind; intros general _.
  repeat first [ensures_step | now apply ensures_ret].
Qed.

Lemma waitForResult_loop_ensures (events : list WaitSelect) (data : scanData) :
  ensures (waitForResult_loop bc s events data)
    (fun data' tr =>
       forallb is_log tr = true
       /\ targetInstance data' = targetInstance data
       /\ scanResultID data' = scanResultID data
       /\ (timeout data' = true ->
           timeout data = true \/ (success data' = false /\ completed data' = true))).
Proof.
  induction events as [|[] events IH]; cbn [waitForResult_loop]; unfold log.
  - apply ensures_blocked.
  - repeat first
      [ eapply ensures_weaken; [apply IH|]; cbn; intros ? ? ?; assumption
      | eapply ensures_bind; [apply scanStatusHasErrors_ensures|]; intros ? ? ->
      | ensures_step
      | apply ensures_ret; cbn; auto ].
  - apply ensures_emit_bind. apply ensures_ret. cbn. auto 6.
  - apply ensures_emit_bind. apply ensures_ret. cbn. auto 6.
Qed.

Lemma waitForResult_ensures (events : list WaitSelect) (data : scanData) :
  ensures (waitForResult bc s events data)
    (fun data' tr =>
       forallb is_log tr = true
       /\ targetInstance data' = targetInstance data
       /\ scanResultID data' = scanResultID data
       /\ (timeout data' = true ->
           timeout data = true \/ (success data' = false /\ completed data' = true))).
Proof.
  unfold waitForResult, log. apply ensures_emit_bind.
  eapply ensures_weaken; [apply waitForResult_loop_ensures|].
  cbn. intros ? ? ?; assumption.
Qed.

Lemma logs_delete_nothing (tr : list Action) :
  forallb is_log tr = true -> deletions tr = [].
Proof.
  intros H. apply deletions_none. now apply logs_quiet.
Qed.

Lemma handleScanData_ensures (wait : list WaitSelect) (data : scanData) :
  ensures (handleScanData bc pc s wait data)
    (fun r tr =>
       let '(job, err, data') := r in
       targetInstance data' = targetInstance data
       /\ scanResultID data' = scanResultID data
       /\ (is_Some err <-> job = None)
       /\ (timeout data = false -> timeout data' = true ->
           job = None /\ deletions tr = []
           /\ success data' = false /\ completed data' = true)).
Proof.
  unfold handleScanData.
  assert (Hwaiting : forall job,
    ensures ((data0 ← waitForResult bc s wait data;
              if timeout data0
              then mret (None,
                         Some (Errorf "scan job for target %s timed out: %v"
                                 [TargetID (targetInstance data0); "<nil>"]),
                         data0)
              else mret (Some job, None, data0))
             : M W (option Job * option error * scanData))
      (fun r tr =>
         let '(job, err, data') := r in
         targetInstance data' = targetInstance data
         /\ scanResultID data' = scanResultID data
         /\ (is_Some err <-> job = None)
         /\ (timeout data = false -> timeout data' = true ->
             job = None /\ deletions tr = []
             /\ success data' = false /\ completed data' = true))).
  { intros job. eapply ensures_bind; [apply waitForResult_ensures|].
    intros data0 t1 (Hlogs & Hti & Hid & Htimeout).
    destruct (timeout data0) eqn:Ht; apply ensures_ret; rewrite app_nil_r.
    - split; [exact Hti|]. split; [exact Hid|]. split; [split; eauto|].
      intros Hfresh _.
      destruct (Htimeout eq_refl) as [Hold|[Hs Hc]]; [congruence|].
      auto using logs_delete_nothing.
    - split; [exact Hti|]. split; [exact Hid|]. split.
      + split; [intros [x Hx]; discriminate Hx|intros Hx; discriminate Hx].
      + intros _ Hx. congruence. }
  apply ensures_call_bind; intros [scanResultStatus|err].
  2: { apply ensures_ret. repeat split; eauto; congruence. }
  destruct (GetGeneralState scanResultStatus) as [state ok].
  destruct ok; cbn [negb].
  2: { apply ensures_ret. repeat split; eauto; congruence. }
  assert (Hsettled :
    ensures (mret (Some Job_zero, None, data)
             : M W (option Job * option error * scanData))
      (fun r tr =>
         let '(job, err, data') := r in
         targetInstance data' = targetInstance data
         /\ scanResultID data' = scanResultID data
         /\ (is_Some err <-> job = None)
         /\ (timeout data = false -> timeout data' = true ->
             job = None /\ deletions tr = []
             /\ success data' = false /\ completed data' = true))).
  { apply ensures_ret. split; [reflexivity|]. split; [reflexivity|]. split.
    - split; [intros [x Hx]; discriminate Hx|intros Hx; discriminate Hx].
    - congruence. }
  destruct state; try apply Hwaiting; try exact Hsettled.
  eapply ensures_bind; [apply runJob_ensures|].
  intros [job [e|]] t1 Hjob.
  - apply ensures_ret. cbn. split; [reflexivity|]. split; [reflexivity|].
    split; [split; eauto|]. congruence.
  - destruct Hjob as (Hdel & _).
    eapply ensures_weaken; [apply Hwaiting|].
    intros [[job' err'] data'] tr (Hti & Hid & Herr & Htimeout).
    split; [exact Hti|]. split; [exact Hid|]. split; [exact Herr|].
    intros Hfresh Ht. destruct (Htimeout Hfresh Ht) as (? & ? & ? & ?).
    rewrite deletions_app, Hdel. auto.
Qed.

Lemma emits_only_weaken {A} (P P' : Action -> bool) (m : M W A) :
  (forall a, P a = true -> P' a = true) -> emits_only P m -> emits_only P' m.
Proof.
  intros HP Hm w. specialize (Hm w). revert Hm.
  generalize (m w).2. intros tr. induction tr as [|a tr IH]; cbn; auto.
  intros [Ha Htr]%andb_prop. rewrite (HP a Ha). auto.
Qed.

Lemma waitForResult_loop_logs (events : list WaitSelect) (data : scanData) :
  emits_only is_log (waitForResult_loop bc s events data).
Proof.
  induction events as [|[] events IH]; cbn [waitForResult_loop];
    unfold log, scanStatusHasErrors;
    repeat first [apply IH | emits_only_step].
Qed.

Lemma deleteJob_sends_nothing (job : Job) :
  emits_only (fun a => negb (is_send a)) (deleteJob pc job).
Proof.
  unfold deleteJob, deleteAndLog, Delete, log. repeat emits_only_step.
Qed.

Lemma deleteJobIfNeeded_sends_nothing (job : option Job) (success completed : bool) :
  emits_only (fun a => negb (is_send a)) (deleteJobIfNeeded pc s job success completed).
Proof.
  unfold deleteJobIfNeeded.
  repeat first [apply deleteJob_sends_nothing | emits_only_step].
Qed.

Lemma runJob_sends_nothing (data : scanData) :
  emits_only (fun a => negb (is_send a)) (runJob bc pc s data).
Proof.
  unfold runJob, runJob_body, runJob_launch, runJob_exit, log.
  repeat first [apply deleteJob_sends_nothing | emits_only_step].
Qed.

Lemma handleScanData_sends_nothing (wait : list WaitSelect) (data : scanData) :
  emits_only (fun a => negb (is_send a)) (handleScanData bc pc s wait data).
Proof.
  assert (Hwait : forall data,
    emits_only (fun a => negb (is_send a)) (waitForResult bc s wait data)).
  { intros d. unfold waitForResult, log.
    apply emits_only_bind; [now apply emits_only_emit|]. intros _.
    eapply emits_only_weaken; [|apply waitForResult_loop_logs].
    now intros []. }
  unfold handleScanData.
  repeat first [apply Hwait | apply runJob_sends_nothing | emits_only_step].
Qed.

(** What one turn of the worker is made of. *)
Lemma worker_item_inv (data : scanData) (wait : list WaitSelect) (send : SendSelect)
    (w w' : W) (data' : scanData) (tr : list Action) :
  worker_item bc pc rt s data wait send w = (Returned data', w', tr) ->
  exists job err w1 w2 w3 t1 t2 t3,
    handleScanData bc pc s wait data w = (Returned (job, err, data'), w1, t1)
    /\ forallb is_log t2 = true
    /\ (err = None -> t2 = [])
    /\ deleteJobIfNeeded pc s job (success data') (completed data') w2
       = (Returned tt, w3, t3)
    /\ tr = t1 ++ t2 ++ t3
            ++ match send with
               | SentDone => [ActSendDone (TargetID (targetInstance data'))]
               | SendKill =>
                   [ActLog LogInfo "Instance scan was canceled. targetID=%v"
                      [TargetID (targetInstance data')]]
               end.
Proof.
  intros Hrun. unfold worker_item in Hrun.
  apply bind_inv in Hrun as ([[job err] data1] & w1 & t1 & ta & Hh & Hrest & ->).
  apply bind_inv in Hrest as ([] & w2 & t2 & tb & Hreport & Hrest & ->).
  apply bind_inv in Hrest as ([] & w3 & t3 & tc & Hdelete & Hrest & ->).
  apply bind_inv in Hrest as ([] & w4 & t4 & t5 & Hsend & Hret & ->).
  injection Hret as <- <- <-.
  exists job, err, w1, w2, w3, t1, t2, t3.
  split; [exact Hh|]. split; [|split; [|split; [exact Hdelete|]]].
  - destruct err as [e|]; [|now injection Hreport as <- <-].
    unfold log in Hreport.
    apply bind_inv in Hreport as ([] & wa & ta & tb & Ha & Hb & ->).
    injection Ha as <- <-.
    apply bind_call_inv in Hb as ([e'|] & wb & _ & Hb);
      now injection Hb as <- <-.
  - intros ->. now injection Hreport as <- <-.
  - rewrite app_nil_r. destruct send; now injection Hsend as <- <-.
Qed.

(** X9.  A wait that times out leaks the job: when the turn of the worker
    on a fresh item ends with the timeout flag set, the item is marked
    completed and failed and no deletion was attempted, whatever the
    delete policy. *)
Theorem worker_item_timeout_deletes_nothing (data : scanData)
    (wait : list WaitSelect) (send : SendSelect) (w w' : W) (data' : scanData)
    (tr : list Action) :
  timeout data = false ->
  worker_item bc pc rt s data wait send w = (Returned data', w', tr) ->
  timeout data' = true ->
  deletions tr = [] /\ success data' = false /\ completed data' = true.
Proof.
  intros Hfresh Hrun Htimeout.
  apply worker_item_inv in Hrun
    as (job & err & w1 & w2 & w3 & t1 & t2 & t3 & Hh & Hlogs & _ & Hdelete & ->).
  destruct (handleScanData_ensures wait data _ _ _ _ Hh)
    as (_ & _ & _ & Hleak).
  destruct (Hleak Hfresh Htimeout) as (-> & Hdel & Hs & Hc).
  injection Hdelete as _ <-.
  rewrite !deletions_app, Hdel, (logs_delete_nothing _ Hlogs).
  split; [|auto]. now destruct send.
Qed.

Lemma worker_item_signal (data : scanData) (wait : list WaitSelect)
    (send : SendSelect) (w w' : W) (data' : scanData) (tr : list Action) :
  worker_item bc pc rt s data wait send w = (Returned data', w', tr) ->
  sends tr = match send with
             | SentDone => [TargetID (targetInstance data)]
             | SendKill => []
             end
  /\ targetInstance data' = targetInstance data
  /\ scanResultID data' = scanResultID data.
Proof.
  intros Hrun.
  apply worker_item_inv in Hrun
    as (job & err & w1 & w2 & w3 & t1 & t2 & t3 & Hh & Hlogs & _ & Hdelete & ->).
  pose proof (handleScanData_sends_nothing wait data w) as H1.
  rewrite Hh in H1. apply sends_none in H1. cbn in H1.
  pose proof (deleteJobIfNeeded_sends_nothing job (success data') (completed data') w2)
    as H3.
  rewrite Hdelete in H3. apply sends_none in H3. cbn in H3.
  assert (H2 : sends t2 = []).
  { apply sends_none. apply logs_quiet; [reflexivity|exact Hlogs]. }
  destruct (handleScanData_ensures wait data _ _ _ _ Hh) as (Hti & Hid & _).
  assert (Hkeep : targetInstance data' = targetInstance data
                  /\ scanResultID data' = scanResultID data) by auto.
  rewrite !sends_app, H1, H2, H3. split; [|exact Hkeep].
  destruct Hkeep as [-> _]. now destruct send.
Qed.

(** X10.  A worker that halts has signalled on [done], in the order of the
    queue, the target of every item whose send was taken, each once, with
    jobs that failed included, and has handled the items it received
    without changing their target or scan result id. *)
Theorem worker_signals_in_order (workNumber : Z) (events : list WorkerSelect)
    (w w' : W) (items : list scanData) (tr : list Action) :
  worker bc pc rt s workNumber events w = (Returned items, w', tr) ->
  sends tr = signalled events
  /\ List.map targetInstance items = List.map targetInstance (received events)
  /\ List.map scanResultID items = List.map scanResultID (received events).
Proof.
  revert w w' items tr.
  induction events as [|[data wait send|] events IH]; intros w w' items tr Hrun;
    cbn [worker] in Hrun.
  - discriminate Hrun.
  - apply bind_inv in Hrun as (data' & w1 & t1 & t2 & Hitem & Hrest & ->).
    apply bind_inv in Hrest as (rest & w2 & t3 & t4 & Hworker & Hret & ->).
    injection Hret as <- _ <-.
    destruct (worker_item_signal _ _ _ _ _ _ _ Hitem) as (Hsend & Hti & Hid).
    destruct (IH _ _ _ _ Hworker) as (Hsends & Htis & Hids).
    rewrite app_nil_r, sends_app, Hsend, Hsends. cbn.
    rewrite Hti, Hid, Htis, Hids. now destruct send.
  - unfold log in Hrun.
    apply bind_inv in Hrun as ([] & w1 & t1 & t2 & Hlog & Hret & ->).
    injection Hlog as _ <-. injection Hret as <- _ <-. auto.
Qed.

(** X11.  A target whose scan result is already in state DONE or
    NOT_SCANNED is not scanned again: the turn of the worker reads the
    status once, makes no other call, emits nothing but the done signal
    (or the line that the send was cancelled), and leaves the item as it
    was. *)
Theorem worker_item_settled_target (data : scanData) (wait : list WaitSelect)
    (send : SendSelect) (w w1 : W) (status : TargetScanStatus)
    (state : TargetScanStateState) :
  GetScanResultStatus bc (scanResultID data) w = (OK status, w1) ->
  GetGeneralState status = (state, true) ->
  state = DONE \/ state = NOTSCANNED ->
  worker_item bc pc rt s data wait send w
  = (Returned data, w1,
     match send with
     | SentDone => [ActSendDone (TargetID (targetInstance data))]
     | SendKill =>
         [ActLog LogInfo "Instance scan was canceled. targetID=%v"
            [TargetID (targetInstance data)]]
     end).
Proof.
  intros Hstatus Hstate Hsettled.
  assert (Hh : handleScanData bc pc s wait data w
               = (Returned (Some Job_zero, None, data), w1, [])).
  { unfold handleScanData. unfold_M. rewrite Hstatus, Hstate. cbn [negb].
    destruct Hsettled as [-> | ->]; reflexivity. }
  assert (Hdelete : deleteJobIfNeeded pc s (Some Job_zero) (success data)
                      (completed data) w1 = (Returned tt, w1, [])).
  { unfold deleteJobIfNeeded.
    pose proof (deleteJob_nothing pc Job_zero w1 eq_refl) as Hnothing.
    destruct (negb (completed data)); [exact Hnothing|].
    destruct (DeleteJobPolicy (config s)); try reflexivity; try exact Hnothing.
    destruct (success data); [exact Hnothing|reflexivity]. }
  unfold worker_item. unfold_M. rewrite Hh. cbv beta iota. rewrite Hdelete.
  destruct send; reflexivity.
Qed.

(** X12.  When the status of the scan result cannot be read, or carries no
    general state, the turn of the worker starts no job: it reports the
    error text, with the id of the scan result and the failure filled in,
    to the backend through [SetTargetScanStatusCompletionError],
    attempts no deletion, patches no status, signals the target on [done]
    and leaves the flags of the item as they were. *)
Theorem worker_item_status_unavailable (data : scanData) (wait : list WaitSelect)
    (w w1 : W) :
  (forall e,
     GetScanResultStatus bc (scanResultID data) w = (Err e, w1) ->
     exists r w2 tr,
       SetTargetScanStatusCompletionError rt (scanResultID data)
         ("failed to fetch status of ScanResult with id " +:+ scanResultID data
          +:+ ": " +:+ error_Error e) w1 = (r, w2)
       /\ worker_item bc pc rt s data wait SentDone w = (Returned data, w2, tr)
       /\ deletions tr = [] /\ status_patches tr = []
       /\ sends tr = [TargetID (targetInstance data)])
  /\ (forall status state,
        GetScanResultStatus bc (scanResultID data) w = (OK status, w1) ->
        GetGeneralState status = (state, false) ->
        exists r w2 tr,
          SetTargetScanStatusCompletionError rt (scanResultID data)
            ("cannot determine state of ScanResult with id " +:+ scanResultID data)
            w1 = (r, w2)
          /\ worker_item bc pc rt s data wait SentDone w = (Returned data, w2, tr)
          /\ deletions tr = [] /\ status_patches tr = []
          /\ sends tr = [TargetID (targetInstance data)]).
Proof.
  split.
  - intros e Hstatus.
    destruct (SetTargetScanStatusCompletionError rt (scanResultID data)
                ("failed to fetch status of ScanResult with id " +:+ scanResultID data
                 +:+ ": " +:+ error_Error e) w1) as [r w2] eqn:Hset.
    assert (Htext :
      error_Error (Errorf "failed to fetch status of ScanResult with id %s: %v"
                     [scanResultID data; error_Error e])
      = "failed to fetch status of ScanResult with id " +:+ scanResultID data
        +:+ ": " +:+ error_Error e).
    { render_text. reflexivity. }
    exists r, w2. destruct r; eexists; (split; [reflexivity|]);
      unfold worker_item, handleScanData; unfold_M; rewrite Hstatus; cbv beta iota;
      rewrite Htext, Hset; cbn; auto.
  - intros status state Hstatus Hstate.
    destruct (SetTargetScanStatusCompletionError rt (scanResultID data)
                ("cannot determine state of ScanResult with id " +:+ scanResultID data)
                w1) as [r w2] eqn:Hset.
    assert (Htext :
      error_Error (Errorf "cannot determine state of ScanResult with id %s"
                     [scanResultID data])
      = "cannot determine state of ScanResult with id " +:+ scanResultID data).
    { render_text. reflexivity. }
    exists r, w2. destruct r; eexists; (split; [reflexivity|]);
      unfold worker_item, handleScanData; unfold_M; rewrite Hstatus, Hstate;
      cbv beta iota; cbn [negb]; cbv beta iota; rewrite Htext, Hset; cbn; auto.
Qed.

End worker_more.


Lemma runJob_attach_failure_cleans_up_witness :
  exists tr,
    runJob simBackend simProvider (sample_scanner DeleteJobPolicyAlways) sample_data
      (sample_world [sample_result sample_status_init]
         [false; false; false; false; false; false; false; true; false; true])
    = (Returned (Job_zero,
                 Some (errorString "failed to attach volume: unavailable")),
       sample_world [sample_result sample_status_init] [], tr)
    /\ deletion_answers tr
       = [(ResInstance {| Instance_GetID := "scanner-snap-i-0abc-root";
                          Instance_GetAvailabilityZone := "us-east-1a" |}, None);
          (ResSnapshot {| Snapshot_GetID := "snap-i-0abc-root";
                          Snapshot_GetRegion := "us-east-1" |},
           Some sim_unavailable);
          (ResVolume {| Volume_GetID := "vol-snap-i-0abc-root" |}, None)]
    /\ deletions tr
       = [ResInstance {| Instance_GetID := "scanner-snap-i-0abc-root";
                         Instance_GetAvailabilityZone := "us-east-1a" |};
          ResSnapshot {| Snapshot_GetID := "snap-i-0abc-root";
                         Snapshot_GetRegion := "us-east-1" |};
          ResVolume {| Volume_GetID := "vol-snap-i-0abc-root" |}].
Proof.
  apply (runJob_attach_failure_cleans_up simBackend simProvider
           (sample_scanner DeleteJobPolicyAlways) sample_data
           "sbom: {enabled: true}"
           {| Volume_GetID := "i-0abc-root" |}
           {| Volume_GetID := "vol-snap-i-0abc-root" |}
           {| Snapshot_GetID := "snap-i-0abc-root";
              Snapshot_GetRegion := "us-east-1" |}
           {| Instance_GetID := "scanner-snap-i-0abc-root";
              Instance_GetAvailabilityZone := "us-east-1a" |}
           sim_unavailable
           (sample_world [sample_result sample_status_init]
              [false; false; false; false; false; false; false; true; false; true])
           (sample_world [sample_result sample_status_init]
              [false; false; false; false; false; false; true; false; true])
           (sample_world [sample_result sample_status_init]
              [false; false; false; false; false; true; false; true])
           (sample_world [sample_result sample_status_init]
              [false; false; false; false; true; false; true])
           (sample_world [sample_result sample_status_init]
              [false; false; false; true; false; true])
           (sample_world [sample_result sample_status_init]
              [false; false; true; false; true])
           (sample_world [sample_result sample_status_init]
              [false; true; false; true])
           (sample_world [sample_result sample_status_init] [true; false; true])
           (sample_world [sample_result sample_status_init] [false; true]));
    reflexivity.
Defined.

Lemma worker_item_timeout_deletes_nothing_witness :
  exists data' w' tr,
    timeout sample_data = false
    /\ worker_item simBackend simProvider simRuntime
         (sample_scanner DeleteJobPolicyAlways) sample_data [TimerTick; CtxDone]
         SentDone (sample_world [sample_result sample_status_init] [])
       = (Returned data', w', tr)
    /\ timeout data' = true
    /\ deletions tr = [] /\ success data' = false /\ completed data' = true.
Proof.
  exists (returned sample_data sample_timeout_run.1.1),
         sample_timeout_run.1.2, sample_timeout_run.2.
  split; [reflexivity|]. split; [vm_compute; reflexivity|].
  split; [reflexivity|].
  apply (worker_item_timeout_deletes_nothing simBackend simProvider simRuntime
           (sample_scanner DeleteJobPolicyAlways) sample_data [TimerTick; CtxDone]
           SentDone (sample_world [sample_result sample_status_init] [])
           sample_timeout_run.1.2 (returned sample_data sample_timeout_run.1.1)
           sample_timeout_run.2).
  - reflexivity.
  - vm_compute; reflexivity.
  - reflexivity.
Defined.

Lemma worker_signals_in_order_witness :
  exists items w' tr,
    worker simBackend simProvider simRuntime
      (sample_scanner DeleteJobPolicyAlways) 1 sample_worker_events
      (sample_world [sample_result sample_status_done] [])
    = (Returned items, w', tr)
    /\ sends tr = ["target-1"]
    /\ List.map targetInstance items
       = List.map targetInstance (received sample_worker_events)
    /\ List.map scanResultID items
       = List.map scanResultID (received sample_worker_events).
Proof.
  exists (returned [] sample_worker_run.1.1),
         sample_worker_run.1.2, sample_worker_run.2.
  split; [vm_compute; reflexivity|].
  apply (worker_signals_in_order simBackend simProvider simRuntime
           (sample_scanner DeleteJobPolicyAlways) 1 sample_worker_events
           (sample_world [sample_result sample_status_done] [])
           sample_worker_run.1.2 (returned [] sample_worker_run.1.1)
           sample_worker_run.2).
  vm_compute; reflexivity.
Defined.

Lemma worker_item_settled_target_witness :
  GetScanResultStatus simBackend (scanResultID sample_data)
    (sample_world [sample_result sample_status_done] [])
  = (OK sample_status_done, sample_world [sample_result sample_status_done] [])
  /\ GetGeneralState sample_status_done = (DONE, true)
  /\ worker_item simBackend simProvider simRuntime
       (sample_scanner DeleteJobPolicyNever) sample_data [] SentDone
       (sample_world [sample_result sample_status_done] [])
     = (Returned sample_data, sample_world [sample_result sample_status_done] [],
        [ActSendDone "target-1"]).
Proof.
  split; [reflexivity|]. split; [reflexivity|].
  apply (worker_item_settled_target simBackend simProvider simRuntime
           (sample_scanner DeleteJobPolicyNever) sample_data [] SentDone
           (sample_world [sample_result sample_status_done] [])
           (sample_world [sample_result sample_status_done] [])
           sample_status_done DONE).
  - reflexivity.
  - reflexivity.
  - left; reflexivity.
Defined.

Lemma worker_item_status_unavailable_witness :
  exists r w2 tr,
    SetTargetScanStatusCompletionError simRuntime "scan-1/target-1"
      "failed to fetch status of ScanResult with id scan-1/target-1: unavailable"
      (sample_world [sample_result sample_status_init] []) = (r, w2)
    /\ worker_item simBackend simProvider simRuntime
         (sample_scanner DeleteJobPolicyAlways) sample_data [] SentDone
         (sample_world [sample_result sample_status_init] [true])
       = (Returned sample_data, w2, tr)
    /\ deletions tr = [] /\ status_patches tr = []
    /\ sends tr = [TargetID (targetInstance sample_data)].
Proof.
  apply (proj1 (worker_item_status_unavailable simBackend simProvider simRuntime
                  (sample_scanner DeleteJobPolicyAlways) sample_data []
                  (sample_world [sample_result sample_status_init] [true])
                  (sample_world [sample_result sample_status_init] []))
           sim_unavailable).
  reflexivity.
Defined.

(** ** The configuration of the scanner CLI *)

Section families_facts.
Context {W : Type} (yaml_Marshal : families_Config -> res string) (s : Scanner)
  (tools : ScannerToolsConfig).

(** X14.  The configuration that [generateFamiliesConfigurationYaml]
    hands to the YAML marshaller switches on exactly the families that
    [createInitTargetScanStatus] initialises to INIT: a family is enabled
    for the scanner CLI if and only if its initial state in the scan
    result is INIT rather than NOTSCANNED.  An enabled family names at
    least one tool and a disabled one none.  The function touches nothing
    but the log, and an error of the marshaller comes back wrapped. *)
Theorem generateFamiliesConfigurationYaml_matches_initial_states
    (scanID targetID : string) (w : W) :
  exists famConfig tr status,
    generateFamiliesConfigurationYaml yaml_Marshal s tools w
    = (Returned
         match yaml_Marshal famConfig with
         | Err err =>
             Err (wrapError "failed to marshal families config to yaml: " err)
         | OK famConfigYaml => OK famConfigYaml
         end, w, tr)
    /\ forallb is_log tr = true
    /\ Result_Status (initScanResult s scanID targetID) = Some status
    /\ forall f,
        family_state f status
        = initState (Some (if Config_enabled f famConfig then INIT else NOTSCANNED))
        /\ (Config_enabled f famConfig = true -> Config_tools f famConfig <> [])
        /\ (Config_enabled f famConfig = false -> Config_tools f famConfig = []).
Proof.
  destruct s as [[ex mal mis roo sb se vu] ? ? ? ?].
  unfold generateFamiliesConfigurationYaml, userMalwareConfigToFamiliesMalwareConfig,
    userSBOMConfigToFamiliesSbomConfig, userVulnConfigToFamiliesVulnConfig,
    userSecretsConfigToFamiliesSecretsConfig,
    userExploitsConfigToFamiliesExploitsConfig,
    userMisconfigurationConfigToFamiliesMisconfigurationConfig,
    userRootkitsConfigToFamiliesRootkitsConfig, initScanResult.
  cbn [scanFamiliesConfig Families_Exploits Families_Malware
       Families_Misconfigurations Families_Rootkits Families_Sbom
       Families_Secrets Families_Vulnerabilities Result_Status].
  unfold_M.
  destruct mal as [[[[|]|]]|]; cbn [nil_or_disabled Enabled negb];
    match goal with
    | |- context [yaml_Marshal ?c] => exists c
    end;
    eexists; eexists;
    (split; [destruct (yaml_Marshal _); reflexivity|]);
    (split; [reflexivity|]); (split; [reflexivity|]);
    intros f; destruct f; cbn;
    repeat match goal with
           | |- context [nil_or_disabled ?c] => destruct c as [[[[|]|]]|]; cbn
           end;
    repeat split; congruence.
Qed.

End families_facts.

(** ** More on the initialisation and on cancellation *)

Section edge_facts.
Context {W : Type} (bc : BackendClient W) (pc : ProviderClient W) (rt : Runtime W)
  (s : Scanner).

(** X15.  The ways out of [createInitTargetScanStatus] other than the
    plain success.  An error of the backend that is not a conflict comes
    back as the empty id with an error whose text is
    [failed to post scan result: ] followed by the text of that error.  A
    created
    result without an id, and a conflict that carries no result or a
    result without an id, end in a nil dereference.  In each case the one
    call made is the POST of the initial scan result. *)
Theorem createInitTargetScanStatus_error_paths (scanID targetID : string) (w w1 : W) :
  (forall e,
     PostScanResult bc (initScanResult s scanID targetID) w = (Err e, w1) ->
     errors_As_conflict e = None ->
     createInitTargetScanStatus bc s scanID targetID w
     = (Returned ("", Some (errorString
                              ("failed to post scan result: " +:+ error_Error e))),
        w1, [ActPostScanResult (initScanResult s scanID targetID) (Err e)]))
  /\ (forall created,
        PostScanResult bc (initScanResult s scanID targetID) w = (OK created, w1) ->
        Result_Id created = None ->
        createInitTargetScanStatus bc s scanID targetID w
        = (Panicked, w1,
           [ActPostScanResult (initScanResult s scanID targetID) (OK created)]))
  /\ (forall e existing,
        PostScanResult bc (initScanResult s scanID targetID) w = (Err e, w1) ->
        errors_As_conflict e = Some existing ->
        existing ≫= Result_Id = None ->
        createInitTargetScanStatus bc s scanID targetID w
        = (Panicked, w1,
           [ActPostScanResult (initScanResult s scanID targetID) (Err e)])).
Proof.
  repeat split.
  - intros e Hpost Has. unfold createInitTargetScanStatus. unfold_M.
    rewrite Hpost. cbv beta iota. rewrite Has. render_text. reflexivity.
  - intros created Hpost Hid. unfold createInitTargetScanStatus, deref. unfold_M.
    rewrite Hpost. cbn. rewrite Hid. reflexivity.
  - intros e existing Hpost Has Hid. unfold createInitTargetScanStatus, deref.
    unfold_M. rewrite Hpost. cbn. rewrite Has.
    destruct existing as [existing|]; cbn in *; [rewrite Hid|]; reflexivity.
Qed.

Lemma deletion_answers_app (l1 l2 : list Action) :
  deletion_answers (l1 ++ l2) = deletion_answers l1 ++ deletion_answers l2.
Proof.
  induction l1 as [|[] l1 IH]; simpl; auto. now rewrite IH.
Qed.

Lemma deletion_answers_none (tr : list Action) :
  deletions tr = [] -> deletion_answers tr = [].
Proof.
  induction tr as [|[] tr IH]; simpl; intros H; try discriminate H; auto.
Qed.

(** X13.  Cancellation cleans up.  When a job was started for a target in
    state INIT and the kill signal arrives while the worker waits for its
    result, after any events that left the wait waiting, the item is
    returned as it was and the worker calls [Delete] of the provider on
    every resource of the job, in order, whatever the delete policy: the
    turn ends in the world those calls leave. *)
Theorem worker_item_cancel_deletes_job (data : scanData)
    (before rest : list WaitSelect) (send : SendSelect)
    (status : TargetScanStatus) (job : Job) (w w1 w2 w3 : W)
    (t tr0 : list Action) :
  completed data = false ->
  timeout data = false ->
  GetScanResultStatus bc (scanResultID data) w = (OK status, w1) ->
  GetGeneralState status = (INIT, true) ->
  runJob bc pc s data w1 = (Returned (job, None), w2, t) ->
  waitForResult bc s before data w2 = (Blocked, w3, tr0) ->
  exists tr,
    worker_item bc pc rt s data (before ++ WaitKill :: rest) send w
    = (Returned data, (delete_each pc (Job_resources job) w3).2, tr)
    /\ deletion_answers tr = (delete_each pc (Job_resources job) w3).1
    /\ deletions tr = Job_resources job.
Proof.
  intros Hcompleted Htimeout Hstatus Hstate Hrun Hblocked.
  destruct (runJob_ensures bc pc s data _ _ _ _ Hrun) as (Hquiet & _).
  destruct (deleteJob_effect pc job w3) as (td & Hdelete & Hanswers & Hdel & _).
  assert (Hlogs : deletions tr0 = []).
  { pose proof (waitForResult_loop_logs bc s before data w2) as Hl.
    rewrite waitForResult_unfold in Hblocked.
    destruct (waitForResult_loop bc s before data w2) as [[o w'] t'].
    cbn in Hblocked, Hl. injection Hblocked as _ _ <-.
    apply logs_delete_nothing. cbn. exact Hl. }
  assert (Hwait :
    waitForResult bc s (before ++ WaitKill :: rest) data w2
    = (Returned data, w3,
       tr0 ++ [ActLog LogInfo "Instance scan was canceled. targetID=%v"
                 [TargetID (targetInstance data)]])).
  { rewrite (waitForResult_blocked_app _ _ _ _ _ _ _ Hblocked). reflexivity. }
  assert (Hcall :
    call (GetScanResultStatus bc (scanResultID data)) w
    = (Returned (OK status), w1, [])).
  { unfold call. rewrite Hstatus. reflexivity. }
  assert (Hhandle :
    handleScanData bc pc s (before ++ WaitKill :: rest) data w
    = (Returned (Some job, None, data), w3,
       t ++ tr0 ++ [ActLog LogInfo "Instance scan was canceled. targetID=%v"
                      [TargetID (targetInstance data)]])).
  { unfold handleScanData. rewrite (bind_returned _ _ _ _ _ _ Hcall).
    rewrite Hstate. cbn [negb]. cbv beta iota.
    rewrite (bind_returned _ _ _ _ _ _ Hrun). cbv beta iota.
    rewrite (bind_returned _ _ _ _ _ _ Hwait). rewrite Htimeout.
    cbn. now rewrite !app_nil_r. }
  assert (Hreap :
    deleteJobIfNeeded pc s (Some job) (success data) (completed data) w3
    = (Returned tt, (delete_each pc (Job_resources job) w3).2, td)).
  { unfold deleteJobIfNeeded. rewrite Hcompleted. exact Hdelete. }
  destruct send; eexists; split.
  all: try (unfold worker_item; rewrite (bind_returned _ _ _ _ _ _ Hhandle);
            cbv beta iota;
            erewrite bind_returned by reflexivity;
            rewrite (bind_returned _ _ _ _ _ _ Hreap);
            reflexivity).
  all: cbn [prepend app];
    rewrite ?deletion_answers_app, ?deletions_app, Hquiet, Hlogs, Hdel, Hanswers,
      (deletion_answers_none _ Hquiet), (deletion_answers_none _ Hlogs);
    cbn; rewrite ?app_nil_r; auto.
Qed.

End edge_facts.

Lemma worker_item_cancel_deletes_job_witness :
  exists tr,
    worker_item simBackend simProvider simRuntime
      (sample_scanner DeleteJobPolicyNever) sample_data
      ([TimerTick] ++ [WaitKill; TimerTick]) SentDone
      (sample_world [sample_result sample_status_init] [])
    = (Returned sample_data,
       sample_world
         [sample_result
            {| Status_Exploits := sample_state NOTSCANNED None;
               Status_General := sample_state ATTACHED None;
               Status_Malware := sample_state NOTSCANNED None;
               Status_Misconfigurations := sample_state NOTSCANNED None;
               Status_Rootkits := sample_state NOTSCANNED None;
               Status_Sbom := sample_state INIT None;
               Status_Secrets := sample_state NOTSCANNED None;
               Status_Vulnerabilities := sample_state INIT None |}] [],
       tr)
    /\ deletion_answers tr = List.map (fun r => (r, None)) (Job_resources sample_job)
    /\ deletions tr = Job_resources sample_job.
Proof.
  apply (worker_item_cancel_deletes_job simBackend simProvider simRuntime
           (sample_scanner DeleteJobPolicyNever) sample_data
           [TimerTick] [TimerTick] SentDone sample_status_init sample_job
           (sample_world [sample_result sample_status_init] [])
           (sample_world [sample_result sample_status_init] [])
           (snd (fst sample_cancel_runJob))
           (snd (fst sample_cancel_wait))
           (snd sample_cancel_runJob) (snd sample_cancel_wait));
    vm_compute; reflexivity.
Defined.

Lemma createInitTargetScanStatus_error_paths_witness :
  createInitTargetScanStatus simBackend (sample_scanner DeleteJobPolicyAlways)
    "scan-1" "target-1" (sample_world [] [true])
  = (Returned ("", Some (errorString "failed to post scan result: unavailable")),
     sample_world [] [],
     [ActPostScanResult
        (initScanResult (sample_scanner DeleteJobPolicyAlways) "scan-1" "target-1")
        (Err sim_unavailable)]).
Proof.
  apply (proj1 (createInitTargetScanStatus_error_paths simBackend
                  (sample_scanner DeleteJobPolicyAlways) "scan-1" "target-1"
                  (sample_world [] [true]) (sample_world [] []))
           sim_unavailable);
    reflexivity.
Defined.

(** ** package server *)

Lemma append_inj_r (p a b : string) : p +:+ a = p +:+ b -> a = b.
Proof.
  induction p as [|c p IH]; cbn; [auto|]. intros H. injection H as H. auto.
Qed.

(** X16.  No two routes collide: for every base URL the 22 registrations
    of [RegisterHandlersWithBaseURL] are pairwise distinct in method and
    path, every path is the base URL followed by a path that starts with a
    slash, each method of the wrapper serves exactly one route, and
    [RegisterHandlers] is the registration under the empty base URL. *)
Theorem RegisterHandlersWithBaseURL_routes_distinct (baseURL : string) :
  NoDup (List.map (fun r => (Route_Method r, Route_Path r))
           (RegisterHandlersWithBaseURL baseURL))
  /\ NoDup (List.map Route_Handler (RegisterHandlersWithBaseURL baseURL))
  /\ length (RegisterHandlersWithBaseURL baseURL) = 22%nat
  /\ Forall (fun r => exists p, Route_Path r = baseURL +:+ "/" +:+ p)
       (RegisterHandlersWithBaseURL baseURL)
  /\ List.map (fun r => (Route_Method r, Route_Path r, Route_Handler r)) RegisterHandlers
     = List.map (fun r => (Route_Method r, Route_Path r, Route_Handler r))
         (RegisterHandlersWithBaseURL "").
Proof.
  split; [|split; [|split; [reflexivity|split; [|reflexivity]]]].
  - change (List.map (fun r => (Route_Method r, Route_Path r))
              (RegisterHandlersWithBaseURL baseURL))
      with ((fun mp : Method * string => (mp.1, baseURL +:+ mp.2))
              <$> List.map (fun r => (Route_Method r, Route_Path r))
                    (RegisterHandlersWithBaseURL "")).
    apply NoDup_fmap_2.
    + intros [m1 p1] [m2 p2] H. injection H as -> Hp.
      now rewrite (append_inj_r _ _ _ Hp).
    + apply (bool_decide_unpack _). vm_compute. reflexivity.
  - apply (bool_decide_unpack _). vm_compute. reflexivity.
  - unfold RegisterHandlersWithBaseURL.
    repeat (apply Forall_cons_2; [eexists; reflexivity|]).
    apply Forall_nil_2.
Qed.

Section swagger_facts.
Context {T W : Type} (rawSpec : res (list Byte.byte)) (path_Clean : string -> string)
  (NewLoader : Loader)
  (LoadFromData : Loader -> list Byte.byte -> W -> (option T * option error) * W).

(** X17.  [PathToRawSpec] maps a path that is not empty to the embedded
    specification and nothing else, and the empty path to the empty map.
    When the embedded specification cannot be decoded, [GetSwagger]
    returns that error and leaves the world as it was, whatever the
    loader.  Otherwise it returns what the loader returns, called once
    with a loader that allows external references and whose resolver
    answers every URL with path not found, since it is built from the
    empty path. *)
Theorem GetSwagger_resolves_no_reference :
  (forall p q,
     PathToRawSpec rawSpec p !! q
     = if decide (p <> "" /\ q = p) then Some rawSpec else None)
  /\ (forall err w,
        rawSpec = Err err ->
        GetSwagger rawSpec path_Clean NewLoader LoadFromData w
        = (Returned (None, Some err), w, []))
  /\ (forall specData w,
        rawSpec = OK specData ->
        exists loader resolve,
          GetSwagger rawSpec path_Clean NewLoader LoadFromData w
          = (Returned (LoadFromData loader specData w).1,
             (LoadFromData loader specData w).2, [])
          /\ IsExternalRefsAllowed loader = true
          /\ ReadFromURIFunc loader = Some resolve
          /\ forall url,
              resolve url = Err (errorString ("path not found: " +:+ path_Clean url))).
Proof.
  split; [|split].
  - intros p q. unfold PathToRawSpec.
    destruct p as [|c p]; cbn.
    + rewrite lookup_empty, decide_False; [reflexivity|].
      intros [H _]; congruence.
    + destruct (decide (q = String c p)) as [->|Hne].
      * rewrite lookup_insert_eq, decide_True; [reflexivity|]. split; congruence.
      * rewrite lookup_insert_ne by congruence.
        rewrite lookup_empty, decide_False; [reflexivity|].
        intros [_ H]; congruence.
  - intros err w Hraw. unfold GetSwagger. rewrite Hraw. reflexivity.
  - intros specData w Hraw. unfold GetSwagger. rewrite Hraw. unfold call.
    match goal with
    | |- context [LoadFromData ?l specData w] => exists l
    end.
    eexists. split; [|split; [reflexivity|split; [reflexivity|]]].
    + match goal with
      | |- context [LoadFromData ?l specData w] =>
          destruct (LoadFromData l specData w) as [r w1]
      end.
      reflexivity.
    + intros url. unfold GetSwagger_func1, PathToRawSpec. cbn.
      rewrite lookup_empty. unfold Errorf. cbn. now rewrite append_empty_right.
Qed.

End swagger_facts.

Lemma GetSwagger_resolves_no_reference_witness :
  exists loader resolve,
    GetSwagger (OK []) (fun p => p)
      {| IsExternalRefsAllowed := false; ReadFromURIFunc := None |}
      sample_LoadFromData 0%nat
    = (Returned (sample_LoadFromData loader [] 0%nat).1,
       (sample_LoadFromData loader [] 0%nat).2, [])
    /\ IsExternalRefsAllowed loader = true
    /\ ReadFromURIFunc loader = Some resolve
    /\ (forall url, resolve url = Err (errorString ("path not found: " +:+ url)))
    /\ GetSwagger (OK []) (fun p => p)
         {| IsExternalRefsAllowed := false; ReadFromURIFunc := None |}
         sample_LoadFromData 0%nat
       = (Returned (None, Some (errorString "path not found: common.yaml")),
          1%nat, []).
Proof.
  destruct (proj2 (proj2 (GetSwagger_resolves_no_reference
                            (T := unit) (OK []) (fun p => p)
                            {| IsExternalRefsAllowed := false;
                               ReadFromURIFunc := None |}
                            sample_LoadFromData)) [] 0%nat eq_refl)
    as (loader & resolve & Hrun & Hallowed & Hresolver & Hfails).
  exists loader, resolve. repeat split; auto.
Defined.
